(** * ScalarFieldTask: the 10-K chunking core and the structure transformer

    A shallow embedding of

    - [src/proto-3/10-k_modified.py], class [TenKProcessor]: boundary
      filtering, chunk planning, the shrink-and-retry chunk processor, the
      chunk queue and the incremental combiner;
    - [src/filing_parser_pipeline.py]: [transform_sections] and
      [transform_parts].

    Conventions of the embedding.

    - A Python [str] is a [string]; every [ascii] stands for the code point
      of the same number, so the texts covered are the ones whose code
      points are below 256.  On these, [\s], [\d] and the case-insensitive
      letters of the source's patterns are the finite tables written below.
    - A Python value of unknown shape (a parsed JSON document, an argument
      typed [Any]) is a [pyval]; a dict is an association list in insertion
      order, which is the order [items()] and [json.dumps] follow.
    - A Python [float] is a binary64 number of the Standard Library's
      [SpecFloat] ([prec = 53], [emax = 1024]).
    - Code that may raise returns a [result]; the remote model is a
      sequence of outcomes, one per call. *)

From Stdlib Require Import List String Ascii Bool Arith PeanoNat ZArith Lia.
From Stdlib Require Import QArith.
From Stdlib Require Import DecimalString.
From Stdlib Require Import Floats.SpecFloat.
From Stdlib Require Import Permutation Sorted.
Import ListNotations.

Local Open Scope string_scope.
Local Open Scope list_scope.
Local Open Scope nat_scope.

(** ** Exceptions and results *)

Inductive exn_class : Type :=
| AttributeError | KeyError | TypeError | ValueError | IndexError
| JSONDecodeError | PlainException.

(** [exn_msg] is what [str(e)] gives. *)
Record exn : Type := mkExn { exn_kind : exn_class; exn_msg : string }.

Inductive result (A : Type) : Type :=
| Ok (a : A)
| Raise (e : exn).
Arguments Ok {A} a.
Arguments Raise {A} e.

Definition bind {A B : Type} (r : result A) (k : A -> result B) : result B :=
  match r with
  | Ok a => k a
  | Raise e => Raise e
  end.

Declare Scope py_scope.
Delimit Scope py_scope with py.
Notation "'do' x <- r ; k" := (bind r (fun x => k))
  (at level 10, x name, r at level 100, k at level 200) : py_scope.
Local Open Scope py_scope.

Definition is_ok {A : Type} (r : result A) : bool :=
  match r with Ok _ => true | Raise _ => false end.

(** ** Python values *)

Definition float := spec_float.

#[local] Set Warnings "-register-all".

Inductive pyval : Type :=
| PNone
| PBool (b : bool)
| PInt (z : Z)
| PFloat (f : float)
| PStr (s : string)
| PList (l : list pyval)
| PDict (d : list (string * pyval)).

Definition dict : Type := list (string * pyval).

Definition py_type_name (v : pyval) : string :=
  match v with
  | PNone => "NoneType"
  | PBool _ => "bool"
  | PInt _ => "int"
  | PFloat _ => "float"
  | PStr _ => "str"
  | PList _ => "list"
  | PDict _ => "dict"
  end.

Definition isinstance_list (v : pyval) : bool :=
  match v with PList _ => true | _ => false end.

Definition isinstance_dict (v : pyval) : bool :=
  match v with PDict _ => true | _ => false end.

Definition isinstance_str (v : pyval) : bool :=
  match v with PStr _ => true | _ => false end.

(** Truth value of a Python object. *)
Definition py_truthy (v : pyval) : bool :=
  match v with
  | PNone => false
  | PBool b => b
  | PInt z => negb (Z.eqb z 0)
  | PFloat (S754_zero _) => false
  | PFloat _ => true
  | PStr s => negb (String.eqb s "")
  | PList l => match l with [] => false | _ => true end
  | PDict d => match d with [] => false | _ => true end
  end.

(** [a or b] *)
Definition py_or (a b : pyval) : pyval := if py_truthy a then a else b.

(** *** Dicts in insertion order *)

Fixpoint dict_get (k : string) (d : dict) : option pyval :=
  match d with
  | [] => None
  | (k', v) :: r => if String.eqb k k' then Some v else dict_get k r
  end.

Definition dict_has (k : string) (d : dict) : bool :=
  match dict_get k d with Some _ => true | None => false end.

(** [d[k] = v]: an existing key keeps its place, a new key goes last. *)
Fixpoint dict_set (k : string) (v : pyval) (d : dict) : dict :=
  match d with
  | [] => [(k, v)]
  | (k', v') :: r =>
      if String.eqb k k' then (k, v) :: r else (k', v') :: dict_set k v r
  end.

Definition dict_keys (d : dict) : list string := map fst d.

(** [{k: v for k, v in d.items() if k not in (excluded,)}] *)
Definition dict_without (excluded : string) (d : dict) : dict :=
  filter (fun kv => negb (String.eqb (fst kv) excluded)) d.

Definition attribute_error (v : pyval) (attr : string) : exn :=
  mkExn AttributeError
    ("'" ++ py_type_name v ++ "' object has no attribute '" ++ attr ++ "'").

(** [v.get(k, default)] *)
Definition py_get (v : pyval) (k : string) (default : pyval) : result pyval :=
  match v with
  | PDict d => Ok (match dict_get k d with Some x => x | None => default end)
  | _ => Raise (attribute_error v "get")
  end.

(** [v.items()] *)
Definition py_items (v : pyval) : result (list (string * pyval)) :=
  match v with
  | PDict d => Ok d
  | _ => Raise (attribute_error v "items")
  end.

(** ** Text *)

Definition len (s : string) : nat := String.length s.

Fixpoint drop (n : nat) (s : string) : string :=
  match n, s with
  | O, _ => s
  | S _, EmptyString => EmptyString
  | S n', String _ r => drop n' r
  end.

Fixpoint take (n : nat) (s : string) : string :=
  match n, s with
  | O, _ => EmptyString
  | S _, EmptyString => EmptyString
  | S n', String c r => String c (take n' r)
  end.

(** [s[a:b]] for indices that are not negative: the indices are clamped to
    the length and a reversed range is empty. *)
Definition slice (a b : nat) (s : string) : string := take (b - a) (drop a s).

(** [str(n)] of an integer that is not negative. *)
Definition str_of_nat (n : nat) : string := NilZero.string_of_uint (Nat.to_uint n).

(** [str(z)] *)
Definition str_of_Z (z : Z) : string := NilZero.string_of_int (Z.to_int z).

(** ** Structure transformer ([src/filing_parser_pipeline.py]) *)

Module Transformer.

(** The loop of [transform_sections] over [enumerate(sections_obj)]. *)
Fixpoint transform_sections_list (idx : nat) (l : list pyval) : list pyval :=
  match l with
  | [] => []
  | sec :: rest =>
      match sec with
      | PDict d =>
          (if negb (dict_has "section_id" d)
           then PDict (dict_set "section_id" (PStr ("section_" ++ str_of_nat idx)) d)
           else sec) :: transform_sections_list (S idx) rest
      | _ => transform_sections_list (S idx) rest
      end
  end.

Definition transform_sections_item (kv : string * pyval) : pyval :=
  let (key, value) := kv in
  match value with
  | PDict d => PDict (dict_set "section_id" (PStr key) d)
  | _ => PDict [("section_id", PStr key); ("value", value)]
  end.

Definition transform_sections (sections_obj : pyval) : result (list pyval) :=
  if isinstance_list sections_obj then
    match sections_obj with
    | PList l => Ok (transform_sections_list 0 l)
    | _ => Raise (mkExn TypeError "enumerate")
    end
  else if isinstance_dict sections_obj then
    do items <- py_items sections_obj;
    Ok (map transform_sections_item items)
  else Ok [].

(** One turn of the list loop of [transform_parts]; [None] is [continue]. *)
Definition transform_parts_list_item (part : pyval) : result (option pyval) :=
  if negb (isinstance_dict part) then Ok None
  else
    do part_name <- py_get part "part_name" PNone;
    do raw_sections <- py_get part "sections" PNone;
    do sections <- transform_sections raw_sections;
    do items <- py_items part;
    let base := dict_without "sections" items in
    let base := dict_set "sections" (PList sections) base in
    let base :=
      if negb (py_truthy (match dict_get "part_name" base with
                          | Some x => x | None => PNone end))
      then dict_set "part_name" (py_or part_name (PStr "Part")) base
      else base in
    Ok (Some (PDict base)).

Fixpoint transform_parts_list (l : list pyval) : result (list pyval) :=
  match l with
  | [] => Ok []
  | part :: rest =>
      do r <- transform_parts_list_item part;
      do out <- transform_parts_list rest;
      Ok (match r with Some b => b :: out | None => out end)
  end.

Definition transform_parts_dict_item (kv : string * pyval) : result pyval :=
  let (key, value) := kv in
  if isinstance_dict value then
    do pn <- py_get value "part_name" PNone;
    let part_name := py_or pn (PStr key) in
    do raw_sections <- py_get value "sections" PNone;
    do sections <- transform_sections raw_sections;
    do items <- py_items value;
    let base := dict_without "sections" items in
    let base := dict_set "part_name" part_name base in
    let base := dict_set "sections" (PList sections) base in
    Ok (PDict base)
  else
    Ok (PDict [("part_name", PStr key); ("value", value); ("sections", PList [])]).

Fixpoint transform_parts_dict (d : dict) : result (list pyval) :=
  match d with
  | [] => Ok []
  | kv :: rest =>
      do b <- transform_parts_dict_item kv;
      do out <- transform_parts_dict rest;
      Ok (b :: out)
  end.

Definition transform_parts (parts_obj : pyval) : result (list pyval) :=
  match parts_obj with
  | PList l => transform_parts_list l
  | PDict d => transform_parts_dict d
  | _ => Ok []
  end.

End Transformer.

(** ** More on text *)

(** [s[a:b]] for any integers: a negative index counts from the end. *)
Definition slice_index (i : Z) (n : nat) : nat :=
  if (i <? 0)%Z then Z.to_nat (Z.max 0 (i + Z.of_nat n))
  else Nat.min (Z.to_nat i) n.

Definition py_slice (a b : Z) (s : string) : string :=
  slice (slice_index a (len s)) (slice_index b (len s)) s.

(** The characters below 256 for which [str.isspace] holds, which are also
    the ones [\s] matches. *)
Definition is_space (c : ascii) : bool :=
  let n := nat_of_ascii c in
  ((9 <=? n) && (n <=? 13)) || ((28 <=? n) && (n <=? 32))
  || (n =? 133) || (n =? 160).

(** The characters [\d] matches. *)
Definition is_digit (c : ascii) : bool :=
  let n := nat_of_ascii c in (48 <=? n) && (n <=? 57).

Fixpoint lstrip (s : string) : string :=
  match s with
  | EmptyString => EmptyString
  | String c r => if is_space c then lstrip r else s
  end.

Definition string_rev (s : string) : string :=
  string_of_list_ascii (rev (list_ascii_of_string s)).

(** [s.strip()] *)
Definition strip (s : string) : string :=
  lstrip (string_rev (lstrip (string_rev s))).

Fixpoint string_filter (keep : ascii -> bool) (s : string) : string :=
  match s with
  | EmptyString => EmptyString
  | String c r =>
      if keep c then String c (string_filter keep r) else string_filter keep r
  end.

(** [sep.join(l)] *)
Fixpoint join (sep : string) (l : list string) : string :=
  match l with
  | [] => ""
  | [x] => x
  | x :: r => x ++ sep ++ join sep r
  end.

(** [s.startswith(p)] *)
Definition startswith (p s : string) : bool := String.prefix p s.

(** [needle in haystack] on two strings. *)
Fixpoint is_substring (needle haystack : string) : bool :=
  String.prefix needle haystack
  || match haystack with
     | EmptyString => false
     | String _ r => is_substring needle r
     end.

Definition newline : string := String (ascii_of_nat 10) EmptyString.

(** [estimate_token_count]: [len(text) // 4]. *)
Definition estimate_token_count (text : string) : Z := Z.of_nat (len text) / 4.

(** ** Binary64 arithmetic as the planner uses it *)

Definition prec64 : Z := 53.
Definition emax64 : Z := 1024.

(** [float(z)] of an integer, rounded to nearest even.  Above the largest
    binary64 number the conversion gives infinity here, where Python raises
    [OverflowError]; no text length reaches that size. *)
Definition float_of_int (z : Z) : float := binary_normalize prec64 emax64 z 0 false.

Definition fmul (x y : float) : float := SFmul prec64 emax64 x y.
Definition fadd (x y : float) : float := SFadd prec64 emax64 x y.

(** The literals [0.8] and [0.1]: the binary64 numbers nearest to 8/10 and
    to 1/10, which the correctly rounded quotients are. *)
Definition float_0_8 : float :=
  Eval cbv in SFdiv prec64 emax64 (float_of_int 8) (float_of_int 10).
Definition float_0_1 : float :=
  Eval cbv in SFdiv prec64 emax64 (float_of_int 1) (float_of_int 10).
Definition float_zero : float := S754_zero false.

(** Comparison of a float with an integer, which Python decides on the
    exact values.  [float_cmp_int f z] compares the value of [f] with [z];
    [None] is for a NaN, which makes every ordering test false. *)
Definition float_cmp_int (f : float) (z : Z) : option comparison :=
  match f with
  | S754_nan => None
  | S754_infinity s => Some (if s then Lt else Gt)
  | S754_zero _ => Some (0 ?= z)%Z
  | S754_finite s m e =>
      let v := cond_Zopp s (Zpos m) in
      Some (if (0 <=? e)%Z then (v * 2 ^ e ?= z)%Z
            else (v ?= z * 2 ^ (- e))%Z)
  end.

(** [f > z] *)
Definition float_gt_int (f : float) (z : Z) : bool :=
  match float_cmp_int f z with Some Gt => true | _ => false end.

(** [z > f] *)
Definition int_gt_float (z : Z) (f : float) : bool :=
  match float_cmp_int f z with Some Lt => true | _ => false end.

(** ** The 10-K processor ([src/proto-3/10-k_modified.py]) *)

(** *** Data *)

(** A boundary dict of [detect_section_boundaries].  The confidence is one
    of the literals [0.5] ... [0.9] of the strategy table; it is kept as
    the rational it denotes, on which [>] and [==] agree with binary64. *)
Record Boundary : Type := mkBoundary {
  b_strategy : string;
  b_confidence : Q;
  b_position : Z;
  b_end_position : Z;
  b_item_number : option string;
  b_title : string;
  b_full_match : string;
  b_context_before : string;
  b_context_after : string
}.

Definition option_string_eqb (a b : option string) : bool :=
  match a, b with
  | Some x, Some y => String.eqb x y
  | None, None => true
  | _, _ => false
  end.

(** [==] on two boundary dicts. *)
Definition boundary_eqb (x y : Boundary) : bool :=
  String.eqb (b_strategy x) (b_strategy y)
  && Qeq_bool (b_confidence x) (b_confidence y)
  && Z.eqb (b_position x) (b_position y)
  && Z.eqb (b_end_position x) (b_end_position y)
  && option_string_eqb (b_item_number x) (b_item_number y)
  && String.eqb (b_title x) (b_title y)
  && String.eqb (b_full_match x) (b_full_match y)
  && String.eqb (b_context_before x) (b_context_before y)
  && String.eqb (b_context_after x) (b_context_after y).

(** Truth value of [boundary['item_number']]: [None] and the empty string
    are false. *)
Definition item_number_truthy (o : option string) : bool :=
  match o with
  | Some s => negb (String.eqb s "")
  | None => false
  end.

(** [a > b] on confidences. *)
Definition confidence_gt (a b : Q) : bool := negb (Qle_bool a b).

(** *** Boundary detector: the filtering after the strategies have run *)

(** [boundaries.sort(key=lambda x: x['position'])]: the sort is stable, and
    a stable sort has one result, the one of this insertion sort. *)
Fixpoint insert_by_position (b : Boundary) (l : list Boundary) : list Boundary :=
  match l with
  | [] => [b]
  | x :: r =>
      if (b_position b <=? b_position x)%Z then b :: x :: r
      else x :: insert_by_position b r
  end.

Fixpoint sort_by_position (l : list Boundary) : list Boundary :=
  match l with
  | [] => []
  | b :: r => insert_by_position b (sort_by_position r)
  end.

(** [l.remove(x)]: the first element equal to [x] goes, [ValueError] when
    there is none. *)
Fixpoint list_remove (x : Boundary) (l : list Boundary) : result (list Boundary) :=
  match l with
  | [] => Raise (mkExn ValueError "list.remove(x): x not in list")
  | y :: r =>
      if boundary_eqb y x then Ok r
      else do r' <- list_remove x r; Ok (y :: r')
  end.

Definition seen_dict : Type := list (string * Boundary).

Fixpoint seen_get (k : string) (d : seen_dict) : option Boundary :=
  match d with
  | [] => None
  | (k', b) :: r => if String.eqb k k' then Some b else seen_get k r
  end.

Fixpoint seen_set (k : string) (b : Boundary) (d : seen_dict) : seen_dict :=
  match d with
  | [] => [(k, b)]
  | (k', b') :: r =>
      if String.eqb k k' then (k, b) :: r else (k', b') :: seen_set k b r
  end.

Record filter_state : Type := mkFilterState {
  filtered_boundaries : list Boundary;
  seen_items : seen_dict
}.

(** [re.sub(r'[...\s\n\-=_]', '', text)]: the box-drawing characters of the
    class are above 255. *)
Definition is_decorative (c : ascii) : bool :=
  is_space c || (nat_of_ascii c =? 45) || (nat_of_ascii c =? 61)
  || (nat_of_ascii c =? 95).

Definition strip_decorative (text : string) : string :=
  string_filter (fun c => negb (is_decorative c)) text.

Section Detector.

(** The list [boundaries] after the loop over the strategies: what
    [re.finditer] finds for each pattern, in the order of the table. *)
Variable strategy_matches : string -> list Boundary.

(** [str.upper], which on some letters leaves the characters of this
    embedding. *)
Variable str_upper : string -> string.

(** One turn of the loop [for boundary in boundaries]. *)
Definition filter_step (document_content : string) (st : filter_state)
    (boundary : Boundary) : result filter_state :=
  if item_number_truthy (b_item_number boundary) then
    let boundary_key :=
      match b_item_number boundary with Some k => k | None => "" end in
    match seen_get boundary_key (seen_items st) with
    | None =>
        Ok (mkFilterState (filtered_boundaries st ++ [boundary])
                          (seen_set boundary_key boundary (seen_items st)))
    | Some old =>
        if confidence_gt (b_confidence boundary) (b_confidence old) then
          do kept <- list_remove old (filtered_boundaries st);
          Ok (mkFilterState (kept ++ [boundary])
                            (seen_set boundary_key boundary (seen_items st)))
        else Ok st
    end
  else
    let part_title := str_upper (strip (b_title boundary)) in
    match seen_get part_title (seen_items st) with
    | Some _ => Ok st
    | None =>
        let next_content :=
          py_slice (b_position boundary) (b_position boundary + 1000)
                   document_content in
        let has_content := 100 <? len (strip_decorative next_content) in
        if has_content then
          Ok (mkFilterState (filtered_boundaries st ++ [boundary])
                            (seen_set part_title boundary (seen_items st)))
        else Ok st
    end.

Fixpoint filter_loop (document_content : string) (st : filter_state)
    (boundaries : list Boundary) : result filter_state :=
  match boundaries with
  | [] => Ok st
  | boundary :: rest =>
      do st' <- filter_step document_content st boundary;
      filter_loop document_content st' rest
  end.

(** [abs(boundary['position'] - existing['position']) < 200] for some
    [existing] already kept. *)
Definition is_too_close (boundary : Boundary) (final_boundaries : list Boundary) : bool :=
  existsb (fun existing =>
             (Z.abs (b_position boundary - b_position existing) <? 200)%Z)
          final_boundaries.

Fixpoint drop_close (final_boundaries : list Boundary) (l : list Boundary)
    : list Boundary :=
  match l with
  | [] => final_boundaries
  | boundary :: rest =>
      if is_too_close boundary final_boundaries
      then drop_close final_boundaries rest
      else drop_close (final_boundaries ++ [boundary]) rest
  end.

(** The filtering of [detect_section_boundaries], on the list the
    strategies produced. *)
Definition filter_boundaries (document_content : string)
    (boundaries : list Boundary) : result (list Boundary) :=
  let boundaries := sort_by_position boundaries in
  do st <- filter_loop document_content (mkFilterState [] []) boundaries;
  let filtered := sort_by_position (filtered_boundaries st) in
  Ok (drop_close [] filtered).

Definition detect_section_boundaries (document_content : string)
    : result (list Boundary) :=
  filter_boundaries document_content (strategy_matches document_content).

End Detector.

(** *** Chunk planner *)

(** A section dict inside a chunk.  The planner writes all six keys; the
    whole-document chunk of [extract_sections_dynamic] has the first two
    only, hence the options: [None] is an absent key. *)
Record SectionInfo : Type := mkSection {
  s_item_number : option string;
  s_title : string;
  s_position : option Z;
  s_end_position : option Z;
  s_estimated_tokens : option Z;
  s_confidence : option Q
}.

(** The chunk dicts [create_processing_chunks] builds. *)
Record PlanChunk : Type := mkPlanChunk {
  p_start_pos : Z;
  p_end_pos : Z;
  p_sections : list SectionInfo;
  p_estimated_input_tokens : Z;
  p_estimated_output_tokens : float
}.

(** The attributes of [self] the chunking core reads. *)
Record TenKProcessor : Type := mkProcessor {
  max_tokens_per_chunk : Z;
  system_prompt : string
}.

Definition empty_chunk (start : Z) : PlanChunk :=
  mkPlanChunk start 0 [] 0 float_zero.

(** [if current_chunk['sections']: current_chunk['end_pos'] = end;
    chunks.append(current_chunk)] *)
Definition flush (chunks : list PlanChunk) (current_chunk : PlanChunk) (end_ : Z)
    : list PlanChunk :=
  match p_sections current_chunk with
  | [] => chunks
  | _ :: _ =>
      chunks ++ [mkPlanChunk (p_start_pos current_chunk) end_
                             (p_sections current_chunk)
                             (p_estimated_input_tokens current_chunk)
                             (p_estimated_output_tokens current_chunk)]
  end.

Definition section_of_boundary (boundary : Boundary) (title : string)
    (next_boundary_pos section_tokens : Z) : SectionInfo :=
  mkSection (b_item_number boundary) title (Some (b_position boundary))
            (Some next_boundary_pos) (Some section_tokens)
            (Some (b_confidence boundary)).

(** [section_tokens > available_tokens * 0.8] *)
Definition is_large_section (section_tokens available_tokens : Z) : bool :=
  int_gt_float section_tokens (fmul (float_of_int available_tokens) float_0_8).

(** [section_tokens * 0.1] *)
Definition estimate_output (section_tokens : Z) : float :=
  fmul (float_of_int section_tokens) float_0_1.

(** The loop [for i, boundary in enumerate(boundaries)], with the list of
    chunks and the accumulator as state. *)
Fixpoint plan_loop (document_content : string)
    (available_tokens max_output_tokens : Z) (boundaries : list Boundary)
    (chunks : list PlanChunk) (current_chunk : PlanChunk)
    : list PlanChunk * PlanChunk :=
  match boundaries with
  | [] => (chunks, current_chunk)
  | boundary :: rest =>
      let next_boundary_pos :=
        match rest with
        | next :: _ => b_position next
        | [] => Z.of_nat (len document_content)
        end in
      let section_content :=
        py_slice (b_position boundary) next_boundary_pos document_content in
      let section_tokens := estimate_token_count section_content in
      let estimated_output := estimate_output section_tokens in
      if is_large_section section_tokens available_tokens then
        let chunks := flush chunks current_chunk (b_position boundary) in
        let large_section_chunk :=
          mkPlanChunk (b_position boundary) next_boundary_pos
            [section_of_boundary boundary (b_title boundary ++ " [LARGE SECTION]")
                                 next_boundary_pos section_tokens]
            section_tokens estimated_output in
        plan_loop document_content available_tokens max_output_tokens rest
                  (chunks ++ [large_section_chunk]) (empty_chunk next_boundary_pos)
      else
        let would_exceed_input :=
          (p_estimated_input_tokens current_chunk + section_tokens >? available_tokens)%Z in
        let would_exceed_output :=
          float_gt_int (fadd (p_estimated_output_tokens current_chunk) estimated_output)
                       max_output_tokens in
        let '(chunks, current_chunk) :=
          if would_exceed_input || would_exceed_output
          then (flush chunks current_chunk (b_position boundary),
                empty_chunk (b_position boundary))
          else (chunks, current_chunk) in
        plan_loop document_content available_tokens max_output_tokens rest chunks
          (mkPlanChunk (p_start_pos current_chunk) (p_end_pos current_chunk)
             (p_sections current_chunk
              ++ [section_of_boundary boundary (b_title boundary)
                                      next_boundary_pos section_tokens])
             (p_estimated_input_tokens current_chunk + section_tokens)%Z
             (fadd (p_estimated_output_tokens current_chunk) estimated_output))
  end.

(** [available_tokens = max_input_tokens - system_prompt_tokens - 1000] *)
Definition available_tokens_of (self : TenKProcessor) (max_input_tokens : Z) : Z :=
  (max_input_tokens - estimate_token_count (system_prompt self) - 1000)%Z.

Definition create_processing_chunks (self : TenKProcessor)
    (document_content : string) (boundaries : list Boundary)
    (max_input_tokens max_output_tokens : Z) : list PlanChunk :=
  let available_tokens := available_tokens_of self max_input_tokens in
  let '(chunks, current_chunk) :=
    plan_loop document_content available_tokens max_output_tokens boundaries
              [] (empty_chunk 0) in
  flush chunks current_chunk (Z.of_nat (len document_content)).

(** The defaults of the signature. *)
Definition default_max_input_tokens : Z := 750000.
Definition default_max_output_tokens : Z := 8000.

(** *** Processing chunks *)

(** A chunk id is the integer [i + 1] or a derived string. *)
Inductive ChunkId : Type :=
| IdInt (n : Z)
| IdStr (s : string).

Definition str_of_id (i : ChunkId) : string :=
  match i with
  | IdInt n => str_of_Z n
  | IdStr s => s
  end.

(** A chunk dict as the processor receives it.  The whole-document chunk
    has the keys [content], [sections] and [chunk_id] only. *)
Record ProcessingChunk : Type := mkChunk {
  chunk_id : ChunkId;
  content : string;
  sections : list SectionInfo;
  estimated_input_tokens : option Z;
  estimated_output_tokens : option float;
  start_pos : option Z;
  end_pos : option Z
}.

(** Step 3 of [extract_sections_dynamic], over [enumerate(chunks)]. *)
Fixpoint number_chunks (document_content : string) (i : Z) (chunks : list PlanChunk)
    : list ProcessingChunk :=
  match chunks with
  | [] => []
  | chunk :: rest =>
      mkChunk (IdInt (i + 1))
              (py_slice (p_start_pos chunk) (p_end_pos chunk) document_content)
              (p_sections chunk)
              (Some (p_estimated_input_tokens chunk))
              (Some (p_estimated_output_tokens chunk))
              (Some (p_start_pos chunk)) (Some (p_end_pos chunk))
      :: number_chunks document_content (i + 1) rest
  end.

Definition whole_document_chunk (document_content : string) : ProcessingChunk :=
  mkChunk (IdInt 1) document_content
          [mkSection (Some "ALL") "Complete Document" None None None None]
          None None None None.

(** [extract_sections_dynamic] once the boundaries are known. *)
Definition chunks_of_boundaries (self : TenKProcessor) (document_content : string)
    (boundaries : list Boundary) : list ProcessingChunk :=
  match boundaries with
  | [] => [whole_document_chunk document_content]
  | _ :: _ =>
      number_chunks document_content 0
        (create_processing_chunks self document_content boundaries
           default_max_input_tokens default_max_output_tokens)
  end.

Section Extraction.

Variable strategy_matches : string -> list Boundary.
Variable str_upper : string -> string.

Definition extract_sections_dynamic (self : TenKProcessor)
    (document_content : string) : result (list ProcessingChunk) :=
  do boundaries <-
    detect_section_boundaries strategy_matches str_upper document_content;
  Ok (chunks_of_boundaries self document_content boundaries).

End Extraction.

(** *** The chunk prompt *)

Definition dq : string := String (ascii_of_nat 34) EmptyString.

(** The literal text of the f-string of [create_chunk_prompt], between its
    replacement fields. *)
Definition prompt_text_0 : string :=
  "# 10-K Incremental Processor - Chunk ".

Definition prompt_text_1 : string :=
  "

You are processing a chunk of a 10-K form incrementally. Extract and structure ONLY the content for the sections in this chunk.

## CHUNK INFORMATION
- **Chunk ID**: ".

Definition prompt_text_2 : string :=
  "
- **Company**: ".

Definition prompt_text_3 : string :=
  "
- **Year**: ".

Definition prompt_text_4 : string :=
  "
- **Estimated Input Tokens**: ".

Definition prompt_text_5 : string :=
  "
- **Sections in this chunk**:
".

Definition prompt_text_6 : string :=
  "
".

Definition prompt_text_7 : string :=
  "

## CRITICAL PROCESSING REQUIREMENTS

### Token Management
- Monitor your output carefully to stay within limits
- If you approach token limits, complete the current section and indicate where you stopped
- Use the format: `" ++ dq ++ "processing_status" ++ dq ++ ": " ++ dq ++ "completed_through_item_X" ++ dq ++ "` in your response
- DO NOT start a section you cannot complete within token limits

### Data Processing Rules
1. **Preserve ALL Data**: Never remove numbers, dates, financial figures, names, or legal references
2. **Clean Formatting**: Remove excessive whitespace, fix broken text across lines, clean up table formatting
3. **Maintain Structure**: Keep headers, subheaders, tables, and lists properly formatted
4. **JSON Compliance**: Ensure all strings are properly escaped and valid JSON syntax

### Section Processing Strategy
1. Process sections in the order they appear in the document
2. For each section, extract ALL content completely
3. If a section is too large, break it into logical subsections
4. Always indicate completion status in your response

## REQUIRED JSON OUTPUT FORMAT
```json
{
  " ++ dq ++ "chunk_id" ++ dq ++ ": ".

Definition prompt_text_8 : string :=
  ",
  " ++ dq ++ "company" ++ dq ++ ": " ++ dq ++ "".

Definition prompt_text_9 : string :=
  "" ++ dq ++ ",
  " ++ dq ++ "year" ++ dq ++ ": " ++ dq ++ "".

Definition prompt_text_10 : string :=
  "" ++ dq ++ ",
  " ++ dq ++ "processing_status" ++ dq ++ ": " ++ dq ++ "completed|partial_item_X|stopped_at_item_X" ++ dq ++ ",
  " ++ dq ++ "sections" ++ dq ++ ": {
    " ++ dq ++ "Item X. Title" ++ dq ++ ": {
      " ++ dq ++ "content" ++ dq ++ ": " ++ dq ++ "[Full cleaned and formatted content]" ++ dq ++ ",
      " ++ dq ++ "subsections" ++ dq ++ ": {
        " ++ dq ++ "[subsection_name]" ++ dq ++ ": " ++ dq ++ "[subsection content]" ++ dq ++ "
      },
      " ++ dq ++ "data_quality" ++ dq ++ ": {
        " ++ dq ++ "original_length" ++ dq ++ ": number,
        " ++ dq ++ "processed_length" ++ dq ++ ": number,
        " ++ dq ++ "formatting_applied" ++ dq ++ ": [" ++ dq ++ "list" ++ dq ++ ", " ++ dq ++ "of" ++ dq ++ ", " ++ dq ++ "improvements" ++ dq ++ "]
      }
    }
  },
  " ++ dq ++ "chunk_metadata" ++ dq ++ ": {
    " ++ dq ++ "sections_attempted" ++ dq ++ ": [" ++ dq ++ "list of sections" ++ dq ++ "],
    " ++ dq ++ "sections_completed" ++ dq ++ ": [" ++ dq ++ "list of completed sections" ++ dq ++ "],
    " ++ dq ++ "next_expected_item" ++ dq ++ ": " ++ dq ++ "Item X or null if finished" ++ dq ++ "
  }
}
```

## SECTION CLASSIFICATION
Map each section to the appropriate category:
- **Part I: Business and Risk Factors**: Items 1, 1A, 1B, 2, 3, 4
- **Part II: Financial Information**: Items 5, 6, 7, 7A, 8, 9, 9A, 9B, 9C
- **Part III: Governance**: Items 10, 11, 12, 13, 14
- **Part IV: Exhibits and Schedules**: Items 15, 16

## DATA QUALITY STANDARDS
- Financial numbers: Preserve exactly as written
- Tables: Clean formatting but maintain all data
- Legal language: Keep intact with proper escaping
- References: Maintain all file numbers, dates, citations
- Names: Preserve exactly (companies, people, products)

## CHUNK CONTENT TO PROCESS:

".

Definition prompt_text_11 : string :=
  "".

Definition previous_context_head : string :=
  "
## PREVIOUS PROCESSING CONTEXT
The following sections have already been processed in previous chunks:
".

Definition previous_context_tail : string :=
  "

Continue processing from where the previous chunk left off.
".

(** [format(z, ',')]: decimal digits in groups of three. *)
Fixpoint group3 (digits_rev : list ascii) (n : nat) : list ascii :=
  match digits_rev with
  | [] => []
  | d :: r =>
      if n =? 3 then ","%char :: d :: group3 r 1
      else d :: group3 r (S n)
  end.

Definition format_thousands (z : Z) : string :=
  (if (z <? 0)%Z then "-" else "")
  ++ string_of_list_ascii
       (rev (group3 (rev (list_ascii_of_string (str_of_Z (Z.abs z)))) 0)).

(** [x or default] on an optional string. *)
Definition str_or (x : option string) (default : string) : string :=
  match x with
  | Some s => if String.eqb s "" then default else s
  | None => default
  end.

Definition key_error (k : string) : exn := mkExn KeyError ("'" ++ k ++ "'").

(** [d[k]] on a key that may be absent. *)
Definition require {A : Type} (k : string) (o : option A) : result A :=
  match o with
  | Some a => Ok a
  | None => Raise (key_error k)
  end.

Definition section_label (section : SectionInfo) : string :=
  if item_number_truthy (s_item_number section)
  then "Item " ++ match s_item_number section with Some n => n | None => "" end
       ++ ": " ++ s_title section
  else s_title section.

Section Prompt.

(** [str(v)] of a value the model sent, as the f-string
    [f"  - {s}"] renders it. *)
Variable py_str : pyval -> string.

Definition create_chunk_prompt (chunk_data : ProcessingChunk)
    (company_name year : option string) (is_first_chunk : bool)
    (previous_sections : list pyval) : result string :=
  let sections_list := map section_label (sections chunk_data) in
  let sections_text := join newline (map (fun s => ("  - " ++ s)%string) sections_list) in
  let previous_context :=
    match previous_sections with
    | _ :: _ =>
        if negb is_first_chunk then
          let prev_list :=
            join newline (map (fun s => ("  - " ++ py_str s)%string) previous_sections) in
          (previous_context_head ++ prev_list ++ previous_context_tail)%string
        else ""
    | [] => ""
    end in
  let id := str_of_id (chunk_id chunk_data) in
  let company := str_or company_name "COMPANY_NAME" in
  let yr := str_or year "YEAR" in
  do tokens <-
    match estimated_input_tokens chunk_data with
    | Some n => Ok (format_thousands n)
    | None => Raise (mkExn ValueError "Cannot specify ',' with 's'.")
    end;
  Ok (prompt_text_0 ++ id ++ prompt_text_1 ++ id ++ prompt_text_2 ++ company
      ++ prompt_text_3 ++ yr ++ prompt_text_4 ++ tokens ++ prompt_text_5
      ++ sections_text ++ prompt_text_6 ++ previous_context ++ prompt_text_7
      ++ id ++ prompt_text_8 ++ company ++ prompt_text_9 ++ yr
      ++ prompt_text_10 ++ content chunk_data ++ prompt_text_11)%string.

End Prompt.

(** *** Shrinking a chunk *)

(** The loop [for i in range(mid_point - 100, mid_point + 100)] looking
    for an empty line; [count] is the number of values of [i] left. *)
Fixpoint find_break (section_content : string) (i : Z) (count : nat)
    (mid_point : Z) : Z :=
  match count with
  | O => mid_point
  | S count' =>
      if (i <? Z.of_nat (len section_content))%Z
         && String.eqb (py_slice i (i + 2) section_content) (newline ++ newline)
      then i
      else find_break section_content (i + 1)%Z count' mid_point
  end.

Definition reduce_chunk_size (chunk_data : ProcessingChunk) : result ProcessingChunk :=
  let secs := sections chunk_data in
  do reduced_sections <-
    (if 1 <? List.length secs then Ok (firstn (List.length secs / 2) secs)
     else
       match secs with
       | [] => Raise (mkExn IndexError "list index out of range")
       | section :: _ =>
           do position <- require "position" (s_position section);
           do end_position <- require "end_position" (s_end_position section);
           let section_content :=
             py_slice position end_position (content chunk_data) in
           let mid_point := (Z.of_nat (len section_content) / 2)%Z in
           let mid_point :=
             find_break section_content (mid_point - 100)%Z 200 mid_point in
           Ok [mkSection (s_item_number section) (s_title section ++ " (Part 1)")
                         (s_position section) (Some (position + mid_point)%Z)
                         (s_estimated_tokens section) (s_confidence section)]
       end);
  do reduced_content <-
    match reduced_sections with
    | first :: _ =>
        do start <- require "position" (s_position first);
        do end_ <- require "end_position"
                     (s_end_position (last reduced_sections first));
        do chunk_start <- require "start_pos" (start_pos chunk_data);
        Ok (py_slice (start - chunk_start) (end_ - chunk_start) (content chunk_data))
    | [] =>
        Ok (py_slice 0 (Z.of_nat (len (content chunk_data)) / 2) (content chunk_data))
    end;
  Ok (mkChunk (IdStr (str_of_id (chunk_id chunk_data) ++ "_reduced"))
              reduced_content reduced_sections
              (Some (estimate_token_count reduced_content))
              (estimated_output_tokens chunk_data)
              (start_pos chunk_data) (end_pos chunk_data)).

(** *** The remote model *)

(** What one call of [self.model.generate_content] does: it raises, or it
    answers with a text; [parsed] is what [json.loads] makes of the text,
    [None] for a [JSONDecodeError]. *)
Inductive ModelOutcome : Type :=
| ModelRaises (e : exn)
| ModelText (text : string) (parsed : option pyval).

(** A behaviour of the model: the outcome of its n-th call. *)
Definition Model : Type := nat -> ModelOutcome.

(** *** Chunk processor with backtracking *)

(** The dict [process_chunk_with_backtrack] returns; [None] is an absent
    key. *)
Record ChunkResult : Type := mkResult {
  r_success : bool;
  r_result : option pyval;
  r_completed_sections : option pyval;
  r_next_item : option pyval;
  r_retry_count : option Z;
  r_remaining_chunk : option ProcessingChunk;
  r_partial : option bool;
  r_error : option string;
  r_raw_response : option string
}.

(** How one turn of the [while] loop ends. *)
Inductive attempt_end : Type :=
| Return (r : ChunkResult)
| Continue (retry_count : Z) (current_chunk : ProcessingChunk).

Definition type_error_not_iterable (v : pyval) : exn :=
  mkExn TypeError ("argument of type '" ++ py_type_name v ++ "' is not iterable").

(** [needle in container] for a string [needle]. *)
Definition py_contains (needle : string) (container : pyval) : result bool :=
  match container with
  | PList l =>
      Ok (existsb (fun v => match v with
                            | PStr s => String.eqb needle s
                            | _ => false
                            end) l)
  | PStr s => Ok (is_substring needle s)
  | PDict d => Ok (dict_has needle d)
  | _ => Raise (type_error_not_iterable container)
  end.

(** [f"Item {s['item_number']}"] *)
Definition item_label (s : SectionInfo) : string :=
  "Item " ++ match s_item_number s with Some n => n | None => "None" end.

(** [[s for s in sections if f"Item {s['item_number']}" not in completed]] *)
Fixpoint remaining_of (secs : list SectionInfo) (completed : pyval)
    : result (list SectionInfo) :=
  match secs with
  | [] => Ok []
  | s :: rest =>
      do found <- py_contains (item_label s) completed;
      do rest' <- remaining_of rest completed;
      Ok (if found then rest' else s :: rest')
  end.

Definition with_sections_and_id (c : ProcessingChunk) (secs : list SectionInfo)
    (id : ChunkId) : ProcessingChunk :=
  mkChunk id (content c) secs (estimated_input_tokens c)
          (estimated_output_tokens c) (start_pos c) (end_pos c).

(** [result.get('chunk_metadata', {}).get(key, default)] *)
Definition chunk_metadata_get (result_ : pyval) (key : string) (default : pyval)
    : result pyval :=
  do meta <- py_get result_ "chunk_metadata" (PDict []);
  py_get meta key default.

Definition truncate_raw (text : string) : string :=
  if 1000 <? len text then (slice 0 1000 text ++ "...")%string else text.

(** The code under [result = json.loads(response.text)] when the text
    parses. *)
Definition handle_parsed (result_ : pyval) (retry_count : Z)
    (current_chunk : ProcessingChunk) : result attempt_end :=
  do status <- py_get result_ "processing_status" (PStr "unknown");
  match status with
  | PStr st =>
      if startswith "completed" st then
        do completed <- chunk_metadata_get result_ "sections_completed" (PList []);
        do next <- chunk_metadata_get result_ "next_expected_item" PNone;
        Ok (Return (mkResult true (Some result_) (Some completed) (Some next)
                             (Some retry_count) None None None None))
      else if startswith "partial" st || startswith "stopped" st then
        do completed_sections <-
          chunk_metadata_get result_ "sections_completed" (PList []);
        if py_truthy completed_sections then
          do remaining_sections <-
            remaining_of (sections current_chunk) completed_sections;
          match remaining_sections with
          | _ :: _ =>
              Ok (Return (mkResult true (Some result_) (Some completed_sections)
                            None (Some retry_count)
                            (Some (with_sections_and_id current_chunk
                                     remaining_sections
                                     (IdStr (str_of_id (chunk_id current_chunk)
                                             ++ "_continued")%string)))
                            (Some true) None None))
          | [] =>
              Ok (Return (mkResult true (Some result_) (Some completed_sections)
                            (Some PNone) (Some retry_count) None None None None))
          end
        else
          do reduced <- reduce_chunk_size current_chunk;
          Ok (Continue (retry_count + 1) reduced)
      else
        Ok (Return (mkResult true (Some result_) (Some (PList [])) None
                             (Some retry_count) None None None None))
  | _ => Raise (attribute_error status "startswith")
  end.

Section Processor.

Variable py_str : pyval -> string.
Variable self : TenKProcessor.
Variable model : Model.

Section Backtrack.

Variables (company_name year : option string) (is_first_chunk : bool)
          (previous_sections : list pyval) (max_retries : Z).

(** The body of the [try]; the number is the count of model calls made
    so far. *)
Definition try_body (retry_count : Z) (current_chunk : ProcessingChunk)
    (calls : nat) : result attempt_end * nat :=
  match create_chunk_prompt py_str current_chunk company_name year
                            is_first_chunk previous_sections with
  | Raise e => (Raise e, calls)
  | Ok prompt =>
      let estimated_tokens := estimate_token_count prompt in
      if (estimated_tokens >? max_tokens_per_chunk self)%Z then
        (do reduced <- reduce_chunk_size current_chunk;
         Ok (Continue (retry_count + 1) reduced), calls)
      else
        match model calls with
        | ModelRaises e => (Raise e, S calls)
        | ModelText text parsed =>
            (if negb (String.eqb text "") then
               match parsed with
               | Some result_ => handle_parsed result_ retry_count current_chunk
               | None =>
                   if (retry_count <? max_retries - 1)%Z then
                     do reduced <- reduce_chunk_size current_chunk;
                     Ok (Continue (retry_count + 1) reduced)
                   else
                     Ok (Return (mkResult false None None None None None None
                           (Some ("JSON decode error after "
                                  ++ str_of_Z (retry_count + 1) ++ " attempts")%string)
                           (Some (truncate_raw text))))
               end
             else Raise (mkExn PlainException "Empty response from Gemini"),
             S calls)
        end
  end.

(** The handler [except Exception as e]. *)
Definition handle_exception (e : exn) (retry_count : Z)
    (current_chunk : ProcessingChunk) : result attempt_end :=
  if (retry_count <? max_retries - 1)%Z then
    do reduced <- reduce_chunk_size current_chunk;
    Ok (Continue (retry_count + 1) reduced)
  else
    Ok (Return (mkResult false None None None (Some retry_count) None None
                         (Some (exn_msg e)) None)).

(** One turn of the [while] loop.  A [Raise] here is an exception
    that leaves [process_chunk_with_backtrack]. *)
Definition attempt (retry_count : Z) (current_chunk : ProcessingChunk)
    (calls : nat) : result attempt_end * nat :=
  match try_body retry_count current_chunk calls with
  | (Ok x, calls') => (Ok x, calls')
  | (Raise e, calls') => (handle_exception e retry_count current_chunk, calls')
  end.

Definition failed_after (retry_count : Z) : ChunkResult :=
  mkResult false None None None (Some retry_count) None None
           (Some ("Failed after " ++ str_of_Z max_retries ++ " attempts")%string) None.

(** What a run of the processor on one chunk gives: the dict returned
    or the exception that escaped, the number of model calls made so
    far, and the number of turns of the loop. *)
Definition run : Type := result ChunkResult * nat * nat.

(** [while retry_count < max_retries]; [None] is a loop that is still
    running when the fuel is spent. *)
Fixpoint backtrack_loop (fuel : nat) (retry_count : Z)
    (current_chunk : ProcessingChunk) (calls attempts : nat) : option run :=
  if (retry_count <? max_retries)%Z then
    match fuel with
    | O => None
    | S fuel' =>
        match attempt retry_count current_chunk calls with
        | (Ok (Return r), calls') => Some (Ok r, calls', S attempts)
        | (Ok (Continue retry_count' chunk'), calls') =>
            backtrack_loop fuel' retry_count' chunk' calls' (S attempts)
        | (Raise e, calls') => Some (Raise e, calls', S attempts)
        end
    end
  else Some (Ok (failed_after retry_count), calls, attempts).

Definition process_chunk_with_backtrack_fuel (fuel : nat)
    (chunk_data : ProcessingChunk) (calls : nat) : option run :=
  backtrack_loop fuel 0 chunk_data calls 0.

End Backtrack.

End Processor.

(** *** Incremental result combiner *)

Definition part_I : string := "Part I: Business and Risk Factors".
Definition part_II : string := "Part II: Financial Information".
Definition part_III : string := "Part III: Governance".
Definition part_IV : string := "Part IV: Exhibits and Schedules".

(** [self.section_to_category] *)
Definition section_to_category : list (string * string) :=
  [ ("Item 1", part_I); ("Item 1A", part_I); ("Item 1B", part_I);
    ("Item 2", part_I); ("Item 3", part_I); ("Item 4", part_I);
    ("Item 5", part_II); ("Item 6", part_II); ("Item 7", part_II);
    ("Item 7A", part_II); ("Item 8", part_II); ("Item 9", part_II);
    ("Item 9A", part_II); ("Item 9B", part_II); ("Item 9C", part_II);
    ("Item 10", part_III); ("Item 11", part_III); ("Item 12", part_III);
    ("Item 13", part_III); ("Item 14", part_III);
    ("Item 15", part_IV); ("Item 16", part_IV) ].

Fixpoint table_get (k : string) (t : list (string * string)) : option string :=
  match t with
  | [] => None
  | (k', v) :: r => if String.eqb k k' then Some v else table_get k r
  end.

(** A letter of the pattern under [re.IGNORECASE]: [lower] or its capital. *)
Definition is_letter (lower : nat) (c : ascii) : bool :=
  (nat_of_ascii c =? lower) || (nat_of_ascii c =? lower - 32).

(** [[A-C]] under [re.IGNORECASE] *)
Definition is_A_to_C (c : ascii) : bool :=
  let n := nat_of_ascii c in
  ((65 <=? n) && (n <=? 67)) || ((97 <=? n) && (n <=? 99)).

Fixpoint take_digits (s : string) : string :=
  match s with
  | EmptyString => EmptyString
  | String c r => if is_digit c then String c (take_digits r) else EmptyString
  end.

(** The pattern [Item\s+(\d+[A-C]?)] at the start of [s]; the value is
    group 1. *)
Definition match_item_here (s : string) : option string :=
  match s with
  | String i (String t (String e (String m (String w rest)))) =>
      if is_letter 105 i && is_letter 116 t && is_letter 101 e
         && is_letter 109 m && is_space w then
        let after_spaces := lstrip rest in
        let digits := take_digits after_spaces in
        if String.eqb digits "" then None
        else
          match drop (len digits) after_spaces with
          | String l _ =>
              if is_A_to_C l then Some (digits ++ String l EmptyString)%string
              else Some digits
          | EmptyString => Some digits
          end
      else None
  | _ => None
  end.

(** [re.search]: the leftmost match. *)
Fixpoint search_item (s : string) : option string :=
  match match_item_here s with
  | Some g => Some g
  | None =>
      match s with
      | EmptyString => None
      | String _ r => search_item r
      end
  end.

Definition determine_section_category (section_name : string) : string :=
  match search_item section_name with
  | Some g =>
      let item_key := ("Item " ++ g)%string in
      match table_get item_key section_to_category with
      | Some category => category
      | None => part_I
      end
  | None => part_I
  end.

(** What [process_with_gemini] puts into [all_results]: the parsed answer
    of a successful chunk, or the dict [failed_chunk_info]. *)
Record FailedChunkInfo : Type := mkFailedInfo {
  f_chunk_id : string;
  f_error : option string;
  f_sections : list SectionInfo;
  f_raw_response : string
}.

Inductive ResultEntry : Type :=
| ModelResult (j : pyval)
| FailedChunk (info : FailedChunkInfo).

(** An entry of [failed_chunks]. *)
Record FailedRecord : Type := mkFailedRecord {
  fr_chunk_id : pyval;
  fr_error : pyval;
  fr_sections_attempted : list pyval
}.

Record ProcessingMetadata : Type := mkMetadata {
  processing_method : string;
  chunks_processed : nat;
  timestamp : string;
  failed_chunks : list FailedRecord;
  total_sections_extracted : nat;
  sections_by_category : list (string * nat)
}.

(** [final_json]: one company key, one year key, and under them the form,
    the categories and the metadata. *)
Record StructuredFiling : Type := mkFiling {
  company_key : string;
  year_key : string;
  FORM : string;
  CATEGORIES : list (string * dict);
  PROCESSING_METADATA : ProcessingMetadata
}.

Definition initial_categories : list (string * dict) :=
  [ (part_I, []); (part_II, []); (part_III, []); (part_IV, []) ].

Fixpoint category_get (category : string) (categories : list (string * dict))
    : option dict :=
  match categories with
  | [] => None
  | (c, d) :: r => if String.eqb category c then Some d else category_get category r
  end.

(** [categories[category][section_name] = section_data] *)
Fixpoint category_put (category section_name : string) (section_data : pyval)
    (categories : list (string * dict)) : result (list (string * dict)) :=
  match categories with
  | [] => Raise (key_error category)
  | (c, d) :: r =>
      if String.eqb category c then Ok ((c, dict_set section_name section_data d) :: r)
      else do r' <- category_put category section_name section_data r;
           Ok ((c, d) :: r')
  end.

(** [for x in v] on a value: the elements it yields. *)
Definition py_iter (v : pyval) : result (list pyval) :=
  match v with
  | PList l => Ok l
  | PDict d => Ok (map (fun kv => PStr (fst kv)) d)
  | PStr s =>
      Ok (map (fun c => PStr (String c EmptyString)) (list_ascii_of_string s))
  | _ => Raise (mkExn TypeError ("'" ++ py_type_name v ++ "' object is not iterable"))
  end.

(** [s.get('item_number', s.get('title', 'Unknown'))]: the default is
    evaluated first. *)
Definition attempted_of (s : pyval) : result pyval :=
  do default <- py_get s "title" (PStr "Unknown");
  py_get s "item_number" default.

Fixpoint map_result {A B : Type} (f : A -> result B) (l : list A) : result (list B) :=
  match l with
  | [] => Ok []
  | x :: r => do y <- f x; do ys <- map_result f r; Ok (y :: ys)
  end.

Definition option_str_to_py (o : option string) : pyval :=
  match o with Some s => PStr s | None => PNone end.

(** The loop over [sections_data.items()]. *)
Fixpoint put_sections (items : list (string * pyval))
    (categories : list (string * dict)) : result (list (string * dict)) :=
  match items with
  | [] => Ok categories
  | (section_name, section_data) :: rest =>
      let category := determine_section_category section_name in
      do categories' <- category_put category section_name section_data categories;
      put_sections rest categories'
  end.

(** One turn of [for chunk_result in chunk_results]. *)
Definition combine_step (st : list (string * dict) * list FailedRecord)
    (chunk_result : ResultEntry)
    : result (list (string * dict) * list FailedRecord) :=
  let (categories, failed) := st in
  match chunk_result with
  | FailedChunk info =>
      Ok (categories,
          failed ++ [mkFailedRecord (PStr (f_chunk_id info))
                       (option_str_to_py (f_error info))
                       (map (fun s => option_str_to_py (s_item_number s))
                            (f_sections info))])
  | ModelResult j =>
      do has_error <- py_contains "error" j;
      if has_error then
        do id <- py_get j "chunk_id" PNone;
        do err <- py_get j "error" PNone;
        do secs <- py_get j "sections" (PList []);
        do elems <- py_iter secs;
        do attempted <- map_result attempted_of elems;
        Ok (categories, failed ++ [mkFailedRecord id err attempted])
      else
        do sections_data <- py_get j "sections" (PDict []);
        do items <- py_items sections_data;
        do categories' <- put_sections items categories;
        Ok (categories', failed)
  end.

Fixpoint combine_loop (st : list (string * dict) * list FailedRecord)
    (chunk_results : list ResultEntry)
    : result (list (string * dict) * list FailedRecord) :=
  match chunk_results with
  | [] => Ok st
  | chunk_result :: rest =>
      do st' <- combine_step st chunk_result;
      combine_loop st' rest
  end.

(** [now] is what [datetime.now().isoformat()] gives when the combiner
    runs. *)
Definition combine_incremental_results (now : string)
    (chunk_results : list ResultEntry) (company_name year : option string)
    : result StructuredFiling :=
  do st <- combine_loop (initial_categories, []) chunk_results;
  let (categories, failed) := st in
  let counts := map (fun cd => List.length (dict_keys (snd cd))) categories in
  let total_sections := fold_right Nat.add 0 counts in
  Ok (mkFiling (str_or company_name "COMPANY_NAME") (str_or year "YEAR") "10-K"
        categories
        (mkMetadata "incremental_with_backtracking" (List.length chunk_results) now
           failed total_sections
           (map (fun cd => (fst cd, List.length (dict_keys (snd cd)))) categories))).

(** *** The chunk queue of [process_with_gemini] *)

(** What [process_with_gemini] returns: the combined filing, which
    [json.dumps] then prints, or the raw text of the full-document
    fallback. *)
Inductive Output : Type :=
| JsonResponse (final_json : StructuredFiling)
| RawResponse (text : string).

Record queue_state : Type := mkQueue {
  all_results : list ResultEntry;
  completed_sections : list pyval;
  chunk_queue : list ProcessingChunk;
  chunk_num : Z;
  calls : nat
}.

(** [l.extend(v)] *)
Definition py_extend (l : list pyval) (v : pyval) : result (list pyval) :=
  do xs <- py_iter v; Ok (l ++ xs).

(** The default [max_retries=3] of [process_chunk_with_backtrack]. *)
Definition default_max_retries : Z := 3.

Section Pipeline.

Variable py_str : pyval -> string.
Variable strategy_matches : string -> list Boundary.
Variable str_upper : string -> string.

(** [extract_company_info], a pair of strings found by pattern
    matching on the head of the document. *)
Variable extract_company_info : string -> string * string.

Variable self : TenKProcessor.
Variable model : Model.

(** The reading of the clock when the combiner runs. *)
Variable now : string.

Definition process_chunk_with_backtrack
    (chunk_data : ProcessingChunk) (company_name year : option string)
    (is_first_chunk : bool) (previous_sections : list pyval) (max_retries : Z)
    (calls : nat) : option run :=
  process_chunk_with_backtrack_fuel py_str self model company_name year
    is_first_chunk previous_sections max_retries (Z.to_nat max_retries)
    chunk_data calls.

(** One turn of [while chunk_queue], on a queue that has a first chunk.
    The number is the count of model calls made so far. *)
Definition queue_step (company_name year : string) (st : queue_state)
    (current_chunk : ProcessingChunk) (rest : list ProcessingChunk)
    : option (result queue_state * nat) :=
  let chunk_num := (chunk_num st + 1)%Z in
  match process_chunk_with_backtrack current_chunk (Some company_name)
          (Some year) (chunk_num =? 1)%Z (completed_sections st)
          default_max_retries (calls st) with
  | None => None
  | Some (Raise e, calls', _) => Some (Raise e, calls')
  | Some (Ok result_, calls', _) =>
      Some
        (if r_success result_ then
           do j <- require "result" (r_result result_);
           do completed <-
             py_extend (completed_sections st)
               (match r_completed_sections result_ with
                | Some v => v
                | None => PList []
                end);
           let queue :=
             match r_partial result_, r_remaining_chunk result_ with
             | Some true, Some remaining => remaining :: rest
             | _, _ => rest
             end in
           Ok (mkQueue (all_results st ++ [ModelResult j]) completed queue
                       chunk_num calls')
         else
           Ok (mkQueue
                 (all_results st
                  ++ [FailedChunk
                        (mkFailedInfo
                           ("FAILED_" ++ str_of_id (chunk_id current_chunk))
                           (r_error result_) (sections current_chunk)
                           (match r_raw_response result_ with
                            | Some t => t
                            | None => ""
                            end))])
                 (completed_sections st) rest chunk_num calls'),
         calls')
  end.

(** [while chunk_queue]; [None] is a loop still running when the fuel is
    spent. *)
Fixpoint queue_loop (fuel : nat) (company_name year : string)
    (st : queue_state) : option (result queue_state * nat) :=
  match chunk_queue st with
  | [] => Some (Ok st, calls st)
  | current_chunk :: rest =>
      match fuel with
      | O => None
      | S fuel' =>
          match queue_step company_name year st current_chunk rest with
          | None => None
          | Some (Ok st', _) => queue_loop fuel' company_name year st'
          | Some (Raise e, calls') => Some (Raise e, calls')
          end
      end
  end.

(** [process_full_document]: one call of the model on the system prompt
    followed by the document. *)
Definition process_full_document (document_content : string) (calls : nat)
    : result string :=
  match model calls with
  | ModelRaises e =>
      Raise (mkExn PlainException ("Error processing with Gemini: " ++ exn_msg e))
  | ModelText text _ =>
      if negb (String.eqb text "") then Ok text
      else Raise (mkExn PlainException
                    "Error processing with Gemini: Empty response received from Gemini")
  end.

(** The body of the [try] of [process_with_gemini]. *)
Definition incremental_processing (fuel : nat) (document_content : string)
    : option (result Output * nat) :=
  let (company_name, year) := extract_company_info document_content in
  match extract_sections_dynamic strategy_matches str_upper self
                                 document_content with
  | Raise e => Some (Raise e, 0)
  | Ok processing_chunks =>
      match processing_chunks with
      | [] =>
          Some (do text <- process_full_document document_content 0;
                Ok (RawResponse text), 1)
      | _ :: _ =>
          match queue_loop fuel company_name year
                  (mkQueue [] [] processing_chunks 0 0) with
          | None => None
          | Some (Raise e, calls') => Some (Raise e, calls')
          | Some (Ok st, calls') =>
              Some (do final_json <-
                      combine_incremental_results now (all_results st)
                        (Some company_name) (Some year);
                    Ok (JsonResponse final_json), calls')
          end
      end
  end.

(** [process_with_gemini]: any exception of the incremental processing
    sends the whole document to [process_full_document], whose own
    exception is the caller's. *)
Definition process_with_gemini (fuel : nat) (document_content : string)
    : option (result Output) :=
  match incremental_processing fuel document_content with
  | None => None
  | Some (Ok out, _) => Some (Ok out)
  | Some (Raise _, calls') =>
      Some (do text <- process_full_document document_content calls';
            Ok (RawResponse text))
  end.

End Pipeline.


(** ** Statements of the transformer's behaviour in the words of its
    description *)

(** [enumerate(l)], counting from [idx]. *)
Fixpoint enumerate_from (idx : nat) (l : list pyval) : list (nat * pyval) :=
  match l with
  | [] => []
  | x :: r => (idx, x) :: enumerate_from (S idx) r
  end.

(** A dict element with its index: [section_id] is added when missing. *)
Definition with_section_id (p : nat * pyval) : pyval :=
  match snd p with
  | PDict d =>
      if dict_has "section_id" d then snd p
      else PDict (d ++ [("section_id", PStr ("section_" ++ str_of_nat (fst p)))])
  | v => v
  end.

(** The list case said in one line: keep the dict elements, each with the
    index it had in the input, and give an id to the ones without. *)
Definition dict_elements_with_ids (l : list pyval) : list pyval :=
  map with_section_id
      (filter (fun p => isinstance_dict (snd p)) (enumerate_from 0 l)).

Definition count_dicts (l : list pyval) : nat :=
  List.length (filter isinstance_dict l).

(** ** Notions used to state the combiner's behaviour *)

Definition four_categories : list string := [part_I; part_II; part_III; part_IV].

(** The section stored under [name] in [category], if any. *)
Definition lookup_section (categories : list (string * dict))
    (category name : string) : option pyval :=
  match category_get category categories with
  | Some d => dict_get name d
  | None => None
  end.

(** The sections a result contributes: the items of its [sections] dict
    when it has no [error] key. *)
Definition updates_of_entry (e : ResultEntry) : list (string * pyval) :=
  match e with
  | ModelResult (PDict d) =>
      if dict_has "error" d then []
      else match dict_get "sections" d with
           | Some (PDict s) => s
           | _ => []
           end
  | _ => []
  end.

Definition updates_of (chunk_results : list ResultEntry) : list (string * pyval) :=
  flat_map updates_of_entry chunk_results.

(** The value the last item named [name] carries. *)
Fixpoint last_binding (name : string) (items : list (string * pyval))
    : option pyval :=
  match items with
  | [] => None
  | (k, v) :: r =>
      match last_binding name r with
      | Some v' => Some v'
      | None => if String.eqb name k then Some v else None
      end
  end.

(** No two results give different contents to one section name. *)
Definition distinct_section_keys (chunk_results : list ResultEntry) : Prop :=
  forall name v v',
    In (name, v) (updates_of chunk_results) ->
    In (name, v') (updates_of chunk_results) -> v = v'.

(** The entry is one the combiner's loop accepts. *)
Definition entry_accepted (e : ResultEntry) : bool :=
  is_ok (combine_step (initial_categories, []) e).

(** The shape of the categories: the names and, for each, the section
    names in insertion order. *)
Definition shape (categories : list (string * dict)) : list (string * list string) :=
  map (fun cd => (fst cd, map fst (snd cd))) categories.

Definition sections_unique (categories : list (string * dict)) : Prop :=
  Forall (fun cd => NoDup (map fst (snd cd))) categories.

(** ** Sample results for the combiner *)

Definition sample_answer (name text : string) : ResultEntry :=
  ModelResult
    (PDict [ ("chunk_id", PInt 1);
             ("processing_status", PStr "completed");
             ("sections", PDict [ (name, PDict [("content", PStr text)]) ]) ]).

Definition risk_answer : ResultEntry :=
  sample_answer "Item 1A. Risk Factors" "risks".

Definition business_answer : ResultEntry :=
  sample_answer "Item 7. Management's Discussion" "discussion".

Definition sample_failure : ResultEntry :=
  FailedChunk (mkFailedInfo "FAILED_2" (Some "Failed after 3 attempts")
                 [mkSection (Some "2") "Properties" (Some 40%Z) (Some 90%Z)
                            (Some 12%Z) (Some (7 # 10))]
                 "").

(** ** Notions used to state the detector's behaviour *)

(** The boundary carries the item number [k]. *)
Definition has_item (k : string) (b : Boundary) : bool :=
  option_string_eqb (b_item_number b) (Some k).

(** The key under which the loop records a boundary in [seen_items]. *)
Definition key_of (str_upper : string -> string) (b : Boundary) : string :=
  if item_number_truthy (b_item_number b)
  then match b_item_number b with Some k => k | None => "" end
  else str_upper (strip (b_title b)).

(** Positions go up by at least 200 from a boundary to any later one. *)
Definition spaced (l : list Boundary) : Prop :=
  StronglySorted (fun a b => (b_position a + 200 <= b_position b)%Z) l.

Definition by_position (a b : Boundary) : Prop :=
  (b_position a <= b_position b)%Z.

(** What the loop over the sorted candidates keeps true: [pre] is the list
    of the candidates already seen, in order. *)
Record filter_inv (str_upper : string -> string) (pre : list Boundary)
    (st : filter_state) : Prop := mkFilterInv {
  inv_seen : forall k s,
    seen_get k (seen_items st) = Some s ->
    In s (filtered_boundaries st) /\ key_of str_upper s = k /\ In s pre;
  inv_filtered : forall b, In b (filtered_boundaries st) -> In b pre;
  inv_one : forall k, k <> "" ->
    filter (has_item k) (filtered_boundaries st)
    = match seen_get k (seen_items st) with
      | Some s => if has_item k s then [s] else []
      | None => []
      end;
  inv_best : forall k b', k <> "" -> In b' pre -> has_item k b' = true ->
    exists s, seen_get k (seen_items st) = Some s
              /\ (b_confidence b' <= b_confidence s)%Q
              /\ ((b_confidence b' < b_confidence s)%Q
                  \/ (b_position s <= b_position b')%Z)
}.

(** ** A short filing and what the strategies find in it *)

(** [str.upper] on texts of ASCII characters, for the examples. *)
Definition ascii_upper_char (c : ascii) : ascii :=
  let n := nat_of_ascii c in
  if (97 <=? n) && (n <=? 122) then ascii_of_nat (n - 32) else c.

Fixpoint ascii_upper (s : string) : string :=
  match s with
  | EmptyString => EmptyString
  | String c r => String (ascii_upper_char c) (ascii_upper r)
  end.

Definition short_filing : string :=
  ("Item 1. Business" ++ newline ++ "We make things." ++ newline
   ++ "Item 1A. Risk Factors" ++ newline ++ "Risks abound." ++ newline)%string.

Definition short_item_1 (strategy_name : string) (confidence : Q) : Boundary :=
  mkBoundary strategy_name confidence 0 17 (Some "1") "Business"
    ("Item 1. Business" ++ newline)%string ""
    ("We make things." ++ newline ++ "Item 1A. Risk Factors" ++ newline
     ++ "Risks abound." ++ newline)%string.

Definition short_item_1A (strategy_name : string) (confidence : Q) : Boundary :=
  mkBoundary strategy_name confidence 32 55 (Some "1A") "Risk Factors"
    (newline ++ "Item 1A. Risk Factors" ++ newline)%string
    ("Item 1. Business" ++ newline ++ "We make things.")%string
    ("Risks abound." ++ newline)%string.

(** The matches of the five patterns on [short_filing], in the order of
    the strategy table: the header lines are found by [bold_headers] and
    by [standard_headers], which differ by letter case only and are run
    with [re.IGNORECASE]. *)
Definition short_filing_matches : list Boundary :=
  [ short_item_1 "bold_headers" (8 # 10);
    short_item_1A "bold_headers" (8 # 10);
    short_item_1 "standard_headers" (7 # 10);
    short_item_1A "standard_headers" (7 # 10) ].

(** ** Notions used to state the planner's behaviour *)

(** The text of a planned chunk, as [extract_sections_dynamic] cuts it. *)
Definition chunk_text (document_content : string) (chunk : PlanChunk) : string :=
  py_slice (p_start_pos chunk) (p_end_pos chunk) document_content.

(** [''.join(texts)] *)
Definition concat_texts (texts : list string) : string :=
  fold_right String.append "" texts.

(** Each chunk ends where the next one starts, and the last ends at [to]. *)
Fixpoint contiguous (chunks : list PlanChunk) (to : Z) : Prop :=
  match chunks with
  | [] => True
  | c :: rest =>
      (p_start_pos c <= p_end_pos c)%Z
      /\ match rest with
         | [] => p_end_pos c = to
         | c' :: _ => p_end_pos c = p_start_pos c'
         end
      /\ contiguous rest to
  end.

(** The position of the next boundary, or the end of the document. *)
Definition next_pos (document_content : string) (rest : list Boundary) : Z :=
  match rest with
  | next :: _ => b_position next
  | [] => Z.of_nat (len document_content)
  end.

(** The boundaries lie in the document, in order. *)
Definition boundaries_in_order (document_content : string)
    (boundaries : list Boundary) : Prop :=
  StronglySorted by_position boundaries
  /\ Forall (fun b => (0 <= b_position b <= Z.of_nat (len document_content))%Z)
            boundaries.

(** What the planner's loop keeps true; [p0] is the position of the first
    boundary and [p] the position of the next one to handle. *)
Record plan_inv (p0 p : Z) (chunks : list PlanChunk) (current_chunk : PlanChunk)
    : Prop := mkPlanInv {
  pi_chain : contiguous chunks (p_start_pos current_chunk);
  pi_first :
    match chunks, p_sections current_chunk with
    | c :: _, _ => p_start_pos c = 0%Z \/ p_start_pos c = p0
    | [], [] => p_start_pos current_chunk = 0%Z /\ p = p0
    | [], _ :: _ => p_start_pos current_chunk = 0%Z \/ p_start_pos current_chunk = p0
    end;
  pi_pending : p_sections current_chunk <> [] -> (p_start_pos current_chunk <= p)%Z;
  pi_idle : p_sections current_chunk = [] -> chunks <> [] ->
            p_start_pos current_chunk = p;
  pi_range : (0 <= p0 <= p)%Z
}.

(** The start of the first chunk of a plan. *)
Definition plan_start (chunks : list PlanChunk) : Z :=
  match chunks with
  | c :: _ => p_start_pos c
  | [] => 0%Z
  end.

(** The first section goes into the chunk opened at position 0: it is not
    a large section and alone it exceeds neither budget. *)
Definition first_section_fits (self : TenKProcessor) (document_content : string)
    (boundaries : list Boundary) (max_input_tokens max_output_tokens : Z) : bool :=
  match boundaries with
  | [] => false
  | boundary :: rest =>
      let available_tokens := available_tokens_of self max_input_tokens in
      let section_tokens :=
        estimate_token_count
          (py_slice (b_position boundary) (next_pos document_content rest)
                    document_content) in
      negb (is_large_section section_tokens available_tokens)
      && negb ((0 + section_tokens >? available_tokens)%Z
               || float_gt_int (fadd float_zero (estimate_output section_tokens))
                               max_output_tokens)
  end.

(** ** A processor and a long filing *)

(** [n] times the letter x. *)
Fixpoint filler (n : nat) : string :=
  match n with
  | O => EmptyString
  | S n' => String "x"%char (filler n')
  end.

(** The processor [TenKProcessor()] builds: [max_tokens_per_chunk] is
    800000; the system prompt has 7724 characters, of which the chunking
    core reads the number only, so a text of that length stands for it. *)
Definition default_processor : TenKProcessor :=
  mkProcessor 800000 (filler (Z.to_nat 7724)).

(** A filing with a line before its only header and a long section after
    it: 320010 characters of body. *)
Definition long_filing : string :=
  ("ACME CORP" ++ newline ++ "Item 8. Financial Statements" ++ newline
   ++ filler (Z.to_nat 320010))%string.

(** What [bold_headers] and [standard_headers] find in it. *)
Definition long_item_8 (strategy_name : string) (confidence : Q) : Boundary :=
  mkBoundary strategy_name confidence 9 39 (Some "8") "Financial Statements"
    (newline ++ "Item 8. Financial Statements" ++ newline)%string
    "ACME CORP" (filler 100).

Definition long_filing_matches : list Boundary :=
  [ long_item_8 "bold_headers" (8 # 10);
    long_item_8 "standard_headers" (7 # 10) ].

(** The chunk is one the planner made for a large section alone. *)
Definition dedicated_large (available_tokens : Z) (c : PlanChunk) : Prop :=
  exists s t,
    p_sections c = [s] /\ s_estimated_tokens s = Some t
    /\ p_estimated_input_tokens c = t
    /\ is_large_section t available_tokens = true.

(** The threshold [available_tokens * 0.8], as binary64 computes it, is a
    number and is not above [available_tokens]. *)
Definition threshold_within (available_tokens : Z) : bool :=
  match float_cmp_int (fmul (float_of_int available_tokens) float_0_8)
                      available_tokens with
  | Some Lt | Some Eq => true
  | _ => false
  end.

(** What the planner promises of a chunk that is not a dedicated one. *)
Definition within_budget (available_tokens max_output_tokens : Z) (c : PlanChunk)
    : Prop :=
  (p_estimated_input_tokens c <= available_tokens)%Z
  /\ (2 <= List.length (p_sections c) ->
      float_gt_int (p_estimated_output_tokens c) max_output_tokens = false).

Definition chunk_ok (available_tokens max_output_tokens : Z) (c : PlanChunk) : Prop :=
  dedicated_large available_tokens c
  \/ within_budget available_tokens max_output_tokens c.

(** ** Notions used to state the processor's behaviour *)

(** A section dict with the keys [position] and [end_position]. *)
Definition section_has_span (s : SectionInfo) : Prop :=
  s_position s <> None /\ s_end_position s <> None.

(** A chunk with the keys the planner writes: at least one section, each
    with its span, and [start_pos] and [estimated_input_tokens]. *)
Definition planned_chunk (c : ProcessingChunk) : Prop :=
  sections c <> []
  /\ Forall section_has_span (sections c)
  /\ start_pos c <> None
  /\ estimated_input_tokens c <> None.

(** [str(v)] on the values the examples send, which are strings. *)
Definition str_of_string_value (v : pyval) : string :=
  match v with
  | PStr s => s
  | _ => ""
  end.

(** A model whose every call raises. *)
Definition model_always_throws : Model :=
  fun _ => ModelRaises (mkExn PlainException "503 Service Unavailable").

(** What a result that carries a remaining chunk witnesses: it is a
    success marked partial, it came from an answer of the model to a prompt
    that passed the token check, and the completed sections it reports are
    a non-empty collection. *)
Definition requeue_evidence (py_str : pyval -> string) (self : TenKProcessor)
    (company_name year : option string) (is_first_chunk : bool)
    (previous_sections : list pyval) (r : ChunkResult) : Prop :=
  r_success r = true /\ r_partial r = Some true
  /\ (exists c prompt,
        create_chunk_prompt py_str c company_name year is_first_chunk
                            previous_sections = Ok prompt
        /\ (estimate_token_count prompt <= max_tokens_per_chunk self)%Z)
  /\ (exists v x xs, r_completed_sections r = Some v /\ py_iter v = Ok (x :: xs)).

(** The shape of every dict the processor returns. *)
Definition sound_result (py_str : pyval -> string) (self : TenKProcessor)
    (company_name year : option string) (is_first_chunk : bool)
    (previous_sections : list pyval) (r : ChunkResult) : Prop :=
  (r_success r = false ->
   r_error r <> None /\ r_remaining_chunk r = None /\ r_partial r = None)
  /\ (r_success r = true -> r_result r <> None /\ r_error r = None)
  /\ (r_partial r = Some true <-> r_remaining_chunk r <> None)
  /\ (r_remaining_chunk r <> None ->
      requeue_evidence py_str self company_name year is_first_chunk
                       previous_sections r).


(** ** The chunk of the short filing and two partial answers to it *)

(** The one chunk planned for the short filing: items 1 and 1A. *)
Definition short_chunk : ProcessingChunk :=
  nth 0 (chunks_of_boundaries default_processor short_filing
           [short_item_1 "bold_headers" (8 # 10);
            short_item_1A "bold_headers" (8 # 10)])
        (whole_document_chunk "").

(** The answer of the scenario: status [partial_item_2], one section
    reported completed under the name [completed_name]. *)
Definition partial_answer (completed_name : string) : pyval :=
  PDict
    [ ("chunk_id", PInt 1);
      ("company", PStr "ACME");
      ("year", PStr "2024");
      ("processing_status", PStr "partial_item_2");
      ("sections",
       PDict [ ("Item 1. Business",
                PDict [("content", PStr "We make things.")]) ]);
      ("chunk_metadata",
       PDict [ ("sections_attempted",
                PList [PStr "Item 1. Business"; PStr "Item 1A. Risk Factors"]);
               ("sections_completed", PList [PStr completed_name]);
               ("next_expected_item", PStr "Item 1A") ]) ].

(** A model that gives this answer to every call; the text stands for the
    JSON document that parses to it. *)
Definition model_partial (completed_name : string) : Model :=
  fun _ => ModelText ("{" ++ dq ++ "processing_status" ++ dq ++ ": "
                      ++ dq ++ "partial_item_2" ++ dq ++ ", ...}")%string
                     (Some (partial_answer completed_name)).

(** ** Notions used to state the queue's behaviour *)

(** The greatest number of completed sections with which a prompt that
    lists them can pass the token check: each takes five characters of the
    prompt at least. *)
Definition requeue_bound (self : TenKProcessor) : nat :=
  Z.to_nat ((4 * max_tokens_per_chunk self + 4) / 5).

(** A number of turns within which the queue is empty or left. *)
Definition queue_measure (self : TenKProcessor) (st : queue_state) : nat :=
  List.length (chunk_queue st) * (requeue_bound self + 2)
  + (requeue_bound self + 1 - List.length (completed_sections st)).

(** The record the combiner makes of a failed chunk. *)
Definition failed_record_of (info : FailedChunkInfo) : FailedRecord :=
  mkFailedRecord (PStr (f_chunk_id info)) (option_str_to_py (f_error info))
    (map (fun s => option_str_to_py (s_item_number s)) (f_sections info)).

Definition is_failed_chunk (e : ResultEntry) : bool :=
  match e with FailedChunk _ => true | ModelResult _ => false end.

(** An answer whose [sections_completed] is JSON [null], then an outage. *)
Definition null_completed_answer : pyval :=
  PDict [ ("processing_status", PStr "completed");
          ("sections", PDict []);
          ("chunk_metadata", PDict [("sections_completed", PNone)]) ].

Definition model_null_then_down : Model :=
  fun n =>
    match n with
    | O => ModelText ("{" ++ dq ++ "processing_status" ++ dq ++ ": "
                      ++ dq ++ "completed" ++ dq ++ ", ...}")%string
                     (Some null_completed_answer)
    | S _ => ModelRaises (mkExn PlainException "503 Service Unavailable")
    end.

(** A second chunk, to stand in the queue behind [short_chunk]. *)
Definition later_chunk : ProcessingChunk :=
  with_sections_and_id short_chunk (sections short_chunk) (IdInt 2).


(** What holds of the queue's variables at the head of every turn. *)
Definition queue_inv (st : queue_state) : Prop :=
  (0 <= chunk_num st)%Z
  /\ (chunk_num st = 0%Z -> completed_sections st = []).

(** A number of turns that suffices for a document. *)
Definition turns_bound (strategy_matches : string -> list Boundary)
    (str_upper : string -> string) (self : TenKProcessor)
    (document_content : string) : nat :=
  match extract_sections_dynamic strategy_matches str_upper self
                                 document_content with
  | Ok processing_chunks =>
      queue_measure self (mkQueue [] [] processing_chunks 0 0)
  | Raise _ => 0
  end.

(** The results of a run without the dicts of its failed chunks. *)
Definition without_failed (chunk_results : list ResultEntry) : list ResultEntry :=
  filter (fun e => negb (is_failed_chunk e)) chunk_results.


(** ** A filing for the queue: the short filing, its company and year *)

Definition acme_info : string -> string * string :=
  fun _ => ("ACME", "2024").

(** The queue of the short filing with a later chunk behind it. *)
Definition two_chunk_queue : queue_state :=
  mkQueue [] [] [short_chunk; later_chunk] 0 0.

(** The one chunk the pipeline makes of the short filing. *)
Definition detected_chunk : ProcessingChunk :=
  match extract_sections_dynamic (fun _ => short_filing_matches) ascii_upper
          default_processor short_filing with
  | Ok (c :: _) => c
  | _ => whole_document_chunk short_filing
  end.

(** The dict [failed_chunk_info] made for it when every call of the model
    raises. *)
Definition short_chunk_failure : FailedChunkInfo :=
  mkFailedInfo "FAILED_1" (Some "503 Service Unavailable")
               (sections detected_chunk) "".


(** ** Notions used to state what the planner keeps *)

(** The section dict the planner writes for a boundary followed by the
    boundaries [rest]. *)
Definition planned_section (document_content : string) (available_tokens : Z)
    (boundary : Boundary) (rest : list Boundary) : SectionInfo :=
  let next_boundary_pos := next_pos document_content rest in
  let section_tokens :=
    estimate_token_count
      (py_slice (b_position boundary) next_boundary_pos document_content) in
  section_of_boundary boundary
    (if is_large_section section_tokens available_tokens
     then (b_title boundary ++ " [LARGE SECTION]")%string
     else b_title boundary)
    next_boundary_pos section_tokens.

Fixpoint planned_sections (document_content : string) (available_tokens : Z)
    (boundaries : list Boundary) : list SectionInfo :=
  match boundaries with
  | [] => []
  | boundary :: rest =>
      planned_section document_content available_tokens boundary rest
      :: planned_sections document_content available_tokens rest
  end.

(** The sections of a plan, chunk after chunk. *)
Definition plan_sections (chunks : list PlanChunk) : list SectionInfo :=
  List.concat (map p_sections chunks).

(** [sum(s['estimated_tokens'] for s in sections)] *)
Fixpoint sum_tokens (secs : list SectionInfo) : Z :=
  match secs with
  | [] => 0
  | s :: rest =>
      (match s_estimated_tokens s with Some t => t | None => 0 end
       + sum_tokens rest)%Z
  end.

(** The ids [1], ..., [n] counted from [i + 1]. *)
Fixpoint ids_from (i : Z) (n : nat) : list ChunkId :=
  match n with
  | O => []
  | S n' => IdInt (i + 1) :: ids_from (i + 1) n'
  end.


(** What a chunk of the plan is like: it has a section, and its estimated
    input is the sum of the estimates of its sections. *)
Definition chunk_shape (c : PlanChunk) : Prop :=
  p_sections c <> []
  /\ p_estimated_input_tokens c = sum_tokens (p_sections c).


(** *** [test_section_detection] *)

(** The dicts of [create_processing_chunks] have the keys [start_pos],
    [end_pos], [sections], [estimated_input_tokens] and
    [estimated_output_tokens]; [chunk_id] and [content], which
    [extract_sections_dynamic] adds to its own dicts, are absent. *)
Definition plan_chunk_id (chunk : PlanChunk) : option ChunkId := None.
Definition plan_chunk_content (chunk : PlanChunk) : option string := None.

(** The dict [chunk_info]. *)
Record ChunkInfo : Type := mkChunkInfo {
  ci_chunk_id : ChunkId;
  ci_sections : list string;
  ci_estimated_input_tokens : Z;
  ci_estimated_output_tokens : float;
  ci_content_preview : string
}.

(** The dict [test_results]. *)
Record DetectionResults : Type := mkDetection {
  total_boundaries : nat;
  total_chunks : nat;
  dr_boundaries : list Boundary;
  dr_chunks : list ChunkInfo
}.

(** One turn of [for chunk in chunks]; the values of the dict display are
    evaluated in the order written. *)
Definition chunk_info_of (chunk : PlanChunk) : result ChunkInfo :=
  do id <- require "chunk_id" (plan_chunk_id chunk);
  let labels :=
    map item_label
        (filter (fun s => item_number_truthy (s_item_number s))
                (p_sections chunk)) in
  do text <- require "content" (plan_chunk_content chunk);
  let content_preview :=
    if 200 <? len text then (slice 0 200 text ++ "...")%string else text in
  Ok (mkChunkInfo id labels (p_estimated_input_tokens chunk)
                  (p_estimated_output_tokens chunk) content_preview).

Section Detection.

Variable strategy_matches : string -> list Boundary.
Variable str_upper : string -> string.

Definition test_section_detection (self : TenKProcessor)
    (document_content : string) (preview_only : bool)
    : result DetectionResults :=
  do boundaries <-
    detect_section_boundaries strategy_matches str_upper document_content;
  let chunks :=
    create_processing_chunks self document_content boundaries
      default_max_input_tokens default_max_output_tokens in
  do infos <- map_result chunk_info_of chunks;
  do _ <-
    (if negb preview_only then
       match chunks with
       | first :: _ =>
           do text <- require "content" (plan_chunk_content first); Ok tt
       | [] => Ok tt
       end
     else Ok tt);
  Ok (mkDetection (List.length boundaries) (List.length chunks) boundaries infos).

End Detection.


(** ** Notions used to state where a result of the chunk processor comes
    from *)

(** The result carries the parsed answer of the call number [n]. *)
Definition answer_of (model : Model) (r : ChunkResult) (n : nat) : Prop :=
  exists text result_,
    model n = ModelText text (Some result_) /\ text <> ""
    /\ r_success r = true /\ r_result r = Some result_
    /\ r_error r = None /\ r_raw_response r = None.

(** The dict of a failure after an exception or after the last retry. *)
Definition exception_failure (r : ChunkResult) : Prop :=
  exists retry_count message,
    r = mkResult false None None None (Some retry_count) None None
                 (Some message) None.

(** The dict of a failure after a text that is no JSON, at the call
    number [n]. *)
Definition decode_failure (model : Model) (r : ChunkResult) (n : nat) : Prop :=
  exists text retry_count,
    model n = ModelText text None /\ text <> ""
    /\ r = mkResult false None None None None None None
             (Some ("JSON decode error after " ++ str_of_Z (retry_count + 1)
                    ++ " attempts")%string)
             (Some (truncate_raw text)).

(** No call of the model answers with a text. *)
Definition model_is_down (model : Model) : Prop :=
  forall n, exists e, model n = ModelRaises e.


(** An answer with a status the processor does not know. *)
Definition failed_status_answer : pyval :=
  PDict [ ("processing_status", PStr "failed");
          ("sections", PDict []) ].

Definition model_failed_status : Model :=
  fun _ => ModelText ("{" ++ dq ++ "processing_status" ++ dq ++ ": "
                      ++ dq ++ "failed" ++ dq ++ ", ...}")%string
                     (Some failed_status_answer).


(** ** Notions used to state what an outage leaves in the filing *)

(** The dict [failed_chunk_info] of a chunk, but for the message. *)
Definition failure_of (c : ProcessingChunk) (info : FailedChunkInfo) : Prop :=
  f_chunk_id info = ("FAILED_" ++ str_of_id (chunk_id c))%string
  /\ (exists message, f_error info = Some message)
  /\ f_sections info = sections c
  /\ f_raw_response info = "".

(** The record of [failed_chunks] for a chunk, but for the message. *)
Definition failed_record_for (c : ProcessingChunk) (record : FailedRecord)
    : Prop :=
  fr_chunk_id record = PStr ("FAILED_" ++ str_of_id (chunk_id c))
  /\ (exists message, fr_error record = PStr message)
  /\ fr_sections_attempted record
     = map (fun s => option_str_to_py (s_item_number s)) (sections c).

(** A document in which the strategies find nothing. *)
Definition plain_note : string := "No item headers in this text.".


(** ** Notions used to state the counts of the combiner *)

(** The section names stored in the categories, category after category. *)
Definition stored_names (categories : list (string * dict)) : list string :=
  List.concat (map (fun cd => dict_keys (snd cd)) categories).

(** The number of different section names among the sections the results
    contribute. *)
Definition distinct_names (chunk_results : list ResultEntry) : nat :=
  List.length (nodup string_dec (map fst (updates_of chunk_results))).


(** ** Notions used to state the category of a section name *)

Fixpoint all_digits (s : string) : bool :=
  match s with
  | EmptyString => true
  | String c r => is_digit c && all_digits r
  end.

(** What follows an item number in a section name does not go on with it:
    it is empty or starts with a character that is neither a digit nor one
    of the letters A to C. *)
Definition ends_item (rest : string) : bool :=
  match rest with
  | EmptyString => true
  | String c _ => negb (is_digit c) && negb (is_A_to_C c)
  end.


(** ** [transform_document] ([src/filing_parser_pipeline.py]) *)

Definition transform_document (doc : pyval) : result pyval :=
  do items <- py_items doc;
  let top := dict_without "parts" items in
  do raw_parts <- py_get doc "parts" PNone;
  do parts <- Transformer.transform_parts raw_parts;
  Ok (PDict (dict_set "parts" (PList parts) top)).

(** ** Notions used to state what the transformer keeps *)

(** A section object of the output: a dict with a [section_id]. *)
Definition has_section_id (o : pyval) : Prop :=
  exists d, o = PDict d /\ dict_has "section_id" d = true.

(** [d.get(k)] *)
Definition get_or_none (k : string) (d : dict) : pyval :=
  match dict_get k d with Some x => x | None => PNone end.

(** A part object [out] made of the dict [d]: the sections are the
    transformed sections of [d], the part name is [name], and every other
    key is as in [d]. *)
Definition part_of (d : dict) (name : pyval) (out : pyval) : Prop :=
  exists d' sections,
    out = PDict d'
    /\ Transformer.transform_sections (get_or_none "sections" d) = Ok sections
    /\ dict_get "sections" d' = Some (PList sections)
    /\ dict_get "part_name" d' = Some name
    /\ forall k, k <> "sections" -> k <> "part_name" ->
                 dict_get k d' = dict_get k d.

(** What [transform_parts] makes of an element of a list of parts. *)
Definition list_part (part out : pyval) : Prop :=
  match part with
  | PDict d =>
      part_of d (if py_truthy (get_or_none "part_name" d)
                 then get_or_none "part_name" d else PStr "Part") out
  | _ => False
  end.

(** What [transform_parts] makes of an item of a dict of parts. *)
Definition dict_part (kv : string * pyval) (out : pyval) : Prop :=
  match snd kv with
  | PDict d =>
      part_of d (if py_truthy (get_or_none "part_name" d)
                 then get_or_none "part_name" d else PStr (fst kv)) out
  | value =>
      out = PDict [("part_name", PStr (fst kv)); ("value", value);
                   ("sections", PList [])]
  end.

(** A document as [create_json_from_folders] builds it, with one part. *)
Definition sample_parts : dict :=
  [ ("Part_1_PART_I",
     PDict
       [ ("part_name", PStr "Part_1_PART_I");
         ("sections",
          PDict
            [ ("Section_1_Business",
               PDict [ ("file_name", PStr "Section_1_Business.txt");
                       ("content", PStr "We make things.") ]) ]) ]) ].

Definition sample_fields : dict :=
  [ ("company_name", PStr "Apple Inc");
    ("filing_type", PStr "10-K");
    ("parts", PDict sample_parts) ].

Definition sample_document : pyval := PDict sample_fields.


(** ** [sanitize_filename] ([src/filing_parser_pipeline.py]) *)

Definition in_range (a b n : nat) : bool := (a <=? n) && (n <=? b).

(** The characters below 256 that [\w] matches. *)
Definition is_word (c : ascii) : bool :=
  let n := nat_of_ascii c in
  in_range 48 57 n || in_range 65 90 n || (n =? 95) || in_range 97 122 n
  || (n =? 170) || in_range 178 179 n || (n =? 181) || in_range 185 186 n
  || in_range 188 190 n || in_range 192 214 n || in_range 216 246 n
  || in_range 248 255 n.

(** The class of the first substitution: the characters less-than,
    greater-than, colon, double quote, slash, backslash, bar, question mark
    and asterisk. *)
Definition is_forbidden (c : ascii) : bool :=
  existsb (Nat.eqb (nat_of_ascii c)) [60; 62; 58; 34; 47; 92; 124; 63; 42].

(** The characters the class [[^\w\-_.]] leaves. *)
Definition is_safe (c : ascii) : bool :=
  let n := nat_of_ascii c in
  is_word c || (n =? 45) || (n =? 95) || (n =? 46).

(** The characters of [strip('._')]. *)
Definition is_dot_or_underscore (c : ascii) : bool :=
  let n := nat_of_ascii c in (n =? 46) || (n =? 95).

(** [re.sub(r'\s+', '_', s)]; [in_run] tells that the character before
    was a space of the run being replaced. *)
Fixpoint collapse_spaces (in_run : bool) (s : string) : string :=
  match s with
  | EmptyString => EmptyString
  | String c r =>
      if is_space c then
        if in_run then collapse_spaces true r
        else String "_"%char (collapse_spaces true r)
      else String c (collapse_spaces false r)
  end.

Fixpoint lstrip_chars (chars : ascii -> bool) (s : string) : string :=
  match s with
  | EmptyString => EmptyString
  | String c r => if chars c then lstrip_chars chars r else s
  end.

(** [s.strip(chars)] *)
Definition strip_chars (chars : ascii -> bool) (s : string) : string :=
  string_rev (lstrip_chars chars (string_rev (lstrip_chars chars s))).

Definition sanitize_filename (filename : string) : string :=
  let filename := string_filter (fun c => negb (is_forbidden c)) filename in
  let filename := collapse_spaces false filename in
  let filename := string_filter is_safe filename in
  let filename := strip_chars is_dot_or_underscore filename in
  let filename :=
    if 100 <? len filename then py_slice 0 100 filename else filename in
  if negb (String.eqb filename "") then filename else "unnamed".

(** Every character of the text satisfies [p]. *)
Definition all_chars (p : ascii -> bool) (s : string) : bool :=
  forallb p (list_ascii_of_string s).

(** ** Notions used to state what the processor does after shrinking *)


Section Shrinks.

Variable py_str : pyval -> string.
Variable self : TenKProcessor.
Variable model : Model.
Variables (company_name year : option string) (is_first_chunk : bool)
          (previous_sections : list pyval) (max_retries : Z).


End Shrinks.

(** ** A filing of four items, and a model that is down at the first call *)






(** ** The turns of the queue loop *)

(** What one turn of [while chunk_queue] does: the chunk it pops, the
    count of model calls before and after, and what the chunk processor
    gives for the chunk, a dict or an exception. *)
Record Turn : Type := mkTurn {
  t_chunk : ProcessingChunk;
  t_calls : nat;
  t_result : result ChunkResult;
  t_calls_after : nat
}.

Section Turns.

Variable py_str : pyval -> string.
Variable self : TenKProcessor.
Variable model : Model.

(** The turns of a run of the loop, in order: the loop of [queue_loop],
    noting at each turn the chunk and the outcome of the processor. *)
Fixpoint queue_turns (fuel : nat) (company_name year : string)
    (st : queue_state) : list Turn :=
  match chunk_queue st with
  | [] => []
  | current_chunk :: rest =>
      match fuel with
      | O => []
      | S fuel' =>
          match process_chunk_with_backtrack py_str self model current_chunk
                  (Some company_name) (Some year) (chunk_num st + 1 =? 1)%Z
                  (completed_sections st) default_max_retries (calls st) with
          | None => []
          | Some (res, calls', _) =>
              mkTurn current_chunk (calls st) res calls'
              :: match queue_step py_str self model company_name year st
                         current_chunk rest with
                 | Some (Ok st', _) => queue_turns fuel' company_name year st'
                 | _ => []
                 end
          end
      end
  end.

End Turns.

(** What a turn appends to [all_results]: the answer of a success, or the
    dict [failed_chunk_info] of a failure. *)
Definition entries_of_turn (t : Turn) : list ResultEntry :=
  match t_result t with
  | Ok r =>
      if r_success r then
        match r_result r with
        | Some j => [ModelResult j]
        | None => []
        end
      else
        [FailedChunk
           (mkFailedInfo ("FAILED_" ++ str_of_id (chunk_id (t_chunk t)))
              (r_error r) (sections (t_chunk t))
              (match r_raw_response r with
               | Some text => text
               | None => ""
               end))]
  | Raise _ => []
  end.

(** The turns take their chunks from the front of the queue: each turn
    takes the first chunk, and the queue of the next turn is the rest,
    with the remaining chunk of the result in front of it when the result
    carries one; after an exception there is no further turn. *)
Fixpoint front_first (queue : list ProcessingChunk) (turns : list Turn) : Prop :=
  match turns with
  | [] => True
  | t :: later =>
      match queue with
      | [] => False
      | current_chunk :: rest =>
          t_chunk t = current_chunk
          /\ match t_result t with
             | Ok r =>
                 front_first
                   (match r_remaining_chunk r with
                    | Some remaining => remaining :: rest
                    | None => rest
                    end)
                   later
             | Raise _ => later = []
             end
      end
  end.

(** Each of the turns takes the remaining chunk of the turn before it,
    [previous] for the first of them. *)
Fixpoint continuation_run (previous : Turn) (turns : list Turn) : Prop :=
  match turns with
  | [] => True
  | t :: more =>
      (exists r, t_result previous = Ok r
                 /\ r_remaining_chunk r = Some (t_chunk t))
      /\ continuation_run t more
  end.

(** The turns come one after the other: each starts with the count of
    model calls the turn before it ended with. *)
Fixpoint one_at_a_time (calls : nat) (turns : list Turn) : Prop :=
  match turns with
  | [] => True
  | t :: later =>
      t_calls t = calls /\ calls <= t_calls_after t
      /\ one_at_a_time (t_calls_after t) later
  end.

(** ** A queue of two chunks and a model that completes at the second call *)

Definition completed_answer : pyval :=
  PDict
    [ ("chunk_id", PStr "1_continued");
      ("processing_status", PStr "completed");
      ("sections",
       PDict [ ("Item 1A. Risk Factors",
                PDict [("content", PStr "Risks abound.")]) ]);
      ("chunk_metadata",
       PDict [ ("sections_completed", PList [PStr "Item 1A"]);
               ("next_expected_item", PNone) ]) ].

(** The first call gives the partial answer that reports [Item 1]; every
    later call gives the completed answer. *)
Definition model_partial_then_completed : Model :=
  fun n =>
    match n with
    | O => model_partial "Item 1" n
    | S _ => ModelText ("{" ++ dq ++ "processing_status" ++ dq ++ ": "
                        ++ dq ++ "completed" ++ dq ++ ", ...}")%string
                       (Some completed_answer)
    end.

(** * Properties *)

(** ** Dicts *)

Lemma dict_get_set_same (k : string) (v : pyval) (d : dict) :
  dict_get k (dict_set k v d) = Some v.
Proof.
  induction d as [| [k' v'] r IH]; simpl.
  - now rewrite String.eqb_refl.
  - destruct (String.eqb k k') eqn:E; simpl.
    + now rewrite String.eqb_refl.
    + now rewrite E.
Qed.

Lemma dict_get_set_other (k k' : string) (v : pyval) (d : dict) :
  k <> k' -> dict_get k' (dict_set k v d) = dict_get k' d.
Proof.
  intros Hne. induction d as [| [k0 v0] r IH]; simpl.
  - destruct (String.eqb k' k) eqn:E; auto.
    apply String.eqb_eq in E. congruence.
  - destruct (String.eqb k k0) eqn:E; simpl.
    + apply String.eqb_eq in E. subst k0.
      destruct (String.eqb k' k) eqn:E'; auto.
      apply String.eqb_eq in E'. congruence.
    + destruct (String.eqb k' k0); auto.
Qed.

Lemma dict_set_absent (k : string) (v : pyval) (d : dict) :
  dict_has k d = false -> dict_set k v d = d ++ [(k, v)].
Proof.
  unfold dict_has. induction d as [| [k' v'] r IH]; simpl; intros H; auto.
  destruct (String.eqb k k') eqn:E; [discriminate|].
  now rewrite IH.
Qed.

(** ** Structure transformer *)

Module TransformerFacts.
Import Transformer.

Lemma transform_sections_list_spec (l : list pyval) (idx : nat) :
  transform_sections_list idx l
  = map with_section_id
        (filter (fun p => isinstance_dict (snd p)) (enumerate_from idx l)).
Proof.
  revert idx. induction l as [| sec rest IH]; intros idx; simpl; auto.
  destruct sec as [| b | z | f | s | l | d]; simpl; auto.
  rewrite IH. f_equal.
  unfold with_section_id; simpl.
  destruct (dict_has "section_id" d) eqn:E; simpl; auto.
  now rewrite dict_set_absent.
Qed.

Lemma transform_sections_ok (v : pyval) :
  exists out, transform_sections v = Ok out.
Proof.
  destruct v; unfold transform_sections; simpl; eauto.
Qed.

Lemma transform_parts_list_item_ok (part : pyval) :
  exists r, transform_parts_list_item part = Ok r
            /\ (isinstance_dict part = false -> r = None)
            /\ (isinstance_dict part = true -> exists b, r = Some (PDict b)).
Proof.
  destruct part as [| b | z | f | s | l | d];
    try (exists None; split; [reflexivity | split; [reflexivity | discriminate]]).
  unfold transform_parts_list_item; simpl.
  destruct (transform_sections_ok
              (match dict_get "sections" d with Some x => x | None => PNone end))
    as [secs ->].
  simpl. eexists. split; [reflexivity|]. split; [discriminate|].
  intros _. eexists. reflexivity.
Qed.

Lemma transform_parts_list_ok (l : list pyval) :
  exists out, transform_parts_list l = Ok out
              /\ List.length out = count_dicts l
              /\ Forall (fun b => isinstance_dict b = true) out.
Proof.
  induction l as [| part rest (out & Hout & Hlen & Hall)]; simpl.
  - exists []. repeat split; constructor.
  - destruct (transform_parts_list_item_ok part) as (r & Hr & Hnone & Hsome).
    rewrite Hr, Hout. simpl. unfold count_dicts in *. simpl.
    destruct (isinstance_dict part) eqn:E.
    + destruct (Hsome eq_refl) as [b ->].
      eexists. split; [reflexivity|]. split; simpl; [now rewrite Hlen|].
      constructor; auto.
    + rewrite (Hnone eq_refl). eexists. split; [reflexivity|]. split; auto.
Qed.

Lemma transform_parts_dict_ok (d : dict) :
  exists out, transform_parts_dict d = Ok out.
Proof.
  induction d as [| [key value] rest [out Hout]]; simpl.
  - eexists; reflexivity.
  - destruct value as [| b | z | f | s | l | d];
      simpl; rewrite ?Hout; simpl; eauto.
    destruct (transform_sections_ok
                (match dict_get "sections" d with Some x => x | None => PNone end))
      as [secs ->].
    simpl. eauto.
Qed.

Lemma transform_sections_dict_ids (d : dict) (i : nat) (key : string) (value : pyval) :
  nth_error d i = Some (key, value) ->
  exists o, nth_error (map transform_sections_item d) i = Some (PDict o)
            /\ dict_get "section_id" o = Some (PStr key).
Proof.
  intros H. rewrite nth_error_map, H. simpl.
  destruct value; simpl; eexists; split; try reflexivity.
  apply dict_get_set_same.
Qed.

(** C10. [transform_sections] never raises and loses what is malformed:
    a value that is neither a list nor a dict gives the empty list; a list
    gives its dict elements only, each with [section_id] set to
    ['section_<index>'] when it had none; a dict gives one object per key,
    in order, whose [section_id] is that key.  [transform_parts] never
    raises either, and on a list it returns one dict per dict element,
    the other elements being dropped. *)
Theorem transform_sections_total_and_lossy :
  (forall v, isinstance_list v = false -> isinstance_dict v = false ->
             transform_sections v = Ok [])
  /\ (forall l, transform_sections (PList l) = Ok (dict_elements_with_ids l))
  /\ (forall d, exists out,
        transform_sections (PDict d) = Ok out
        /\ List.length out = List.length d
        /\ forall i key value, nth_error d i = Some (key, value) ->
             exists o, nth_error out i = Some (PDict o)
                       /\ dict_get "section_id" o = Some (PStr key))
  /\ (forall v, exists out, transform_sections v = Ok out)
  /\ (forall v, exists out, transform_parts v = Ok out)
  /\ (forall l, exists out,
        transform_parts (PList l) = Ok out
        /\ List.length out = count_dicts l
        /\ Forall (fun b => isinstance_dict b = true) out).
Proof.
  split; [|split; [|split; [|split; [|split]]]].
  - intros v Hl Hd. destruct v; simpl in *; try reflexivity; discriminate.
  - intros l. unfold transform_sections, dict_elements_with_ids. simpl.
    f_equal. apply transform_sections_list_spec.
  - intros d. exists (map transform_sections_item d).
    split; [reflexivity|]. split; [apply length_map|].
    intros i key value. apply transform_sections_dict_ids.
  - apply transform_sections_ok.
  - intros v. destruct v; simpl; eauto.
    + destruct (transform_parts_list_ok l) as (out & H & _). eauto.
    + apply transform_parts_dict_ok.
  - intros l. simpl. apply transform_parts_list_ok.
Qed.

End TransformerFacts.

(** ** Incremental result combiner *)

Lemma four_categories_distinct : NoDup four_categories.
Proof.
  unfold four_categories.
  repeat constructor; simpl; intros H;
    repeat (destruct H as [H | H]; [discriminate H|]); exact H.
Qed.

Lemma table_get_in_four (k c : string) :
  table_get k section_to_category = Some c -> In c four_categories.
Proof.
  unfold section_to_category, four_categories. simpl.
  repeat (destruct (String.eqb k _);
          [intros H; injection H as <-; simpl; tauto|]).
  discriminate.
Qed.

Lemma determine_section_category_in_four (section_name : string) :
  In (determine_section_category section_name) four_categories.
Proof.
  unfold determine_section_category.
  destruct (search_item section_name) as [g|]; [|simpl; tauto].
  destruct (table_get _ section_to_category) eqn:E; [|simpl; tauto].
  eapply table_get_in_four; eauto.
Qed.

Lemma category_put_ok (category name : string) (data : pyval)
    (categories : list (string * dict)) :
  In category (map fst categories) ->
  exists categories',
    category_put category name data categories = Ok categories'
    /\ map fst categories' = map fst categories.
Proof.
  induction categories as [| [c d] r IH]; simpl; [tauto|].
  intros H. destruct (String.eqb category c) eqn:E.
  - eexists; split; reflexivity.
  - destruct IH as (r' & -> & Hr').
    + destruct H as [H | H]; auto. subst c. now rewrite String.eqb_refl in E.
    + simpl. eexists; split; [reflexivity|]. simpl. now rewrite Hr'.
Qed.

Lemma category_put_lookup (category name : string) (data : pyval)
    (categories categories' : list (string * dict)) :
  category_put category name data categories = Ok categories' ->
  forall c k,
    lookup_section categories' c k
    = if String.eqb c category && String.eqb k name then Some data
      else lookup_section categories c k.
Proof.
  unfold lookup_section. revert categories'.
  induction categories as [| [c0 d0] r IH]; simpl; intros categories' H c k.
  - discriminate.
  - destruct (String.eqb category c0) eqn:E.
    + injection H as <-. apply String.eqb_eq in E. subst c0. simpl.
      destruct (String.eqb c category) eqn:Ec; simpl; auto.
      destruct (String.eqb k name) eqn:Ek.
      * apply String.eqb_eq in Ek. subst k. apply dict_get_set_same.
      * apply dict_get_set_other. intros ->. now rewrite String.eqb_refl in Ek.
    + destruct (category_put category name data r) as [r'|] eqn:Er; [|discriminate].
      injection H as <-. simpl.
      destruct (String.eqb c c0) eqn:Ec.
      * apply String.eqb_eq in Ec. subst c0.
        rewrite String.eqb_sym in E. now rewrite E.
      * now apply IH.
Qed.

Lemma dict_get_absent (k : string) (d : dict) :
  ~ In k (map fst d) -> dict_get k d = None.
Proof.
  induction d as [| [k' v'] r IH]; simpl; intros H; auto.
  destruct (String.eqb k k') eqn:E.
  - apply String.eqb_eq in E. subst k'. tauto.
  - apply IH. tauto.
Qed.

Lemma dict_get_present (k : string) (d : dict) :
  In k (map fst d) -> exists v, dict_get k d = Some v.
Proof.
  induction d as [| [k' v'] r IH]; simpl; intros H; [tauto|].
  destruct (String.eqb k k') eqn:E; [eauto|].
  apply IH. destruct H as [H | H]; auto.
  subst k'. now rewrite String.eqb_refl in E.
Qed.

Lemma dict_ext (d1 d2 : dict) :
  NoDup (map fst d1) -> map fst d1 = map fst d2 ->
  (forall k, dict_get k d1 = dict_get k d2) -> d1 = d2.
Proof.
  revert d2. induction d1 as [| [k v] r1 IH]; intros [| [k' v'] r2]; simpl;
    intros Hnd Hkeys Hget; try discriminate; auto.
  injection Hkeys as <- Hkeys. inversion Hnd as [| ? ? Hnotin Hnd']; subst.
  pose proof (Hget k) as Hk. rewrite String.eqb_refl in Hk. injection Hk as <-.
  f_equal. apply IH; auto.
  intros k0. destruct (String.eqb k0 k) eqn:E.
  - apply String.eqb_eq in E. subst k0.
    rewrite !dict_get_absent; auto. now rewrite <- Hkeys.
  - specialize (Hget k0). now rewrite E in Hget.
Qed.

Lemma dict_set_keys_present (k : string) (v : pyval) (d : dict) :
  dict_get k d <> None -> map fst (dict_set k v d) = map fst d.
Proof.
  induction d as [| [k' v'] r IH]; simpl; intros H; [congruence|].
  destruct (String.eqb k k') eqn:E; simpl.
  - apply String.eqb_eq in E. now subst.
  - now rewrite IH.
Qed.

Lemma dict_set_keys (k : string) (v : pyval) (d : dict) :
  map fst (dict_set k v d)
  = if dict_has k d then map fst d else map fst d ++ [k].
Proof.
  destruct (dict_has k d) eqn:E.
  - apply dict_set_keys_present. unfold dict_has in E.
    destruct (dict_get k d); congruence.
  - rewrite dict_set_absent; auto. now rewrite map_app.
Qed.

Lemma dict_set_NoDup (k : string) (v : pyval) (d : dict) :
  NoDup (map fst d) -> NoDup (map fst (dict_set k v d)).
Proof.
  intros H. rewrite dict_set_keys. destruct (dict_has k d) eqn:E; auto.
  apply NoDup_app; auto.
  - repeat constructor. simpl. tauto.
  - intros x Hx [Hk | []]. subst x. unfold dict_has in E.
    destruct (dict_get_present k d Hx) as [w Hw]. now rewrite Hw in E.
Qed.

Lemma categories_ext (c1 c2 : list (string * dict)) :
  sections_unique c1 -> NoDup (map fst c1) -> shape c1 = shape c2 ->
  (forall category k, lookup_section c1 category k = lookup_section c2 category k) ->
  c1 = c2.
Proof.
  unfold shape, lookup_section.
  revert c2. induction c1 as [| [n1 d1] r1 IH]; intros [| [n2 d2] r2]; simpl;
    intros Huniq Hnd Hshape Hlook; try discriminate; auto.
  injection Hshape as <- Hkeys Hshape.
  inversion Huniq as [| ? ? Hd1 Huniq']; subst.
  inversion Hnd as [| ? ? Hnotin Hnd']; subst.
  f_equal.
  - f_equal. apply dict_ext; auto.
    intros k. specialize (Hlook n1 k). now rewrite String.eqb_refl in Hlook.
  - apply IH; auto.
    intros category k. specialize (Hlook category k).
    destruct (String.eqb category n1) eqn:E; auto.
    apply String.eqb_eq in E. subst category.
    assert (Hnone : forall r, ~ In n1 (map fst r) -> category_get n1 r = None).
    { clear. induction r as [| [c d] r IH]; simpl; auto. intros H.
      destruct (String.eqb n1 c) eqn:E.
      - apply String.eqb_eq in E. subst. tauto.
      - apply IH. tauto. }
    rewrite !Hnone; auto.
    replace (map fst r2) with (map fst r1); auto.
    clear - Hshape. revert r2 Hshape.
    induction r1 as [| a r1 IH]; intros [| b r2]; simpl; intros H;
      try discriminate; auto.
    injection H as H1 _ H2. f_equal; auto.
Qed.

Lemma category_put_shape (category name : string) (data : pyval)
    (categories categories' : list (string * dict)) :
  category_put category name data categories = Ok categories' ->
  lookup_section categories category name <> None ->
  shape categories' = shape categories.
Proof.
  unfold shape, lookup_section. revert categories'.
  induction categories as [| [c0 d0] r IH]; simpl; intros categories' H Hin.
  - discriminate.
  - destruct (String.eqb category c0) eqn:E.
    + injection H as <-. simpl. now rewrite dict_set_keys_present.
    + destruct (category_put category name data r) as [r'|] eqn:Er; [|discriminate].
      injection H as <-. simpl. f_equal. now apply IH.
Qed.

Lemma category_put_unique (category name : string) (data : pyval)
    (categories categories' : list (string * dict)) :
  category_put category name data categories = Ok categories' ->
  sections_unique categories -> sections_unique categories'.
Proof.
  unfold sections_unique. revert categories'.
  induction categories as [| [c0 d0] r IH]; simpl; intros categories' H Hu.
  - discriminate.
  - inversion Hu as [| ? ? Hd Hr]; subst.
    destruct (String.eqb category c0) eqn:E.
    + injection H as <-. constructor; auto. simpl. now apply dict_set_NoDup.
    + destruct (category_put category name data r) as [r'|] eqn:Er; [|discriminate].
      injection H as <-. constructor; auto.
Qed.

Lemma last_binding_in (name : string) (v : pyval) (items : list (string * pyval)) :
  last_binding name items = Some v -> In (name, v) items.
Proof.
  induction items as [| [k w] r IH]; simpl; [discriminate|].
  destruct (last_binding name r) as [v'|].
  - intros H. injection H as ->. auto.
  - destruct (String.eqb name k) eqn:E; [|discriminate].
    apply String.eqb_eq in E. subst k. intros H. injection H as ->. auto.
Qed.

Lemma in_last_binding (name : string) (v : pyval) (items : list (string * pyval)) :
  In (name, v) items -> last_binding name items <> None.
Proof.
  induction items as [| [k w] r IH]; simpl; [tauto|].
  intros [H | H].
  - injection H as -> ->. rewrite String.eqb_refl.
    destruct (last_binding name r); discriminate.
  - destruct (last_binding name r); [discriminate|]. now apply IH in H.
Qed.

Lemma last_binding_app (name : string) (l1 l2 : list (string * pyval)) :
  last_binding name (l1 ++ l2)
  = match last_binding name l2 with
    | Some v => Some v
    | None => last_binding name l1
    end.
Proof.
  induction l1 as [| [k w] r IH]; simpl.
  - now destruct (last_binding name l2).
  - rewrite IH. destruct (last_binding name l2); auto.
Qed.

Lemma put_sections_ok (items : list (string * pyval))
    (categories : list (string * dict)) :
  map fst categories = four_categories ->
  exists categories',
    put_sections items categories = Ok categories'
    /\ map fst categories' = four_categories.
Proof.
  revert categories. induction items as [| [name data] rest IH]; simpl;
    intros categories Hc; [eauto|].
  destruct (category_put_ok (determine_section_category name) name data categories)
    as (c1 & -> & Hc1).
  - rewrite Hc. apply determine_section_category_in_four.
  - simpl. apply IH. congruence.
Qed.

Lemma put_sections_app (l1 l2 : list (string * pyval))
    (categories : list (string * dict)) :
  put_sections (l1 ++ l2) categories
  = (do c1 <- put_sections l1 categories; put_sections l2 c1).
Proof.
  revert categories. induction l1 as [| [name data] rest IH]; simpl;
    intros categories; auto.
  destruct (category_put _ name data categories); simpl; auto.
Qed.

Lemma put_sections_lookup (items : list (string * pyval))
    (categories categories' : list (string * dict)) :
  put_sections items categories = Ok categories' ->
  forall category k,
    lookup_section categories' category k
    = match last_binding k items with
      | Some v =>
          if String.eqb category (determine_section_category k) then Some v
          else lookup_section categories category k
      | None => lookup_section categories category k
      end.
Proof.
  revert categories. induction items as [| [name data] rest IH]; simpl;
    intros categories H category k.
  - now injection H as <-.
  - destruct (category_put _ name data categories) as [c1|] eqn:E1;
      [|discriminate]. simpl in H.
    rewrite (IH _ H). rewrite (category_put_lookup _ _ _ _ _ E1).
    destruct (last_binding k rest) as [v'|].
    + destruct (String.eqb category (determine_section_category k)) eqn:Ec; auto.
      destruct (String.eqb k name) eqn:Ek.
      * apply String.eqb_eq in Ek. subst k. now rewrite Ec.
      * now rewrite andb_false_r.
    + destruct (String.eqb k name) eqn:Ek.
      * apply String.eqb_eq in Ek. subst k. now rewrite andb_true_r.
      * now rewrite andb_false_r.
Qed.

Lemma put_sections_unique (items : list (string * pyval))
    (categories categories' : list (string * dict)) :
  put_sections items categories = Ok categories' ->
  sections_unique categories -> sections_unique categories'.
Proof.
  revert categories. induction items as [| [name data] rest IH]; simpl;
    intros categories H Hu.
  - now injection H as <-.
  - destruct (category_put _ name data categories) as [c1|] eqn:E1;
      [|discriminate]. simpl in H.
    eapply IH; eauto. eapply category_put_unique; eauto.
Qed.

Lemma put_sections_shape (items : list (string * pyval))
    (categories categories' : list (string * dict)) :
  put_sections items categories = Ok categories' ->
  (forall name v, In (name, v) items ->
     lookup_section categories (determine_section_category name) name <> None) ->
  shape categories' = shape categories.
Proof.
  revert categories. induction items as [| [name data] rest IH]; simpl;
    intros categories H Hin.
  - now injection H as <-.
  - destruct (category_put _ name data categories) as [c1|] eqn:E1;
      [|discriminate]. simpl in H.
    rewrite (IH _ H).
    + eapply category_put_shape; eauto.
    + intros n v Hn. rewrite (category_put_lookup _ _ _ _ _ E1).
      destruct (_ && _); [discriminate|]. eauto.
Qed.

(** Applying a list of updates a second time changes nothing. *)
Lemma put_sections_twice (items : list (string * pyval))
    (c0 c1 : list (string * dict)) :
  map fst c0 = four_categories -> sections_unique c0 ->
  put_sections items c0 = Ok c1 -> put_sections items c1 = Ok c1.
Proof.
  intros Hc0 Hu0 H1.
  destruct (put_sections_ok items c0 Hc0) as (c1' & H1' & Hc1).
  rewrite H1 in H1'. injection H1' as <-.
  destruct (put_sections_ok items c1 Hc1) as (c2 & H2 & Hc2).
  rewrite H2. f_equal. symmetry.
  pose proof (put_sections_lookup _ _ _ H1) as L1.
  pose proof (put_sections_lookup _ _ _ H2) as L2.
  apply categories_ext.
  - eapply put_sections_unique; eauto.
  - rewrite Hc1. apply four_categories_distinct.
  - symmetry. eapply put_sections_shape; eauto.
    intros name v Hin. rewrite L1.
    destruct (last_binding name items) eqn:E.
    + rewrite String.eqb_refl. discriminate.
    + now apply in_last_binding in Hin.
  - intros category k. rewrite L2, L1.
    destruct (last_binding k items); auto.
    destruct (String.eqb category (determine_section_category k)); auto.
Qed.

Lemma combine_step_categories (c c' : list (string * dict))
    (f f' : list FailedRecord) (e : ResultEntry) :
  combine_step (c, f) e = Ok (c', f') ->
  put_sections (updates_of_entry e) c = Ok c'.
Proof.
  destruct e as [j | info]; simpl.
  - destruct j as [| b | z | fl | s | l | d]; simpl; try discriminate.
    + destruct (is_substring "error" s); discriminate.
    + destruct (existsb _ l); discriminate.
    + destruct (dict_has "error" d) eqn:He.
      * destruct (dict_get "sections" d) as [secs|]; simpl.
        -- destruct (py_iter secs) as [elems|]; simpl; [|discriminate].
           destruct (map_result attempted_of elems); simpl; [|discriminate].
           intros H. now injection H as <- _.
        -- intros H. now injection H as <- _.
      * destruct (dict_get "sections" d) as [secs|]; simpl.
        -- destruct secs as [| b | z | fl | s | l | sd]; simpl; try discriminate.
           destruct (put_sections sd c); simpl; [|discriminate].
           intros H. now injection H as <- _.
        -- intros H. now injection H as <- _.
  - intros H. now injection H as <- _.
Qed.

Lemma combine_step_accepted (c : list (string * dict)) (f : list FailedRecord)
    (e : ResultEntry) :
  map fst c = four_categories ->
  is_ok (combine_step (c, f) e) = entry_accepted e.
Proof.
  intros Hc. unfold entry_accepted.
  destruct e as [j | info]; simpl; auto.
  destruct (py_contains "error" j) as [[|]|]; simpl; auto.
  - destruct (py_get j "chunk_id" PNone); simpl; auto.
    destruct (py_get j "error" PNone); simpl; auto.
    destruct (py_get j "sections" (PList [])); simpl; auto.
    destruct (py_iter a1); simpl; auto.
    destruct (map_result attempted_of a2); simpl; auto.
  - destruct (py_get j "sections" (PDict [])) as [sd|]; simpl; auto.
    destruct (py_items sd) as [items|]; simpl; auto.
    destruct (put_sections_ok items c Hc) as (c1 & -> & _).
    destruct (put_sections_ok items initial_categories eq_refl) as (c2 & -> & _).
    reflexivity.
Qed.

Lemma combine_loop_spec (rs : list ResultEntry) (c c' : list (string * dict))
    (f f' : list FailedRecord) :
  map fst c = four_categories ->
  combine_loop (c, f) rs = Ok (c', f') ->
  put_sections (updates_of rs) c = Ok c'
  /\ map fst c' = four_categories
  /\ forallb entry_accepted rs = true.
Proof.
  revert c f.
  induction rs as [| e rest IH]; intros c f Hc H;
    cbn [combine_loop forallb] in *.
  - injection H as <- _. auto.
  - destruct (combine_step (c, f) e) as [[c1 f1]|] eqn:E;
      cbn [bind] in H; [|discriminate].
    pose proof (combine_step_categories _ _ _ _ _ E) as P1.
    destruct (put_sections_ok (updates_of_entry e) c Hc) as (c1' & P1' & Hc1).
    rewrite P1 in P1'. injection P1' as <-.
    destruct (IH _ _ Hc1 H) as (P2 & Hc' & Hacc).
    unfold updates_of in *. cbn [flat_map].
    rewrite put_sections_app, P1. cbn [bind].
    repeat split; auto.
    rewrite <- (combine_step_accepted c f e Hc), E. simpl. exact Hacc.
Qed.

Lemma combine_loop_ok (rs : list ResultEntry) (c : list (string * dict))
    (f : list FailedRecord) :
  map fst c = four_categories ->
  forallb entry_accepted rs = true ->
  exists c' f', combine_loop (c, f) rs = Ok (c', f').
Proof.
  revert c f.
  induction rs as [| e rest IH]; intros c f Hc Hacc;
    cbn [combine_loop forallb] in *.
  - eauto.
  - apply andb_true_iff in Hacc as [He Hrest].
    rewrite <- (combine_step_accepted c f e Hc) in He.
    destruct (combine_step (c, f) e) as [[c1 f1]|] eqn:E; [|discriminate].
    cbn [bind]. apply IH; auto.
    pose proof (combine_step_categories _ _ _ _ _ E) as P1.
    destruct (put_sections_ok (updates_of_entry e) c Hc) as (c1' & P1' & Hc1).
    congruence.
Qed.

Lemma category_get_in (category : string) (d : dict)
    (categories : list (string * dict)) :
  NoDup (map fst categories) -> In (category, d) categories ->
  category_get category categories = Some d.
Proof.
  induction categories as [| [c0 d0] r IH]; simpl; intros Hnd Hin; [tauto|].
  inversion Hnd as [| ? ? Hnotin Hnd']; subst.
  destruct Hin as [Hin | Hin].
  - injection Hin as -> ->. now rewrite String.eqb_refl.
  - destruct (String.eqb category c0) eqn:E; auto.
    apply String.eqb_eq in E. subst c0.
    exfalso. apply Hnotin. apply in_map_iff. exists (category, d). auto.
Qed.

Lemma lookup_initial (category k : string) :
  lookup_section initial_categories category k = None.
Proof.
  unfold lookup_section, initial_categories. simpl.
  repeat (destruct (String.eqb category _); [reflexivity|]). reflexivity.
Qed.

Lemma combine_categories (now : string) (rs : list ResultEntry)
    (company_name year : option string) (f : StructuredFiling) :
  combine_incremental_results now rs company_name year = Ok f ->
  put_sections (updates_of rs) initial_categories = Ok (CATEGORIES f)
  /\ map fst (CATEGORIES f) = four_categories
  /\ forallb entry_accepted rs = true.
Proof.
  unfold combine_incremental_results.
  destruct (combine_loop (initial_categories, []) rs) as [[c fl]|] eqn:E;
    [|discriminate].
  simpl. intros H. injection H as <-. simpl.
  eapply combine_loop_spec; eauto.
Qed.

Lemma combine_accepted_ok (now : string) (rs : list ResultEntry)
    (company_name year : option string) :
  forallb entry_accepted rs = true ->
  exists f, combine_incremental_results now rs company_name year = Ok f.
Proof.
  intros Hacc. unfold combine_incremental_results.
  destruct (combine_loop_ok rs initial_categories [] eq_refl Hacc)
    as (c & fl & ->).
  simpl. eauto.
Qed.

(** C9. The filing the combiner returns has under [CATEGORIES] the four
    fixed keys, in this order and no other; a section name is stored only
    under the category [determine_section_category] gives it, and every
    section of every result without [error] key is stored there; a name
    without recognizable item number goes to Part I.  The combiner returns
    a filing whenever each result is a failure record or a dict whose
    [sections] is a dict. *)
Theorem combine_four_categories :
  (forall now rs company_name year f,
      combine_incremental_results now rs company_name year = Ok f ->
      map fst (CATEGORIES f) = [part_I; part_II; part_III; part_IV]
      /\ (forall category d name,
            In (category, d) (CATEGORIES f) -> dict_has name d = true ->
            category = determine_section_category name)
      /\ (forall e name data,
            In e rs -> In (name, data) (updates_of_entry e) ->
            exists d, category_get (determine_section_category name) (CATEGORIES f)
                      = Some d
                      /\ dict_has name d = true))
  /\ (forall name, In (determine_section_category name)
                      [part_I; part_II; part_III; part_IV])
  /\ (forall name, search_item name = None ->
                   determine_section_category name = part_I)
  /\ (forall now rs company_name year,
        forallb entry_accepted rs = true ->
        exists f, combine_incremental_results now rs company_name year = Ok f)
  /\ (forall info, entry_accepted (FailedChunk info) = true)
  /\ (forall d s, dict_has "error" d = false ->
                  dict_get "sections" d = Some (PDict s) ->
                  entry_accepted (ModelResult (PDict d)) = true).
Proof.
  split; [|split; [|split; [|split; [|split]]]].
  - intros now rs company_name year f H.
    destruct (combine_categories _ _ _ _ _ H) as (Hput & Hnames & _).
    pose proof (put_sections_lookup _ _ _ Hput) as L.
    split; [exact Hnames|]. split.
    + intros category d name Hin Hhas.
      pose proof (L category name) as Ln. unfold lookup_section in Ln at 1.
      rewrite (category_get_in category d) in Ln; auto.
      2:{ rewrite Hnames. apply four_categories_distinct. }
      rewrite lookup_initial in Ln. unfold dict_has in Hhas.
      destruct (dict_get name d); [|discriminate].
      destruct (last_binding name (updates_of rs)); [|discriminate].
      destruct (String.eqb category (determine_section_category name)) eqn:E;
        [|discriminate].
      now apply String.eqb_eq.
    + intros e name data He Hin.
      assert (Hall : In (name, data) (updates_of rs)).
      { unfold updates_of. apply in_flat_map. eauto. }
      apply in_last_binding in Hall.
      pose proof (L (determine_section_category name) name) as Ln.
      rewrite String.eqb_refl in Ln.
      destruct (last_binding name (updates_of rs)) as [v|]; [|congruence].
      unfold lookup_section in Ln.
      destruct (category_get _ (CATEGORIES f)) as [d|]; [|discriminate].
      exists d. split; auto. unfold dict_has. now rewrite Ln.
  - apply determine_section_category_in_four.
  - intros name H. unfold determine_section_category. now rewrite H.
  - apply combine_accepted_ok.
  - reflexivity.
  - intros d s He Hs. unfold entry_accepted. simpl. rewrite He. simpl.
    rewrite Hs. simpl.
    destruct (put_sections_ok s initial_categories eq_refl) as (c & -> & _).
    reflexivity.
Qed.

Lemma forallb_entry_accepted_perm (rs1 rs2 : list ResultEntry) :
  Permutation rs1 rs2 ->
  forallb entry_accepted rs1 = true -> forallb entry_accepted rs2 = true.
Proof.
  intros P H. rewrite forallb_forall in *. intros e He.
  apply H. eapply Permutation_in; [symmetry|]; eauto.
Qed.

Lemma updates_of_perm (rs1 rs2 : list ResultEntry) (kv : string * pyval) :
  Permutation rs1 rs2 -> In kv (updates_of rs1) -> In kv (updates_of rs2).
Proof.
  unfold updates_of. intros P H. apply in_flat_map in H as (e & He & Hkv).
  apply in_flat_map. exists e. split; auto. eapply Permutation_in; eauto.
Qed.

Lemma combine_lookup (now : string) (rs : list ResultEntry)
    (company_name year : option string) (f : StructuredFiling) :
  combine_incremental_results now rs company_name year = Ok f ->
  forall category name,
    lookup_section (CATEGORIES f) category name
    = if String.eqb category (determine_section_category name)
      then last_binding name (updates_of rs) else None.
Proof.
  intros H category name.
  destruct (combine_categories _ _ _ _ _ H) as (Hput & _ & _).
  rewrite (put_sections_lookup _ _ _ Hput), lookup_initial.
  destruct (last_binding name (updates_of rs));
    destruct (String.eqb category (determine_section_category name)); auto.
Qed.

Lemma combine_loop_app (rs1 rs2 : list ResultEntry)
    (st : list (string * dict) * list FailedRecord) :
  combine_loop st (rs1 ++ rs2)
  = (do st' <- combine_loop st rs1; combine_loop st' rs2).
Proof.
  revert st. induction rs1 as [| e rest IH]; intros st; cbn [combine_loop app bind].
  - reflexivity.
  - destruct (combine_step st e) as [st1|]; cbn [bind]; auto.
Qed.

(** The records a result adds to [failed_chunks] depend on the result
    alone, not on the categories filled so far. *)
Lemma combine_step_records (c1 c1' c2 c2' : list (string * dict))
    (f1 f1' f2 f2' : list FailedRecord) (e : ResultEntry) :
  combine_step (c1, f1) e = Ok (c1', f1') ->
  combine_step (c2, f2) e = Ok (c2', f2') ->
  exists records, f1' = f1 ++ records /\ f2' = f2 ++ records.
Proof.
  destruct e as [j | info]; cbn [combine_step].
  - destruct (py_contains "error" j) as [[|]|]; cbn [bind]; [| |discriminate].
    + destruct (py_get j "chunk_id" PNone); cbn [bind]; [|discriminate].
      destruct (py_get j "error" PNone); cbn [bind]; [|discriminate].
      destruct (py_get j "sections" (PList [])) as [secs|]; cbn [bind];
        [|discriminate].
      destruct (py_iter secs) as [elems|]; cbn [bind]; [|discriminate].
      destruct (map_result attempted_of elems); cbn [bind]; [|discriminate].
      intros H1 H2. injection H1 as _ <-. injection H2 as _ <-.
      eexists. split; reflexivity.
    + destruct (py_get j "sections" (PDict [])) as [sd|]; cbn [bind];
        [|discriminate].
      destruct (py_items sd) as [items|]; cbn [bind]; [|discriminate].
      destruct (put_sections items c1); cbn [bind]; [|discriminate].
      destruct (put_sections items c2); cbn [bind]; [|discriminate].
      intros H1 H2. injection H1 as _ <-. injection H2 as _ <-.
      exists []. now rewrite !app_nil_r.
  - intros H1 H2. injection H1 as _ <-. injection H2 as _ <-.
    eexists. split; reflexivity.
Qed.

Lemma combine_loop_records (rs : list ResultEntry) :
  forall c1 c1' c2 c2' f1 f1' f2 f2',
    combine_loop (c1, f1) rs = Ok (c1', f1') ->
    combine_loop (c2, f2) rs = Ok (c2', f2') ->
    exists records, f1' = f1 ++ records /\ f2' = f2 ++ records.
Proof.
  induction rs as [| e rest IH]; intros c1 c1' c2 c2' f1 f1' f2 f2';
    cbn [combine_loop].
  - intros H1 H2. injection H1 as _ <-. injection H2 as _ <-.
    exists []. now rewrite !app_nil_r.
  - destruct (combine_step (c1, f1) e) as [[d1 g1]|] eqn:E1; cbn [bind];
      [|discriminate].
    destruct (combine_step (c2, f2) e) as [[d2 g2]|] eqn:E2; cbn [bind];
      [|discriminate].
    intros H1 H2.
    destruct (combine_step_records _ _ _ _ _ _ _ _ _ E1 E2) as (r1 & -> & ->).
    destruct (IH _ _ _ _ _ _ _ _ H1 H2) as (r2 & -> & ->).
    exists (r1 ++ r2). now rewrite !app_assoc.
Qed.

(** C6, as the code has it.  The timestamp apart, the combiner is
    idempotent on the categories: combining a list of results followed by
    the same list again gives the categories of the list combined once,
    key order included.  A section holds the content of the last result
    that names it.  Reordering results whose section names do not collide
    changes no stored content (it may change the order of the keys).
    Two runs on one list of results, with the same company and year, end
    alike: both raise the same exception, or both return, and then the two
    filings are equal field by field but for the timestamp, which is the
    clock reading of each run.  And the filing of a list followed by the
    same list again is the filing of the list but for the number of chunks
    processed, which doubles, and the records of failed chunks, which come
    twice (there is none when every result is a successful one). *)
Theorem combine_idempotent_on_categories :
  (forall now rs company_name year f,
      combine_incremental_results now rs company_name year = Ok f ->
      exists f',
        combine_incremental_results now (rs ++ rs) company_name year = Ok f'
        /\ CATEGORIES f' = CATEGORIES f)
  /\ (forall now rs company_name year f name,
        combine_incremental_results now rs company_name year = Ok f ->
        lookup_section (CATEGORIES f) (determine_section_category name) name
        = last_binding name (updates_of rs))
  /\ (forall now rs1 rs2 company_name year f1,
        Permutation rs1 rs2 -> distinct_section_keys rs1 ->
        combine_incremental_results now rs1 company_name year = Ok f1 ->
        exists f2,
          combine_incremental_results now rs2 company_name year = Ok f2
          /\ forall category name,
               lookup_section (CATEGORIES f2) category name
               = lookup_section (CATEGORIES f1) category name)
  /\ (forall now1 now2 rs company_name year,
        match combine_incremental_results now1 rs company_name year,
              combine_incremental_results now2 rs company_name year with
        | Ok f1, Ok f2 =>
            timestamp (PROCESSING_METADATA f1) = now1
            /\ timestamp (PROCESSING_METADATA f2) = now2
            /\ f2 = mkFiling (company_key f1) (year_key f1) (FORM f1)
                      (CATEGORIES f1)
                      (mkMetadata
                         (processing_method (PROCESSING_METADATA f1))
                         (chunks_processed (PROCESSING_METADATA f1))
                         now2
                         (failed_chunks (PROCESSING_METADATA f1))
                         (total_sections_extracted (PROCESSING_METADATA f1))
                         (sections_by_category (PROCESSING_METADATA f1)))
        | Raise e1, Raise e2 => e1 = e2
        | _, _ => False
        end)
  /\ (forall now rs company_name year f,
        combine_incremental_results now rs company_name year = Ok f ->
        combine_incremental_results now (rs ++ rs) company_name year
        = Ok (mkFiling (company_key f) (year_key f) (FORM f) (CATEGORIES f)
                (mkMetadata
                   (processing_method (PROCESSING_METADATA f))
                   (2 * chunks_processed (PROCESSING_METADATA f))
                   (timestamp (PROCESSING_METADATA f))
                   (failed_chunks (PROCESSING_METADATA f)
                    ++ failed_chunks (PROCESSING_METADATA f))
                   (total_sections_extracted (PROCESSING_METADATA f))
                   (sections_by_category (PROCESSING_METADATA f)))))
  /\ (forall now rs company_name year f,
        combine_incremental_results now rs company_name year = Ok f ->
        (forall e, In e rs -> exists d,
             e = ModelResult (PDict d) /\ dict_has "error" d = false) ->
        failed_chunks (PROCESSING_METADATA f) = []).
Proof.
  assert (Htwice : forall now rs company_name year f,
            combine_incremental_results now rs company_name year = Ok f ->
            exists f',
              combine_incremental_results now (rs ++ rs) company_name year = Ok f'
              /\ CATEGORIES f' = CATEGORIES f).
  { intros now rs company_name year f H.
    destruct (combine_categories _ _ _ _ _ H) as (Hput & Hnames & Hacc).
    assert (Hacc2 : forallb entry_accepted (rs ++ rs) = true).
    { rewrite forallb_app, Hacc. reflexivity. }
    destruct (combine_accepted_ok now (rs ++ rs) company_name year Hacc2)
      as [f' Hf'].
    exists f'. split; auto.
    destruct (combine_categories _ _ _ _ _ Hf') as (Hput' & _ & _).
    unfold updates_of in *. rewrite flat_map_app, put_sections_app, Hput in Hput'.
    simpl in Hput'.
    rewrite (put_sections_twice _ initial_categories) in Hput'; auto.
    + congruence.
    + repeat constructor. }
  split; [exact Htwice|]. split; [|split; [|split; [|split]]].
  - intros now rs company_name year f name H.
    rewrite (combine_lookup _ _ _ _ _ H). now rewrite String.eqb_refl.
  - intros now rs1 rs2 company_name year f1 P Hdistinct H1.
    destruct (combine_categories _ _ _ _ _ H1) as (_ & _ & Hacc).
    pose proof (forallb_entry_accepted_perm _ _ P Hacc) as Hacc2.
    destruct (combine_accepted_ok now rs2 company_name year Hacc2) as [f2 H2].
    exists f2. split; auto.
    intros category name.
    rewrite (combine_lookup _ _ _ _ _ H1), (combine_lookup _ _ _ _ _ H2).
    destruct (String.eqb category (determine_section_category name)); auto.
    destruct (last_binding name (updates_of rs2)) as [v2|] eqn:E2;
      destruct (last_binding name (updates_of rs1)) as [v1|] eqn:E1; auto.
    + apply last_binding_in in E1, E2.
      apply (updates_of_perm rs2 rs1) in E2; [|now symmetry].
      f_equal. eapply Hdistinct; eauto.
    + apply last_binding_in in E2.
      apply (updates_of_perm rs2 rs1) in E2; [|now symmetry].
      now apply in_last_binding in E2.
    + apply last_binding_in in E1.
      apply (updates_of_perm rs1 rs2) in E1; auto.
      now apply in_last_binding in E1.
  - intros now1 now2 rs company_name year.
    unfold combine_incremental_results.
    destruct (combine_loop (initial_categories, []) rs) as [[c fl]|e];
      cbn [bind]; [|reflexivity].
    cbn [PROCESSING_METADATA timestamp company_key year_key FORM CATEGORIES
         processing_method chunks_processed failed_chunks
         total_sections_extracted sections_by_category].
    split; [reflexivity|]. split; reflexivity.
  - intros now rs company_name year f H.
    destruct (Htwice _ _ _ _ _ H) as (f' & Hf' & Hcat).
    rewrite Hf'. f_equal.
    revert H Hf' Hcat. unfold combine_incremental_results.
    rewrite combine_loop_app.
    destruct (combine_loop (initial_categories, []) rs) as [[c fl]|] eqn:E;
      cbn [bind]; [|discriminate].
    destruct (combine_loop (c, fl) rs) as [[c2 fl2]|] eqn:E2;
      cbn [bind]; [|discriminate].
    intros H Hf'. injection H as <-. injection Hf' as <-.
    cbn [PROCESSING_METADATA timestamp company_key year_key FORM CATEGORIES
         processing_method chunks_processed failed_chunks
         total_sections_extracted sections_by_category].
    intros ->.
    destruct (combine_loop_records _ _ _ _ _ _ _ _ _ E E2) as (records & -> & ->).
    rewrite length_app. cbn [app].
    replace (List.length rs + List.length rs) with (2 * List.length rs) by lia.
    reflexivity.
  - intros now rs company_name year f H Hall.
    revert H. unfold combine_incremental_results.
    destruct (combine_loop (initial_categories, []) rs) as [[c fl]|] eqn:E;
      cbn [bind]; [|discriminate].
    intros H. injection H as <-. cbn [PROCESSING_METADATA failed_chunks].
    clear now company_name year.
    assert (Hgen : forall rs c0 f0 c1 f1,
              (forall e, In e rs -> exists d,
                   e = ModelResult (PDict d) /\ dict_has "error" d = false) ->
              combine_loop (c0, f0) rs = Ok (c1, f1) -> f1 = f0).
    { clear. induction rs as [| e rest IH]; intros c0 f0 c1 f1 Hall;
        cbn [combine_loop].
      - intros H. now injection H as _ <-.
      - destruct (Hall e (or_introl eq_refl)) as (d & -> & Herr).
        cbn [combine_step py_contains]. rewrite Herr. cbn [bind].
        destruct (py_get (PDict d) "sections" (PDict [])) as [sd|]; cbn [bind];
          [|discriminate].
        destruct (py_items sd) as [items|]; cbn [bind]; [|discriminate].
        destruct (put_sections items c0) as [c0'|]; cbn [bind]; [|discriminate].
        apply IH. intros e He. apply Hall. now right. }
    exact (Hgen rs _ _ _ _ Hall E).
Qed.

(** C6 as stated fails, on successful results alone: two runs of the
    combiner on the same two answers read the clock at two moments, and
    the metadata carries the reading, so the two filings differ, in the
    timestamp and in nothing else.  And the filing depends on the order of
    the results: two orders of the same two answers, whose section names
    differ and fall into one category, give two orders of keys, with the
    same content under every name. *)
Lemma combine_twice_differs :
  combine_incremental_results "2026-01-01T10:00:00.000001"
    [risk_answer; business_answer] (Some "ACME") (Some "2024")
  <> combine_incremental_results "2026-01-01T10:00:00.000002"
       [risk_answer; business_answer] (Some "ACME") (Some "2024")
  /\ (exists f1 f2,
        combine_incremental_results "2026-01-01T10:00:00.000001"
          [risk_answer; business_answer] (Some "ACME") (Some "2024") = Ok f1
        /\ combine_incremental_results "2026-01-01T10:00:00.000002"
             [risk_answer; business_answer] (Some "ACME") (Some "2024") = Ok f2
        /\ CATEGORIES f1 = CATEGORIES f2
        /\ failed_chunks (PROCESSING_METADATA f1) = []
        /\ timestamp (PROCESSING_METADATA f1)
           <> timestamp (PROCESSING_METADATA f2))
  /\ (forall now,
        combine_incremental_results now
          [risk_answer; sample_answer "Item 2. Properties" "sites"]
          (Some "ACME") (Some "2024")
        <> combine_incremental_results now
             [sample_answer "Item 2. Properties" "sites"; risk_answer]
             (Some "ACME") (Some "2024")).
Proof.
  split; [|split].
  - vm_compute. intros H. discriminate H.
  - eexists. eexists. split; [vm_compute; reflexivity|].
    split; [vm_compute; reflexivity|].
    split; [reflexivity|]. split; [reflexivity|].
    vm_compute. intros H. discriminate H.
  - intros now. vm_compute. intros H. discriminate H.
Qed.

Lemma combine_idempotent_on_categories_witness :
  exists f f',
    combine_incremental_results "2026-01-01T10:00:00"
      [risk_answer; business_answer; sample_failure] (Some "ACME") (Some "2024")
    = Ok f
    /\ combine_incremental_results "2026-01-01T10:00:00"
         ([risk_answer; business_answer; sample_failure]
          ++ [risk_answer; business_answer; sample_failure])
         (Some "ACME") (Some "2024")
       = Ok f'
    /\ CATEGORIES f' = CATEGORIES f
    /\ lookup_section (CATEGORIES f) part_I "Item 1A. Risk Factors"
       = Some (PDict [("content", PStr "risks")]).
Proof.
  destruct (combine_accepted_ok "2026-01-01T10:00:00"
              [risk_answer; business_answer; sample_failure]
              (Some "ACME") (Some "2024") eq_refl) as [f Hf].
  destruct (proj1 combine_idempotent_on_categories _ _ _ _ _ Hf)
    as (f' & Hf' & Hcat).
  exists f, f'. repeat split; auto.
  change part_I with (determine_section_category "Item 1A. Risk Factors").
  rewrite (proj1 (proj2 combine_idempotent_on_categories) _ _ _ _ _
             "Item 1A. Risk Factors" Hf).
  reflexivity.
Defined.

(** ** Boundary detector *)

Lemma insert_by_position_perm (b : Boundary) (l : list Boundary) :
  Permutation (b :: l) (insert_by_position b l).
Proof.
  induction l as [| x r IH]; simpl; auto.
  destruct (b_position b <=? b_position x)%Z; auto.
  rewrite perm_swap. now apply perm_skip.
Qed.

Lemma sort_by_position_perm (l : list Boundary) :
  Permutation l (sort_by_position l).
Proof.
  induction l as [| b r IH]; simpl; auto.
  rewrite <- insert_by_position_perm. now apply perm_skip.
Qed.

Lemma insert_by_position_sorted (b : Boundary) (l : list Boundary) :
  StronglySorted by_position l -> StronglySorted by_position (insert_by_position b l).
Proof.
  induction 1 as [| x r Hs IH Hall]; simpl.
  - repeat constructor.
  - destruct (b_position b <=? b_position x)%Z eqn:E.
    + apply Z.leb_le in E. constructor; [constructor; auto|].
      constructor; auto.
      eapply Forall_impl; [|exact Hall]. unfold by_position. intros; lia.
    + apply Z.leb_gt in E. constructor; auto.
      eapply Permutation_Forall; [apply insert_by_position_perm|].
      constructor; auto. unfold by_position. lia.
Qed.

Lemma sort_by_position_sorted (l : list Boundary) :
  StronglySorted by_position (sort_by_position l).
Proof.
  induction l as [| b r IH]; simpl; [constructor|].
  now apply insert_by_position_sorted.
Qed.

Lemma confidence_gt_lt (a b : Q) : confidence_gt a b = true <-> (b < a)%Q.
Proof.
  unfold confidence_gt. rewrite negb_true_iff.
  split; intros H.
  - apply Qnot_le_lt. intros Hle. apply Qle_bool_iff in Hle. congruence.
  - destruct (Qle_bool a b) eqn:E; auto.
    apply Qle_bool_iff in E. exfalso. eapply Qlt_not_le; eauto.
Qed.

Lemma confidence_gt_le (a b : Q) : confidence_gt a b = false <-> (a <= b)%Q.
Proof.
  unfold confidence_gt. rewrite negb_false_iff. apply Qle_bool_iff.
Qed.

Lemma option_string_eqb_eq (a b : option string) :
  option_string_eqb a b = true <-> a = b.
Proof.
  destruct a, b; simpl; split; intros H; try congruence.
  - apply String.eqb_eq in H. congruence.
  - injection H as ->. apply String.eqb_refl.
Qed.

Lemma has_item_iff (k : string) (b : Boundary) :
  has_item k b = true <-> b_item_number b = Some k.
Proof. apply option_string_eqb_eq. Qed.

Lemma boundary_eqb_parts (x y : Boundary) :
  boundary_eqb x y = true ->
  b_item_number x = b_item_number y /\ b_title x = b_title y.
Proof.
  unfold boundary_eqb. rewrite !andb_true_iff.
  intros ((((((((_ & _) & _) & _) & Hi) & Ht) & _) & _) & _).
  split; [now apply option_string_eqb_eq | now apply String.eqb_eq].
Qed.

Lemma boundary_eqb_refl (x : Boundary) : boundary_eqb x x = true.
Proof.
  unfold boundary_eqb.
  rewrite !String.eqb_refl, !Z.eqb_refl.
  replace (Qeq_bool (b_confidence x) (b_confidence x)) with true
    by (symmetry; apply Qeq_bool_iff; reflexivity).
  replace (option_string_eqb (b_item_number x) (b_item_number x)) with true
    by (symmetry; now apply option_string_eqb_eq).
  reflexivity.
Qed.

Lemma boundary_eqb_key (str_upper : string -> string) (x y : Boundary) :
  boundary_eqb x y = true -> key_of str_upper x = key_of str_upper y.
Proof.
  intros H. apply boundary_eqb_parts in H as [Hi Ht].
  unfold key_of. now rewrite Hi, Ht.
Qed.

Lemma seen_get_set (k k' : string) (b : Boundary) (d : seen_dict) :
  seen_get k' (seen_set k b d)
  = if String.eqb k' k then Some b else seen_get k' d.
Proof.
  induction d as [| [k0 b0] r IH]; simpl.
  - reflexivity.
  - destruct (String.eqb k k0) eqn:E; simpl.
    + apply String.eqb_eq in E. subst k0.
      destruct (String.eqb k' k); reflexivity.
    + rewrite IH. destruct (String.eqb k' k0) eqn:E0; auto.
      destruct (String.eqb k' k) eqn:E1; auto.
      apply String.eqb_eq in E0, E1. subst. now rewrite String.eqb_refl in E.
Qed.

(** [list.remove] finds its element when it is in the list; it takes away
    one element equal to it and leaves the others. *)
Lemma list_remove_in (x : Boundary) (l : list Boundary) :
  In x l ->
  exists pre y post,
    list_remove x l = Ok (pre ++ post)
    /\ l = pre ++ y :: post
    /\ boundary_eqb y x = true
    /\ Forall (fun z => boundary_eqb z x = false) pre.
Proof.
  induction l as [| z r IH]; simpl; [tauto|].
  intros Hin. destruct (boundary_eqb z x) eqn:E.
  - exists [], z, r. repeat split; auto.
  - destruct IH as (pre & y & post & -> & -> & Hy & Hpre).
    + destruct Hin as [-> | Hin]; auto. now rewrite boundary_eqb_refl in E.
    + exists (z :: pre), y, post. simpl. repeat split; auto.
Qed.

Lemma strongly_sorted_app_inv {A : Type} (R : A -> A -> Prop) (l1 l2 : list A) :
  StronglySorted R (l1 ++ l2) ->
  StronglySorted R l1 /\ StronglySorted R l2
  /\ forall x y, In x l1 -> In y l2 -> R x y.
Proof.
  induction l1 as [| a r IH]; simpl; intros H.
  - repeat split; auto; [constructor | intros x y []].
  - inversion H as [| ? ? Hs Hall]; subst.
    destruct (IH Hs) as (H1 & H2 & H12).
    apply Forall_app in Hall as [Ha1 Ha2].
    repeat split; auto.
    + constructor; auto.
    + intros x y [<- | Hx] Hy; auto.
      rewrite Forall_forall in Ha2. auto.
Qed.

Lemma strongly_sorted_snoc {A : Type} (R : A -> A -> Prop) (l : list A) (b : A) :
  StronglySorted R l -> Forall (fun a => R a b) l -> StronglySorted R (l ++ [b]).
Proof.
  induction 1 as [| a r Hs IH Hall]; simpl; intros Hb.
  - repeat constructor.
  - inversion Hb; subst. constructor; auto.
    apply Forall_app. split; auto.
Qed.

Lemma item_number_truthy_iff (o : option string) :
  item_number_truthy o = true <-> exists k, o = Some k /\ k <> "".
Proof.
  destruct o as [s|]; simpl.
  - rewrite negb_true_iff. split.
    + intros H. exists s. split; auto. intros ->. discriminate.
    + intros (k & [= ->] & Hk). destruct (String.eqb k "") eqn:E; auto.
      apply String.eqb_eq in E. contradiction.
  - split; [discriminate|]. intros (k & H & _). discriminate.
Qed.

Lemma has_item_falsy (k : string) (b : Boundary) :
  k <> "" -> item_number_truthy (b_item_number b) = false -> has_item k b = false.
Proof.
  intros Hk Hf. destruct (has_item k b) eqn:E; auto.
  apply has_item_iff in E.
  assert (item_number_truthy (b_item_number b) = true)
    by (apply item_number_truthy_iff; eauto).
  congruence.
Qed.

Lemma has_item_key (str_upper : string -> string) (k : string) (b : Boundary) :
  k <> "" -> has_item k b = true -> key_of str_upper b = k.
Proof.
  intros Hk H. apply has_item_iff in H. unfold key_of. rewrite H. simpl.
  destruct (String.eqb k "") eqn:E; auto.
  apply String.eqb_eq in E. contradiction.
Qed.

Lemma filter_singleton_middle {A : Type} (p : A -> bool) (l1 l2 : list A) (y s : A) :
  p y = true -> filter p (l1 ++ y :: l2) = [s] ->
  filter p (l1 ++ l2) = [].
Proof.
  intros Hy. rewrite !filter_app. simpl. rewrite Hy.
  destruct (filter p l1); simpl; intros H.
  - injection H as _ ->. reflexivity.
  - injection H as _ H. destruct l; discriminate.
Qed.

Section DetectorFacts.

Variable str_upper : string -> string.
Variable document_content : string.

Lemma filter_inv_skip (pre : list Boundary) (st : filter_state) (b : Boundary) :
  filter_inv str_upper pre st ->
  (forall k, k <> "" -> has_item k b = true ->
     exists s, seen_get k (seen_items st) = Some s
               /\ (b_confidence b <= b_confidence s)%Q
               /\ (b_position s <= b_position b)%Z) ->
  filter_inv str_upper (pre ++ [b]) st.
Proof.
  intros [Hseen Hfil Hone Hbest] Hb. constructor; auto.
  - intros k s H. destruct (Hseen k s H) as (? & ? & ?).
    repeat split; auto. apply in_or_app; auto.
  - intros x H. apply in_or_app; auto.
  - intros k b' Hk Hin Hhas. apply in_app_or in Hin as [Hin | [<- | []]]; auto.
    destruct (Hb k Hk Hhas) as (s & Hs & Hc & Hp). eauto.
Qed.

Lemma filter_inv_item (pre : list Boundary) (st : filter_state)
    (kept : list Boundary) (b : Boundary) (k0 : string) :
  filter_inv str_upper pre st ->
  b_item_number b = Some k0 -> k0 <> "" ->
  (forall x, In x kept -> In x (filtered_boundaries st)) ->
  (forall k s, k <> k0 -> seen_get k (seen_items st) = Some s -> In s kept) ->
  (forall k, k <> "" -> k <> k0 ->
     filter (has_item k) kept = filter (has_item k) (filtered_boundaries st)) ->
  filter (has_item k0) kept = [] ->
  (forall b', In b' pre -> has_item k0 b' = true ->
     (b_confidence b' < b_confidence b)%Q) ->
  filter_inv str_upper (pre ++ [b])
    (mkFilterState (kept ++ [b]) (seen_set k0 b (seen_items st))).
Proof.
  intros [Hseen Hfil Hone Hbest] Hitem Hk0 Hkept Hothers Hfilter Hempty Hless.
  assert (Hb0 : has_item k0 b = true) by now apply has_item_iff.
  assert (Hbk : forall k, k <> k0 -> has_item k b = false).
  { intros k Hk. destruct (has_item k b) eqn:E; auto.
    apply has_item_iff in E. congruence. }
  assert (Hneq : forall k, String.eqb k k0 = false -> k <> k0)
    by (intros k E ->; now rewrite String.eqb_refl in E).
  constructor; simpl.
  - intros k s. rewrite seen_get_set.
    destruct (String.eqb k k0) eqn:E.
    + apply String.eqb_eq in E. subst k. intros [= <-].
      repeat split; try (apply in_or_app; simpl; auto).
      now apply has_item_key.
    + intros H. destruct (Hseen k s H) as (? & ? & ?).
      repeat split; auto; apply in_or_app; eauto.
  - intros x H. apply in_or_app.
    apply in_app_or in H as [H | H]; auto.
  - intros k Hk. rewrite filter_app, seen_get_set. simpl.
    destruct (String.eqb k k0) eqn:E.
    + apply String.eqb_eq in E. subst k. now rewrite Hb0, Hempty.
    + rewrite (Hbk k), app_nil_r, Hfilter; auto.
  - intros k b' Hk Hin Hhas. rewrite seen_get_set.
    destruct (String.eqb k k0) eqn:E.
    + apply String.eqb_eq in E. subst k. exists b. split; auto.
      apply in_app_or in Hin as [Hin | [<- | []]].
      * pose proof (Hless b' Hin Hhas). split; auto. now apply Qlt_le_weak.
      * split; [apply Qle_refl | right; lia].
    + apply in_app_or in Hin as [Hin | [<- | []]]; auto.
      rewrite Hbk in Hhas; auto. discriminate.
Qed.

Lemma filter_inv_part (pre : list Boundary) (st : filter_state) (b : Boundary) :
  filter_inv str_upper pre st ->
  item_number_truthy (b_item_number b) = false ->
  seen_get (key_of str_upper b) (seen_items st) = None ->
  filter_inv str_upper (pre ++ [b])
    (mkFilterState (filtered_boundaries st ++ [b])
                   (seen_set (key_of str_upper b) b (seen_items st))).
Proof.
  intros [Hseen Hfil Hone Hbest] Hfalsy Hnone.
  constructor; simpl.
  - intros k s. rewrite seen_get_set.
    destruct (String.eqb k (key_of str_upper b)) eqn:E.
    + apply String.eqb_eq in E. subst k. intros [= <-].
      repeat split; apply in_or_app; simpl; auto.
    + intros H. destruct (Hseen k s H) as (? & ? & ?).
      repeat split; auto; apply in_or_app; eauto.
  - intros x H. apply in_or_app.
    apply in_app_or in H as [H | H]; auto.
  - intros k Hk. rewrite filter_app, seen_get_set. simpl.
    rewrite (has_item_falsy k b Hk Hfalsy), app_nil_r, (Hone k Hk).
    destruct (String.eqb k (key_of str_upper b)) eqn:E; auto.
    apply String.eqb_eq in E. rewrite (has_item_falsy k b Hk Hfalsy).
    subst k. now rewrite Hnone.
  - intros k b' Hk Hin Hhas. rewrite seen_get_set.
    apply in_app_or in Hin as [Hin | [<- | []]].
    + destruct (Hbest k b' Hk Hin Hhas) as (s & Hs & Hc).
      destruct (String.eqb k (key_of str_upper b)) eqn:E; eauto.
      apply String.eqb_eq in E. subst k. congruence.
    + rewrite (has_item_falsy k b Hk Hfalsy) in Hhas. discriminate.
Qed.

Lemma filter_step_inv (pre : list Boundary) (st : filter_state) (b : Boundary) :
  filter_inv str_upper pre st ->
  (forall x, In x pre -> by_position x b) ->
  exists st',
    filter_step str_upper document_content st b = Ok st'
    /\ filter_inv str_upper (pre ++ [b]) st'.
Proof.
  intros Hinv Hsorted. pose proof Hinv as [Hseen Hfil Hone Hbest].
  unfold filter_step.
  destruct (item_number_truthy (b_item_number b)) eqn:T.
  - destruct (proj1 (item_number_truthy_iff _) T) as (k0 & Hitem & Hk0).
    rewrite Hitem.
    assert (Hb0 : has_item k0 b = true) by now apply has_item_iff.
    assert (Honly : forall k, has_item k b = true -> k = k0).
    { intros k Hk. apply has_item_iff in Hk. congruence. }
    destruct (seen_get k0 (seen_items st)) as [old|] eqn:S.
    + destruct (Hseen k0 old S) as (Hin_old & Hkey_old & Hpre_old).
      destruct (confidence_gt (b_confidence b) (b_confidence old)) eqn:G.
      * apply confidence_gt_lt in G.
        destruct (list_remove_in old _ Hin_old)
          as (l1 & y & l2 & -> & Hsplit & Hy & _).
        simpl. eexists. split; [reflexivity|].
        pose proof (boundary_eqb_key str_upper _ _ Hy) as Hykey.
        pose proof (proj1 (boundary_eqb_parts _ _ Hy)) as Hyitem.
        apply filter_inv_item; auto.
        -- intros x Hx. rewrite Hsplit. apply in_or_app.
           apply in_app_or in Hx as [Hx | Hx]; simpl; auto.
        -- intros k s Hk Hs. destruct (Hseen k s Hs) as (Hin_s & Hkey_s & _).
           rewrite Hsplit in Hin_s. apply in_or_app.
           apply in_app_or in Hin_s as [Hin_s | [Heq | Hin_s]]; auto.
           subst s. congruence.
        -- intros k Hk Hkk. rewrite Hsplit, !filter_app. simpl.
           destruct (has_item k y) eqn:Hiy; auto.
           apply (has_item_key str_upper) in Hiy; auto. congruence.
        -- pose proof (Hone k0 Hk0) as H1. rewrite S, Hsplit in H1.
           assert (Hsame : has_item k0 y = has_item k0 old)
             by (unfold has_item; now rewrite Hyitem).
           destruct (has_item k0 old) eqn:Hio.
           ++ eapply filter_singleton_middle; eauto.
           ++ rewrite filter_app in *. simpl in H1. now rewrite Hsame in H1.
        -- intros b' Hb' Hhas.
           destruct (Hbest k0 b' Hk0 Hb' Hhas) as (s & Hs & Hle & _).
           assert (s = old) by congruence. subst s.
           eapply Qle_lt_trans; eauto.
      * apply confidence_gt_le in G. eexists. split; [reflexivity|].
        apply filter_inv_skip; auto.
        intros k Hk Hhas. apply Honly in Hhas. subst k.
        exists old. repeat split; auto. now apply Hsorted.
    + eexists. split; [reflexivity|].
      apply filter_inv_item; auto.
      * intros k s _ Hs. now destruct (Hseen k s Hs).
      * pose proof (Hone k0 Hk0) as H1. now rewrite S in H1.
      * intros b' Hb' Hhas.
        destruct (Hbest k0 b' Hk0 Hb' Hhas) as (s & Hs & _). congruence.
  - assert (Hkey : str_upper (strip (b_title b)) = key_of str_upper b)
      by (unfold key_of; now rewrite T).
    rewrite Hkey.
    assert (Hskip : filter_inv str_upper (pre ++ [b]) st).
    { apply filter_inv_skip; auto. intros k Hk Hhas.
      rewrite (has_item_falsy k b Hk T) in Hhas. discriminate. }
    destruct (seen_get (key_of str_upper b) (seen_items st)) eqn:S; [eauto|].
    destruct (100 <? len _); [|eauto].
    eexists. split; [reflexivity|]. now apply filter_inv_part.
Qed.

Lemma filter_loop_inv (rest pre : list Boundary) (st : filter_state) :
  filter_inv str_upper pre st ->
  StronglySorted by_position (pre ++ rest) ->
  exists st',
    filter_loop str_upper document_content st rest = Ok st'
    /\ filter_inv str_upper (pre ++ rest) st'.
Proof.
  revert pre st. induction rest as [| b rest IH]; intros pre st Hinv Hs; simpl.
  - rewrite app_nil_r. eauto.
  - destruct (filter_step_inv pre st b Hinv) as (st1 & -> & Hinv1).
    + intros x Hx.
      apply strongly_sorted_app_inv in Hs as (_ & _ & H). apply H; simpl; auto.
    + simpl. replace (pre ++ b :: rest) with ((pre ++ [b]) ++ rest) in *
        by (now rewrite <- app_assoc).
      now apply IH.
Qed.

Lemma filter_inv_initial : filter_inv str_upper [] (mkFilterState [] []).
Proof.
  constructor; simpl; try discriminate; auto. intros k b' _ [].
Qed.

End DetectorFacts.

Lemma filter_length_perm {A : Type} (p : A -> bool) (l l' : list A) :
  Permutation l l' -> List.length (filter p l) = List.length (filter p l').
Proof.
  induction 1 as [| x l l' _ IH | x y l | l l' l'' _ IH1 _ IH2]; simpl; auto.
  - destruct (p x); simpl; auto.
  - destruct (p x), (p y); simpl; auto.
  - congruence.
Qed.

Lemma drop_close_in (l acc : list Boundary) (b : Boundary) :
  In b (drop_close acc l) -> In b acc \/ In b l.
Proof.
  revert acc. induction l as [| x rest IH]; simpl; intros acc H; auto.
  destruct (is_too_close x acc).
  - destruct (IH _ H); auto.
  - destruct (IH _ H) as [H' | H']; auto.
    apply in_app_or in H' as [H' | [<- | []]]; auto.
Qed.

Lemma drop_close_filter_length (p : Boundary -> bool) (l acc : list Boundary) :
  List.length (filter p (drop_close acc l))
  <= List.length (filter p acc) + List.length (filter p l).
Proof.
  revert acc. induction l as [| x rest IH]; simpl; intros acc.
  - lia.
  - destruct (is_too_close x acc).
    + specialize (IH acc). destruct (p x); simpl; lia.
    + specialize (IH (acc ++ [x])). rewrite filter_app, length_app in IH.
      simpl in IH. destruct (p x); simpl in *; lia.
Qed.

Lemma not_too_close (b : Boundary) (acc : list Boundary) :
  is_too_close b acc = false ->
  Forall (fun a => (200 <= Z.abs (b_position b - b_position a))%Z) acc.
Proof.
  unfold is_too_close. induction acc as [| a r IH]; simpl; intros H.
  - constructor.
  - apply orb_false_iff in H as [H1 H2]. constructor; auto.
    apply Z.ltb_ge in H1. exact H1.
Qed.

Lemma drop_close_spaced (l acc : list Boundary) :
  spaced acc -> StronglySorted by_position l ->
  (forall a x, In a acc -> In x l -> by_position a x) ->
  spaced (drop_close acc l).
Proof.
  unfold spaced, by_position.
  revert acc. induction l as [| b rest IH]; simpl; intros acc Hacc Hl Hle; auto.
  inversion Hl as [| ? ? Hrest Hall]; subst.
  destruct (is_too_close b acc) eqn:E.
  - apply IH; auto.
  - apply IH; auto.
    + apply strongly_sorted_snoc; auto.
      apply not_too_close in E. rewrite Forall_forall in *.
      intros a Ha. specialize (E a Ha). specialize (Hle a b Ha (or_introl eq_refl)).
      lia.
    + intros a x Ha Hx. apply in_app_or in Ha as [Ha | [<- | []]]; auto.
      rewrite Forall_forall in Hall. now apply Hall.
Qed.

Lemma drop_close_acc (l acc : list Boundary) (a : Boundary) :
  In a acc -> In a (drop_close acc l).
Proof.
  revert acc. induction l as [| x rest IH]; intros acc Ha; cbn [drop_close]; auto.
  destruct (is_too_close x acc); apply IH; auto.
  apply in_or_app. auto.
Qed.

Lemma drop_close_covers (l acc : list Boundary) (x : Boundary) :
  In x l ->
  exists a, In a (drop_close acc l)
            /\ (a = x \/ (Z.abs (b_position x - b_position a) < 200)%Z).
Proof.
  revert acc. induction l as [| y rest IH]; intros acc Hx; [destruct Hx|].
  destruct Hx as [Hx | Hx]; cbn [drop_close].
  - subst y. destruct (is_too_close x acc) eqn:E.
    + unfold is_too_close in E. apply existsb_exists in E as (a & Ha & Hclose).
      exists a. split; [now apply drop_close_acc|].
      right. now apply Z.ltb_lt.
    + exists x. split; [|auto]. apply drop_close_acc, in_or_app. simpl. auto.
  - destruct (is_too_close y acc); apply IH; auto.
Qed.

(** What the last pass drops lies in the shadow of a boundary kept before
    it: at most 199 characters after it. *)
Lemma drop_close_shadow (l acc : list Boundary) (x : Boundary) :
  StronglySorted by_position l ->
  (forall a y, In a acc -> In y l -> by_position a y) ->
  In x l ->
  In x (drop_close acc l)
  \/ exists a, In a (drop_close acc l)
               /\ (b_position a <= b_position x < b_position a + 200)%Z.
Proof.
  revert acc. induction l as [| y rest IH]; intros acc Hl Hle Hx; [destruct Hx|].
  inversion Hl as [| ? ? Hrest Hall]; subst.
  cbn [drop_close]. destruct Hx as [Hx | Hx].
  - subst y. destruct (is_too_close x acc) eqn:E.
    + unfold is_too_close in E. apply existsb_exists in E as (a & Ha & Hclose).
      apply Z.ltb_lt in Hclose.
      pose proof (Hle a x Ha (or_introl eq_refl)) as Hax. unfold by_position in Hax.
      right. exists a. split; [now apply drop_close_acc | lia].
    + left. apply drop_close_acc, in_or_app. simpl. auto.
  - destruct (is_too_close y acc).
    + apply IH; auto. intros a z Ha Hz. apply Hle; simpl; auto.
    + apply IH; auto. intros a z Ha Hz.
      apply in_app_or in Ha as [Ha | [<- | []]].
      * apply Hle; simpl; auto.
      * rewrite Forall_forall in Hall. now apply Hall.
Qed.

(** C3, as the code has it.  On every document and every list of matches
    the strategies produce, the detector returns a list; positions go up
    along it, by at least 200 from one boundary to the next; an item
    number is on at most one boundary of it; and a boundary that carries an
    item number is the candidate of greatest confidence for that number
    and, among the candidates of that confidence, one of least position.
    Every boundary of the list is one of the matches.  And an item number
    does not vanish out of sight: for every item number some match carries,
    the candidate the loop has recorded under it, which is of greatest
    confidence and, at that confidence, of least position among the
    candidates of that number, is in the list or at most 199 characters
    after a boundary of the list; when it is in the list and carries the
    number, exactly one boundary of the list carries that number; and it
    carries the number whenever no header without item number has that
    number as its title in capitals, as is the case of the part headers,
    whose title starts with PART. *)
Theorem detect_keeps_best_candidate
    (strategy_matches : string -> list Boundary) (str_upper : string -> string)
    (document_content : string) :
  exists final,
    detect_section_boundaries strategy_matches str_upper document_content = Ok final
    /\ spaced final
    /\ (forall k, k <> "" ->
         List.length (filter (has_item k) final) <= 1
         /\ forall b, In b final -> b_item_number b = Some k ->
              In b (strategy_matches document_content)
              /\ forall b', In b' (strategy_matches document_content) ->
                   b_item_number b' = Some k ->
                   (b_confidence b' <= b_confidence b)%Q
                   /\ ((b_confidence b' == b_confidence b)%Q ->
                       (b_position b <= b_position b')%Z))
    /\ (forall b, In b final -> In b (strategy_matches document_content))
    /\ (forall k b', k <> "" ->
          In b' (strategy_matches document_content) ->
          b_item_number b' = Some k ->
          exists s,
            In s (strategy_matches document_content)
            /\ key_of str_upper s = k
            /\ (forall b'', In b'' (strategy_matches document_content) ->
                  b_item_number b'' = Some k ->
                  (b_confidence b'' <= b_confidence s)%Q
                  /\ ((b_confidence b'' == b_confidence s)%Q ->
                      (b_position s <= b_position b'')%Z))
            /\ (In s final
                \/ exists a, In a final
                     /\ (b_position a <= b_position s < b_position a + 200)%Z)
            /\ (In s final -> b_item_number s = Some k ->
                List.length (filter (has_item k) final) = 1)
            /\ ((forall p, In p (strategy_matches document_content) ->
                            item_number_truthy (b_item_number p) = false ->
                            str_upper (strip (b_title p)) <> k) ->
                b_item_number s = Some k)).
Proof.
  unfold detect_section_boundaries, filter_boundaries.
  set (raw := strategy_matches document_content).
  destruct (filter_loop_inv str_upper document_content (sort_by_position raw) []
              (mkFilterState [] []) (filter_inv_initial str_upper)
              (sort_by_position_sorted raw))
    as (st & -> & [Hseen Hfil Hone Hbest]).
  simpl in *. eexists. split; [reflexivity|].
  set (filtered := filtered_boundaries st) in *.
  assert (Hraw : forall b, In b (sort_by_position raw) -> In b raw).
  { intros b. apply Permutation_in. symmetry. apply sort_by_position_perm. }
  assert (Hcount : forall k, k <> "" ->
            List.length (filter (has_item k) (drop_close [] (sort_by_position filtered)))
            <= 1).
  { intros k Hk.
    pose proof (drop_close_filter_length (has_item k)
                  (sort_by_position filtered) []) as H.
    rewrite <- (filter_length_perm _ _ _ (sort_by_position_perm filtered)) in H.
    rewrite (Hone k Hk) in H. simpl in H.
    destruct (seen_get k (seen_items st)) as [s|]; [|simpl in H; lia].
    destruct (has_item k s); simpl in H; lia. }
  split; [|split; [|split]].
  - apply drop_close_spaced.
    + constructor.
    + apply sort_by_position_sorted.
    + intros a x [].
  - intros k Hk. split; [now apply Hcount|].
    intros b Hb Hitem.
    apply drop_close_in in Hb as [[] | Hb].
    apply (Permutation_in _ (Permutation_sym (sort_by_position_perm filtered)))
      in Hb.
    assert (Hbf : In b (filter (has_item k) filtered))
      by (apply filter_In; split; auto; now apply has_item_iff).
    rewrite (Hone k Hk) in Hbf.
    destruct (seen_get k (seen_items st)) as [s|] eqn:S; [|destruct Hbf].
    destruct (has_item k s); [|destruct Hbf].
    destruct Hbf as [<- | []].
    destruct (Hseen k s S) as (_ & _ & Hpre).
    split.
    + eapply Permutation_in; [symmetry; apply sort_by_position_perm|]. auto.
    + intros b' Hb' Hitem'.
      apply (Permutation_in _ (sort_by_position_perm raw)) in Hb'.
      apply has_item_iff in Hitem'.
      destruct (Hbest k b' Hk Hb' Hitem') as (s' & Hs' & Hle & Htie).
      assert (s' = s) by congruence. subst s'.
      split; auto. intros Heq. destruct Htie as [Hlt | Hpos]; auto.
      exfalso. apply Qlt_not_eq in Hlt. contradiction.
  - intros b Hb. apply drop_close_in in Hb as [[] | Hb].
    apply Hraw, Hfil.
    eapply Permutation_in; [symmetry; apply sort_by_position_perm | exact Hb].
  - intros k b' Hk Hb' Hitem.
    destruct (Hbest k b' Hk) as (s & Hs & _).
    { eapply Permutation_in; [apply sort_by_position_perm | exact Hb']. }
    { now apply has_item_iff. }
    destruct (Hseen k s Hs) as (Hin & Hkey & Hpre).
    exists s. split; [now apply Hraw|]. split; [exact Hkey|].
    split; [|split; [|split]].
    + intros b'' Hb'' Hitem''.
      apply (Permutation_in _ (sort_by_position_perm raw)) in Hb''.
      apply has_item_iff in Hitem''.
      destruct (Hbest k b'' Hk Hb'' Hitem'') as (s' & Hs' & Hle & Htie).
      assert (s' = s) by congruence. subst s'.
      split; auto. intros Heq. destruct Htie as [Hlt | Hpos]; auto.
      exfalso. apply Qlt_not_eq in Hlt. contradiction.
    + apply drop_close_shadow.
      * apply sort_by_position_sorted.
      * intros a y [].
      * eapply Permutation_in; [apply sort_by_position_perm | exact Hin].
    + intros Hfinal Hcarries.
      pose proof (Hcount k Hk) as Hle.
      assert (Hmem : In s (filter (has_item k)
                             (drop_close [] (sort_by_position filtered))))
        by (apply filter_In; split; [exact Hfinal | now apply has_item_iff]).
      destruct (filter (has_item k) (drop_close [] (sort_by_position filtered)))
        as [| x [| y r]]; [destruct Hmem | reflexivity | cbn [List.length] in Hle; lia].
    + intros Hheaders. unfold key_of in Hkey.
      destruct (item_number_truthy (b_item_number s)) eqn:T.
      * destruct (b_item_number s) as [k'|]; [|discriminate]. now subst k'.
      * exfalso. exact (Hheaders s (Hraw s Hpre) T Hkey).
Qed.

(** C3 as stated fails: in the short filing the item number 1A is matched
    by two strategies, and no boundary of the result carries it, since its
    best candidate starts 32 characters after the boundary of item 1 and
    the last pass drops what is within 200 characters of a kept boundary. *)
Lemma detect_drops_matched_item :
  In (short_item_1A "bold_headers" (8 # 10)) short_filing_matches
  /\ In (short_item_1A "standard_headers" (7 # 10)) short_filing_matches
  /\ detect_section_boundaries (fun _ => short_filing_matches) ascii_upper
       short_filing
     = Ok [short_item_1 "bold_headers" (8 # 10)]
  /\ List.length (filter (has_item "1A") [short_item_1 "bold_headers" (8 # 10)])
     <> 1.
Proof.
  repeat split.
  - simpl. tauto.
  - simpl. tauto.
  - vm_compute. discriminate.
Qed.

(** ** Slices *)

Lemma drop_add (a b : nat) (s : string) : drop (a + b) s = drop b (drop a s).
Proof.
  revert s. induction a as [| a IH]; intros s; simpl; auto.
  destruct s; simpl; auto. now destruct b.
Qed.

Lemma take_add (a b : nat) (s : string) :
  take (a + b) s = (take a s ++ take b (drop a s))%string.
Proof.
  revert s. induction a as [| a IH]; intros s; simpl; auto.
  destruct s; simpl.
  - now destruct b.
  - now rewrite IH.
Qed.

Lemma take_all (n : nat) (s : string) : len s <= n -> take n s = s.
Proof.
  revert n. induction s as [| c r IH]; intros [| n]; simpl; intros H; auto.
  - lia.
  - f_equal. apply IH. lia.
Qed.

Lemma slice_app (x y z : nat) (s : string) :
  x <= y -> y <= z -> (slice x y s ++ slice y z s)%string = slice x z s.
Proof.
  intros Hxy Hyz. unfold slice.
  assert (Hd : drop y s = drop (y - x) (drop x s))
    by (rewrite <- drop_add; f_equal; lia).
  rewrite Hd. replace (z - x) with ((y - x) + (z - y)) by lia.
  now rewrite take_add.
Qed.

Lemma py_slice_app (a b c : Z) (s : string) :
  (0 <= a <= b)%Z -> (b <= c)%Z ->
  (py_slice a b s ++ py_slice b c s)%string = py_slice a c s.
Proof.
  intros Hab Hbc. unfold py_slice, slice_index.
  destruct (Z.ltb_spec a 0); [lia|].
  destruct (Z.ltb_spec b 0); [lia|].
  destruct (Z.ltb_spec c 0); [lia|].
  apply slice_app; apply Nat.min_le_compat_r; lia.
Qed.

Lemma py_slice_whole (s : string) : py_slice 0 (Z.of_nat (len s)) s = s.
Proof.
  unfold py_slice, slice_index, slice. simpl.
  destruct (Z.ltb_spec (Z.of_nat (len s)) 0); [lia|].
  rewrite Nat2Z.id, Nat.min_id, Nat.sub_0_r. now apply take_all.
Qed.

(** ** Chunk planner: the chunks are cut at the boundaries *)

Lemma contiguous_snoc (chunks : list PlanChunk) (c : PlanChunk) :
  contiguous chunks (p_start_pos c) -> (p_start_pos c <= p_end_pos c)%Z ->
  contiguous (chunks ++ [c]) (p_end_pos c).
Proof.
  induction chunks as [| x r IH]; simpl; intros H Hc.
  - auto.
  - destruct H as (Hx & Hnext & Hr). repeat split; auto.
    destruct r; simpl in *; auto.
Qed.

Lemma append_nil_r (s : string) : (s ++ "")%string = s.
Proof. induction s; simpl; congruence. Qed.

Lemma contiguous_texts (document_content : string) (chunks : list PlanChunk)
    (to : Z) :
  chunks <> [] -> contiguous chunks to -> (0 <= plan_start chunks)%Z ->
  concat_texts (map (chunk_text document_content) chunks)
  = py_slice (plan_start chunks) to document_content
  /\ (plan_start chunks <= to)%Z.
Proof.
  induction chunks as [| c r IH]; [congruence|].
  intros _ (Hc & Hnext & Hr) H0. simpl in *.
  destruct r as [| c' r'].
  - subst to. simpl. unfold chunk_text. split; [apply append_nil_r | lia].
  - destruct IH as [IH1 IH2]; auto; try discriminate.
    { simpl. lia. }
    simpl in IH1, IH2. unfold concat_texts in *.
    cbn [map fold_right] in *.
    rewrite IH1. unfold chunk_text. rewrite Hnext. split; [|lia].
    apply py_slice_app; lia.
Qed.

Lemma flush_inv (p0 p : Z) (chunks : list PlanChunk) (current_chunk : PlanChunk) :
  plan_inv p0 p chunks current_chunk ->
  contiguous (flush chunks current_chunk p) p
  /\ (flush chunks current_chunk p = [] ->
      chunks = [] /\ p_sections current_chunk = [])
  /\ match flush chunks current_chunk p with
     | c :: _ => p_start_pos c = 0%Z \/ p_start_pos c = p0
     | [] => True
     end.
Proof.
  intros [Hchain Hfirst Hpending Hidle Hrange]. unfold flush.
  destruct (p_sections current_chunk) as [| s0 secs] eqn:S.
  - split; [|split].
    + destruct chunks as [| c r]; [exact I|].
      rewrite <- (Hidle eq_refl); [exact Hchain | discriminate].
    + auto.
    + destruct chunks; auto.
  - split; [|split].
    + match goal with |- contiguous (_ ++ [?c]) _ =>
        apply (contiguous_snoc chunks c) end; simpl; auto.
      apply Hpending. discriminate.
    + intros H. destruct chunks; discriminate.
    + destruct chunks as [| c r]; simpl; auto.
Qed.

Lemma plan_loop_inv (document_content : string) (available_tokens max_output_tokens p0 : Z)
    (rest : list Boundary) :
  forall chunks current_chunk chunks' current_chunk',
    boundaries_in_order document_content rest ->
    plan_inv p0 (next_pos document_content rest) chunks current_chunk ->
    plan_loop document_content available_tokens max_output_tokens rest
              chunks current_chunk = (chunks', current_chunk') ->
    plan_inv p0 (Z.of_nat (len document_content)) chunks' current_chunk'
    /\ (rest <> [] -> chunks' <> [] \/ p_sections current_chunk' <> []).
Proof.
  induction rest as [| b rest IH];
    intros chunks current_chunk chunks' current_chunk' [Hsorted Hrange] Hinv Hrun.
  - simpl in *. injection Hrun as <- <-. split; [exact Hinv | congruence].
  - cbn [plan_loop] in Hrun. cbn [next_pos] in Hinv.
    inversion Hsorted as [| ? ? Hsorted' Hall]; subst.
    inversion Hrange as [| ? ? Hb Hrange']; subst.
    assert (Hnext : (b_position b <= next_pos document_content rest)%Z).
    { destruct rest as [| b' r]; simpl; [lia|].
      inversion Hall; subst. assumption. }
    fold (next_pos document_content rest) in Hrun.
    set (p := b_position b) in *.
    set (p' := next_pos document_content rest) in *.
    destruct (flush_inv p0 p chunks current_chunk Hinv)
      as (Hflush & Hflush_nil & Hflush_head).
    pose proof Hinv as [Hchain Hfirst Hpending Hidle Hr0].
    assert (Hlater : forall c cur,
      plan_inv p0 p' c cur -> (c <> [] \/ p_sections cur <> []) ->
      plan_loop document_content available_tokens max_output_tokens rest c cur
      = (chunks', current_chunk') ->
      plan_inv p0 (Z.of_nat (len document_content)) chunks' current_chunk'
      /\ (b :: rest <> [] -> chunks' <> [] \/ p_sections current_chunk' <> [])).
    { intros c cur Hi Hne Hr.
      destruct (IH c cur chunks' current_chunk') as [H1 H2]; auto.
      { split; auto. }
      split; auto. intros _.
      destruct rest as [| b' r]; [|apply H2; discriminate].
      simpl in Hr. injection Hr as <- <-. exact Hne. }
    destruct (is_large_section _ available_tokens).
    + eapply Hlater; [| |exact Hrun].
      * constructor; simpl.
        -- match goal with |- contiguous (_ ++ [?c]) _ =>
             apply (contiguous_snoc (flush chunks current_chunk p) c) end;
             simpl; auto.
        -- destruct (flush chunks current_chunk p) as [| c r] eqn:F; simpl; auto.
           destruct (Hflush_nil eq_refl) as [-> Hs]. rewrite Hs in Hfirst.
           right. tauto.
        -- congruence.
        -- reflexivity.
        -- lia.
      * left. destruct (flush chunks current_chunk p); discriminate.
    + destruct (_ || _).
      * eapply Hlater; [| |exact Hrun].
        -- constructor; simpl; auto.
           ++ destruct (flush chunks current_chunk p) as [| c r] eqn:F; simpl; auto.
              destruct (Hflush_nil eq_refl) as [-> Hs]. rewrite Hs in Hfirst.
              right. tauto.
           ++ discriminate.
           ++ lia.
        -- right. simpl. discriminate.
      * eapply Hlater; [| |exact Hrun].
        -- constructor; simpl; auto.
           ++ destruct chunks as [| c r]; auto.
              destruct (p_sections current_chunk) eqn:S; simpl; tauto.
           ++ intros _. destruct (p_sections current_chunk) eqn:S.
              ** destruct chunks as [| c r].
                 --- destruct Hfirst as [-> _]. lia.
                 --- rewrite Hidle; auto. discriminate.
              ** assert (p_start_pos current_chunk <= p)%Z
                   by (apply Hpending; discriminate). lia.
           ++ intros H. destruct (p_sections current_chunk); discriminate.
           ++ lia.
        -- right. simpl. destruct (p_sections current_chunk); discriminate.
Qed.

Lemma number_chunks_content (document_content : string) (chunks : list PlanChunk)
    (i : Z) :
  map content (number_chunks document_content i chunks)
  = map (chunk_text document_content) chunks.
Proof.
  revert i. induction chunks as [| c r IH]; intros i; simpl; auto.
  now rewrite IH.
Qed.

Lemma plan_result (self : TenKProcessor) (document_content : string)
    (boundaries : list Boundary) (max_input_tokens max_output_tokens p0 : Z)
    (chunks : list PlanChunk) (current_chunk : PlanChunk) :
  boundaries <> [] ->
  boundaries_in_order document_content boundaries ->
  plan_inv p0 (next_pos document_content boundaries) chunks current_chunk ->
  let '(chunks', current_chunk') :=
    plan_loop document_content (available_tokens_of self max_input_tokens)
              max_output_tokens boundaries chunks current_chunk in
  let plan := flush chunks' current_chunk' (Z.of_nat (len document_content)) in
  plan <> []
  /\ contiguous plan (Z.of_nat (len document_content))
  /\ (plan_start plan = 0%Z \/ plan_start plan = p0)
  /\ (0 <= p0)%Z.
Proof.
  intros Hne Hord Hinv.
  destruct (plan_loop _ _ _ boundaries chunks current_chunk)
    as [chunks' current_chunk'] eqn:Hrun.
  destruct (plan_loop_inv _ _ _ _ _ _ _ _ _ Hord Hinv Hrun) as [Hfinal Hsome].
  specialize (Hsome Hne).
  destruct (flush_inv _ _ _ _ Hfinal) as (Hchain & Hnil & Hhead).
  destruct Hfinal as [_ _ _ _ Hrange].
  split; [|split; [|split]]; auto; try lia.
  - intros H. destruct (Hnil H) as [H1 H2]. destruct Hsome; congruence.
  - destruct (flush chunks' current_chunk' _) as [| c r]; simpl; auto.
Qed.

(** C1, as the code has it.  For a document and boundaries that lie in
    it in order of position, at least one, the planned chunks follow one
    another without gap or overlap up to the end of the document; the
    first starts at position 0 or at the first boundary; the texts of the
    chunks, which are the [content] of the processing chunks, concatenate
    to the document from the start of the first chunk on.  That is the
    whole document when the first chunk starts at 0, which is so when the
    first section fits into the chunk opened at 0. *)
Theorem chunks_reconstruct_document (self : TenKProcessor)
    (document_content : string) (boundaries : list Boundary)
    (max_input_tokens max_output_tokens : Z)
    (Hsome : boundaries <> [])
    (Hord : boundaries_in_order document_content boundaries) :
  let chunks :=
    create_processing_chunks self document_content boundaries
                             max_input_tokens max_output_tokens in
  let texts := map content (number_chunks document_content 0 chunks) in
  chunks <> []
  /\ contiguous chunks (Z.of_nat (len document_content))
  /\ (plan_start chunks = 0%Z
      \/ plan_start chunks = next_pos document_content boundaries)
  /\ concat_texts texts
     = py_slice (plan_start chunks) (Z.of_nat (len document_content))
                document_content
  /\ (plan_start chunks = 0%Z -> concat_texts texts = document_content)
  /\ (first_section_fits self document_content boundaries
                         max_input_tokens max_output_tokens = true ->
      concat_texts texts = document_content).
Proof.
  intros chunks texts. subst texts. rewrite number_chunks_content.
  assert (Hfirst_pos : (0 <= next_pos document_content boundaries)%Z).
  { destruct boundaries as [| b r]; [congruence|]. simpl.
    destruct Hord as [_ Hr]. inversion Hr; subst. lia. }
  assert (Hmain :
    chunks <> [] /\ contiguous chunks (Z.of_nat (len document_content))
    /\ (plan_start chunks = 0%Z
        \/ plan_start chunks = next_pos document_content boundaries)).
  { subst chunks. unfold create_processing_chunks.
    pose proof (plan_result self document_content boundaries max_input_tokens
                  max_output_tokens (next_pos document_content boundaries)
                  [] (empty_chunk 0) Hsome Hord) as H.
    destruct (plan_loop _ _ _ boundaries [] (empty_chunk 0)) as [c' cur'].
    destruct H as (H1 & H2 & H3 & _); auto.
    constructor; simpl; auto; try congruence. lia. }
  destruct Hmain as (Hne & Hchain & Hstart).
  assert (H0 : (0 <= plan_start chunks)%Z) by (destruct Hstart; lia).
  destruct (contiguous_texts document_content chunks _ Hne Hchain H0) as [Htexts _].
  assert (Hwhole : plan_start chunks = 0%Z ->
            concat_texts (map (chunk_text document_content) chunks)
            = document_content).
  { intros Hz. rewrite Htexts, Hz. apply py_slice_whole. }
  repeat (split; auto).
  intros Hfits. apply Hwhole.
  destruct boundaries as [| b rest]; [congruence|].
  subst chunks. unfold create_processing_chunks.
  unfold first_section_fits in Hfits. cbn [plan_loop].
  fold (next_pos document_content rest) in *.
  apply andb_true_iff in Hfits as [Hl He].
  apply negb_true_iff in Hl, He. rewrite Hl.
  change (p_estimated_input_tokens (empty_chunk 0)) with 0%Z.
  change (p_estimated_output_tokens (empty_chunk 0)) with float_zero.
  rewrite He.
  destruct Hord as [Hsorted Hrange].
  inversion Hsorted as [| ? ? Hsorted' Hall]; subst.
  inversion Hrange as [| ? ? Hb Hrange']; subst.
  destruct rest as [| b' rest'].
  - simpl. reflexivity.
  - match goal with |- context [plan_loop _ _ _ _ ?c ?cur] =>
      set (cur1 := cur) end.
    assert (Hinv : plan_inv 0 (next_pos document_content (b' :: rest')) [] cur1).
    { inversion Hall; subst. unfold by_position in *.
      constructor; subst cur1; simpl; auto; try discriminate; lia. }
    pose proof (plan_result self document_content (b' :: rest') max_input_tokens
                  max_output_tokens 0 [] cur1 ltac:(discriminate)
                  (conj Hsorted' Hrange') Hinv) as H.
    unfold available_tokens_of in *.
    destruct (plan_loop _ _ _ (b' :: rest') [] cur1) as [c' cur'].
    destruct H as (_ & _ & Hs & _). destruct Hs; auto.
Qed.

(** ** Chunk planner: the budgets *)

Lemma not_large_within (available_tokens t : Z) :
  threshold_within available_tokens = true ->
  is_large_section t available_tokens = false ->
  (t <= available_tokens)%Z.
Proof.
  unfold threshold_within, is_large_section, int_gt_float.
  destruct (fmul (float_of_int available_tokens) float_0_8) as [s | s | | s m e];
    cbn [float_cmp_int].
  - destruct (Z.compare_spec 0 available_tokens); try discriminate;
      destruct (Z.compare_spec 0 t); try discriminate; intros; lia.
  - destruct s; discriminate.
  - discriminate.
  - destruct (0 <=? e)%Z eqn:E.
    + destruct (Z.compare_spec (cond_Zopp s (Z.pos m) * 2 ^ e) available_tokens);
        try discriminate;
        destruct (Z.compare_spec (cond_Zopp s (Z.pos m) * 2 ^ e) t);
        try discriminate; intros; lia.
    + apply Z.leb_gt in E.
      assert (Hpow : (0 < 2 ^ (- e))%Z) by (apply Z.pow_pos_nonneg; lia).
      destruct (Z.compare_spec (cond_Zopp s (Z.pos m))
                               (available_tokens * 2 ^ (- e)));
        try discriminate;
        destruct (Z.compare_spec (cond_Zopp s (Z.pos m)) (t * 2 ^ (- e)));
        try discriminate; intros _ _;
        apply (Z.mul_le_mono_pos_r _ _ (2 ^ (- e))%Z); auto; lia.
Qed.

Lemma flush_budget (available_tokens max_output_tokens : Z)
    (chunks : list PlanChunk) (current_chunk : PlanChunk) (e : Z) :
  Forall (chunk_ok available_tokens max_output_tokens) chunks ->
  (p_sections current_chunk <> [] ->
   within_budget available_tokens max_output_tokens current_chunk) ->
  Forall (chunk_ok available_tokens max_output_tokens)
         (flush chunks current_chunk e).
Proof.
  intros Hchunks Hcur. unfold flush.
  destruct (p_sections current_chunk) as [| s0 secs] eqn:S; auto.
  apply Forall_app. split; auto. constructor; auto.
  right. destruct Hcur as [H1 H2]; [congruence|].
  unfold within_budget in *. rewrite S in H2. simpl. auto.
Qed.

Lemma plan_loop_budget (document_content : string)
    (available_tokens max_output_tokens : Z) (boundaries : list Boundary) :
  threshold_within available_tokens = true ->
  forall chunks current_chunk chunks' current_chunk',
    Forall (chunk_ok available_tokens max_output_tokens) chunks ->
    (p_sections current_chunk <> [] ->
     within_budget available_tokens max_output_tokens current_chunk) ->
    plan_loop document_content available_tokens max_output_tokens boundaries
              chunks current_chunk = (chunks', current_chunk') ->
    Forall (chunk_ok available_tokens max_output_tokens) chunks'
    /\ (p_sections current_chunk' <> [] ->
        within_budget available_tokens max_output_tokens current_chunk').
Proof.
  intros Hthr. induction boundaries as [| b rest IH];
    intros chunks current_chunk chunks' current_chunk' Hchunks Hcur Hrun.
  - simpl in Hrun. injection Hrun as <- <-. auto.
  - cbn [plan_loop] in Hrun.
    assert (Hflush : forall e,
              Forall (chunk_ok available_tokens max_output_tokens)
                     (flush chunks current_chunk e))
      by (intros e; now apply flush_budget).
    destruct (is_large_section _ available_tokens) eqn:L.
    + eapply IH; [| |exact Hrun].
      * apply Forall_app. split; auto. constructor; auto.
        left. do 2 eexists. simpl. repeat split; eauto.
      * simpl. congruence.
    + apply (not_large_within _ _ Hthr) in L.
      destruct (_ >? _)%Z eqn:Ein; simpl in Hrun.
      * eapply IH; [| |exact Hrun]; auto.
        intros _. split; simpl; [lia|]. intros H. lia.
      * destruct (float_gt_int _ max_output_tokens) eqn:Eout.
        -- eapply IH; [| |exact Hrun]; auto.
           intros _. split; simpl; [lia|]. intros H. lia.
        -- eapply IH; [| |exact Hrun]; auto.
           intros _. split; simpl; auto.
           rewrite Z.gtb_ltb in Ein. apply Z.ltb_ge in Ein. lia.
Qed.

(** C5, as the code has it.  When the 80% threshold of the available
    tokens is computed within them, every planned chunk that is not a
    dedicated large-section chunk has an estimated input within the
    available tokens, which are the input budget less the system prompt
    and a reserve of 1000; and a chunk of two sections or more has an
    estimated output within the output budget. *)
Theorem planned_chunks_within_budget (self : TenKProcessor)
    (document_content : string) (boundaries : list Boundary)
    (max_input_tokens max_output_tokens : Z)
    (Hthr : threshold_within (available_tokens_of self max_input_tokens) = true) :
  let available_tokens := available_tokens_of self max_input_tokens in
  (available_tokens <= max_input_tokens - 1000)%Z
  /\ forall c,
       In c (create_processing_chunks self document_content boundaries
                                      max_input_tokens max_output_tokens) ->
       dedicated_large available_tokens c
       \/ ((p_estimated_input_tokens c <= available_tokens)%Z
           /\ (p_estimated_input_tokens c <= max_input_tokens)%Z
           /\ (2 <= List.length (p_sections c) ->
               float_gt_int (p_estimated_output_tokens c) max_output_tokens
               = false)).
Proof.
  intros available_tokens.
  assert (Havail : (available_tokens <= max_input_tokens - 1000)%Z).
  { subst available_tokens. unfold available_tokens_of, estimate_token_count.
    pose proof (Z.div_pos (Z.of_nat (len (system_prompt self))) 4). lia. }
  split; auto.
  unfold create_processing_chunks. fold available_tokens.
  destruct (plan_loop _ _ _ boundaries [] (empty_chunk 0))
    as [chunks' current_chunk'] eqn:Hrun.
  assert (Hempty : p_sections (empty_chunk 0) <> [] ->
                   within_budget available_tokens max_output_tokens (empty_chunk 0))
    by (simpl; intros H; now elim H).
  destruct (plan_loop_budget _ _ _ _ Hthr _ _ _ _ (Forall_nil _) Hempty Hrun)
    as [Hall Hcur].
  assert (Hfinal : Forall (chunk_ok available_tokens max_output_tokens)
                     (flush chunks' current_chunk'
                            (Z.of_nat (len document_content))))
    by now apply flush_budget.
  intros c Hc. rewrite Forall_forall in Hfinal.
  destruct (Hfinal c Hc) as [Hl | [H1 H2]]; auto.
  right. repeat split; auto. lia.
Qed.

Lemma long_filing_in_order :
  boundaries_in_order long_filing [long_item_8 "bold_headers" (8 # 10)].
Proof.
  split; repeat constructor.
  - simpl. lia.
  - apply Z.leb_le. vm_compute. reflexivity.
Qed.

Lemma long_filing_detected :
  detect_section_boundaries (fun _ => long_filing_matches) ascii_upper long_filing
  = Ok [long_item_8 "bold_headers" (8 # 10)].
Proof. vm_compute. reflexivity. Qed.

(** C1 as stated fails: the long filing has one boundary, at position 9,
    after a first line; its section alone exceeds the output budget
    (80010 estimated tokens, 8001.0 of estimated output against 8000), so
    the planner opens the chunk at the boundary and the first line is in
    no chunk. *)
Lemma long_filing_loses_first_line :
  boundaries_in_order long_filing [long_item_8 "bold_headers" (8 # 10)]
  /\ extract_sections_dynamic (fun _ => long_filing_matches) ascii_upper
       default_processor long_filing
     = Ok (chunks_of_boundaries default_processor long_filing
             [long_item_8 "bold_headers" (8 # 10)])
  /\ concat_texts
       (map content
            (chunks_of_boundaries default_processor long_filing
               [long_item_8 "bold_headers" (8 # 10)]))
     <> long_filing.
Proof.
  split; [exact long_filing_in_order|]. split.
  - unfold extract_sections_dynamic. now rewrite long_filing_detected.
  - intros H. apply (f_equal (fun s => Z.of_nat (len s))) in H.
    vm_compute in H. discriminate H.
Qed.

Lemma chunks_reconstruct_document_witness :
  [short_item_1 "bold_headers" (8 # 10); short_item_1A "bold_headers" (8 # 10)]
  <> []
  /\ boundaries_in_order short_filing
       [short_item_1 "bold_headers" (8 # 10);
        short_item_1A "bold_headers" (8 # 10)]
  /\ concat_texts
       (map content
            (number_chunks short_filing 0
               (create_processing_chunks default_processor short_filing
                  [short_item_1 "bold_headers" (8 # 10);
                   short_item_1A "bold_headers" (8 # 10)]
                  default_max_input_tokens default_max_output_tokens)))
     = short_filing.
Proof.
  assert (H1 : [short_item_1 "bold_headers" (8 # 10);
                short_item_1A "bold_headers" (8 # 10)] <> [])
    by discriminate.
  assert (H2 : boundaries_in_order short_filing
                 [short_item_1 "bold_headers" (8 # 10);
                  short_item_1A "bold_headers" (8 # 10)]).
  { split; repeat constructor; unfold by_position; simpl; lia. }
  split; [exact H1|]. split; [exact H2|].
  apply (chunks_reconstruct_document default_processor short_filing _
           default_max_input_tokens default_max_output_tokens H1 H2).
  vm_compute. reflexivity.
Defined.

(** C5 as stated fails on the output budget: the only chunk planned for
    the long filing is not a dedicated large-section chunk (80010 tokens
    against a threshold of 80% of 747069), and its estimated output,
    8001.0, is above the output budget of 8000. *)
Lemma long_filing_exceeds_output_budget :
  exists c,
    In c (create_processing_chunks default_processor long_filing
            [long_item_8 "bold_headers" (8 # 10)]
            default_max_input_tokens default_max_output_tokens)
    /\ ~ dedicated_large
           (available_tokens_of default_processor default_max_input_tokens) c
    /\ float_gt_int (p_estimated_output_tokens c) default_max_output_tokens = true.
Proof.
  eexists. split; [vm_compute; left; reflexivity|]. split.
  - intros (s & t & _ & _ & Hin & Hlarge). simpl in Hin. subst t.
    vm_compute in Hlarge. discriminate Hlarge.
  - vm_compute. reflexivity.
Qed.

Lemma planned_chunks_within_budget_witness :
  threshold_within (available_tokens_of default_processor default_max_input_tokens)
  = true
  /\ forall c,
       In c (create_processing_chunks default_processor short_filing
               [short_item_1 "bold_headers" (8 # 10);
                short_item_1A "bold_headers" (8 # 10)]
               default_max_input_tokens default_max_output_tokens) ->
       dedicated_large
         (available_tokens_of default_processor default_max_input_tokens) c
       \/ ((p_estimated_input_tokens c
            <= available_tokens_of default_processor default_max_input_tokens)%Z
           /\ (p_estimated_input_tokens c <= default_max_input_tokens)%Z
           /\ (2 <= List.length (p_sections c) ->
               float_gt_int (p_estimated_output_tokens c)
                            default_max_output_tokens = false)).
Proof.
  assert (H : threshold_within
                (available_tokens_of default_processor default_max_input_tokens)
              = true) by (vm_compute; reflexivity).
  split; [exact H|].
  exact (proj2 (planned_chunks_within_budget default_processor short_filing _
                  default_max_input_tokens default_max_output_tokens H)).
Defined.

(** ** Chunk processor *)

Lemma Forall_take {A : Type} (P : A -> Prop) (n : nat) (l : list A) :
  Forall P l -> Forall P (firstn n l).
Proof.
  intros H. rewrite <- (firstn_skipn n l) in H.
  now apply Forall_app in H.
Qed.

Lemma firstn_nonempty {A : Type} (n : nat) (l : list A) :
  0 < n -> l <> [] -> firstn n l <> [].
Proof.
  destruct n, l; simpl; intros; try lia; congruence.
Qed.

Lemma reduce_planned (c : ProcessingChunk) :
  planned_chunk c ->
  exists c', reduce_chunk_size c = Ok c' /\ planned_chunk c'.
Proof.
  intros (Hne & Hspans & Hstart & Htokens). unfold reduce_chunk_size.
  destruct (start_pos c) as [chunk_start|] eqn:Es; [|congruence].
  destruct (1 <? List.length (sections c)) eqn:Elen.
  - apply Nat.ltb_lt in Elen. cbn [bind].
    set (half := firstn (List.length (sections c) / 2) (sections c)).
    assert (Hhalf : Forall section_has_span half) by (apply Forall_take; auto).
    assert (Hhalf_ne : half <> []).
    { apply firstn_nonempty; auto.
      apply (Nat.div_le_lower_bound _ 2 1); lia. }
    clearbody half.
    destruct half as [| first rest_half]; [congruence|].
    inversion Hhalf as [| ? ? [Hp He] Hrest]; subst.
    cbn [require bind].
    destruct (s_position first) as [start|]; [|congruence]. cbn [require bind].
    assert (Hlast : section_has_span (last (first :: rest_half) first)).
    { destruct (exists_last (l := first :: rest_half) ltac:(discriminate))
        as (l' & a & Hl). rewrite Hl, last_last.
      rewrite Hl in Hhalf. apply Forall_app in Hhalf as [_ Ha].
      now inversion Ha. }
    destruct Hlast as [_ Hle].
    destruct (s_end_position (last (first :: rest_half) first)) as [e|];
      [|congruence].
    cbn [require bind]. eexists. split; [reflexivity|].
    unfold planned_chunk.
    cbn [sections start_pos estimated_input_tokens].
    repeat split; auto; try discriminate; try congruence.
  - destruct (sections c) as [| section rest] eqn:S; [congruence|].
    inversion Hspans as [| ? ? [Hp He] _]; subst.
    destruct (s_position section) as [position|] eqn:Ep; [|congruence].
    destruct (s_end_position section) as [end_position|]; [|congruence].
    cbn [require bind s_position s_end_position last].
    eexists. split; [reflexivity|].
    unfold planned_chunk, section_has_span.
    cbn [sections start_pos estimated_input_tokens].
    repeat split; auto; try discriminate; try congruence.
    constructor; [|constructor].
    cbn [s_position s_end_position]. split; congruence.
Qed.

Lemma truthy_contains_iter (k : string) (v : pyval) (b : bool) :
  py_truthy v = true -> py_contains k v = Ok b ->
  exists x xs, py_iter v = Ok (x :: xs).
Proof.
  destruct v as [| b0 | z | f | s | l | d]; simpl; try discriminate.
  - destruct s; simpl; [discriminate|]. eauto.
  - destruct l; [discriminate|]. eauto.
  - destruct d; [discriminate|]. simpl. eauto.
Qed.

Lemma remaining_of_some (secs : list SectionInfo) (v : pyval)
    (s : SectionInfo) (rest : list SectionInfo) :
  remaining_of secs v = Ok (s :: rest) ->
  exists k b, py_contains k v = Ok b.
Proof.
  destruct secs as [| s0 r]; simpl; [discriminate|].
  destruct (py_contains (item_label s0) v) eqn:E; [eauto | discriminate].
Qed.

(** A failure dict, with its error and nothing to requeue, is sound. *)
Ltac failure_is_sound :=
  unfold sound_result; simpl;
  split; [intros _; repeat split; discriminate|];
  split; [discriminate|];
  split; [split; [discriminate | intros H; now elim H]|];
  intros H; now elim H.

Section ProcessorFacts.

Variable py_str : pyval -> string.
Variable self : TenKProcessor.
Variable model : Model.
Variables (company_name year : option string) (is_first_chunk : bool)
          (previous_sections : list pyval) (max_retries : Z).

Let sound := sound_result py_str self company_name year is_first_chunk
                          previous_sections.

(** A result of [handle_parsed] that is returned is a success; it carries
    a remaining chunk exactly when it is marked partial. *)
Lemma handle_parsed_return (result_ : pyval) (retry_count : Z)
    (c : ProcessingChunk) (r : ChunkResult) :
  handle_parsed result_ retry_count c = Ok (Return r) ->
  r_success r = true /\ r_result r = Some result_ /\ r_error r = None
  /\ r_retry_count r = Some retry_count
  /\ (r_partial r = Some true <-> r_remaining_chunk r <> None)
  /\ (r_remaining_chunk r <> None ->
      exists v x xs, r_completed_sections r = Some v /\ py_iter v = Ok (x :: xs)).
Proof.
  unfold handle_parsed.
  destruct (py_get result_ "processing_status" (PStr "unknown")) as [status|];
    [|discriminate].
  cbn [bind]. destruct status as [| b | z | f | st | l | d]; try discriminate.
  destruct (startswith "completed" st).
  - destruct (chunk_metadata_get result_ "sections_completed" (PList []));
      [|discriminate]. cbn [bind].
    destruct (chunk_metadata_get result_ "next_expected_item" PNone);
      [|discriminate]. cbn [bind].
    intros H. injection H as <-. simpl.
    repeat split; auto; try discriminate; congruence.
  - destruct (startswith "partial" st || startswith "stopped" st).
    + destruct (chunk_metadata_get result_ "sections_completed" (PList []))
        as [completed|]; [|discriminate]. cbn [bind].
      destruct (py_truthy completed) eqn:T.
      * destruct (remaining_of (sections c) completed) as [[| s rest]|] eqn:R;
          [| |discriminate]; cbn [bind]; intros H; injection H as <-; simpl.
        -- repeat split; auto; try discriminate; congruence.
        -- repeat split; auto; try discriminate.
           intros _. destruct (remaining_of_some _ _ _ _ R) as (k & b & Hk).
           destruct (truthy_contains_iter _ _ _ T Hk) as (x & xs & Hx).
           eauto.
      * destruct (reduce_chunk_size c); discriminate.
    + intros H. injection H as <-. simpl.
      repeat split; auto; try discriminate; congruence.
Qed.

Lemma handle_parsed_continue (result_ : pyval) (retry_count retry_count' : Z)
    (c c' : ProcessingChunk) :
  handle_parsed result_ retry_count c = Ok (Continue retry_count' c') ->
  retry_count' = (retry_count + 1)%Z /\ reduce_chunk_size c = Ok c'.
Proof.
  unfold handle_parsed.
  destruct (py_get result_ "processing_status" (PStr "unknown")) as [status|];
    [|discriminate].
  cbn [bind]. destruct status as [| b | z | f | st | l | d]; try discriminate.
  destruct (startswith "completed" st).
  - destruct (chunk_metadata_get result_ "sections_completed" (PList []));
      [|discriminate]. cbn [bind].
    destruct (chunk_metadata_get result_ "next_expected_item" PNone);
      discriminate.
  - destruct (startswith "partial" st || startswith "stopped" st);
      [|discriminate].
    destruct (chunk_metadata_get result_ "sections_completed" (PList []))
      as [completed|]; [|discriminate]. cbn [bind].
    destruct (py_truthy completed).
    + destruct (remaining_of (sections c) completed) as [[| s rest]|];
        discriminate.
    + destruct (reduce_chunk_size c) as [reduced|]; [|discriminate].
      cbn [bind]. intros H. injection H as <- <-. auto.
Qed.

(** The handler either shrinks the chunk and goes on, or returns a failure
    with the message of the exception, or lets the exception of
    [reduce_chunk_size] out. *)
Lemma handle_exception_cases (e : exn) (retry_count : Z) (c : ProcessingChunk) :
  match handle_exception max_retries e retry_count c with
  | Ok (Continue retry_count' c') =>
      retry_count' = (retry_count + 1)%Z /\ reduce_chunk_size c = Ok c'
      /\ (retry_count < max_retries - 1)%Z
  | Ok (Return r) =>
      r = mkResult false None None None (Some retry_count) None None
                   (Some (exn_msg e)) None
      /\ (max_retries - 1 <= retry_count)%Z
  | Raise e' => reduce_chunk_size c = Raise e' /\ (retry_count < max_retries - 1)%Z
  end.
Proof.
  unfold handle_exception.
  destruct (Z.ltb_spec retry_count (max_retries - 1)).
  - destruct (reduce_chunk_size c); cbn [bind]; auto.
  - auto.
Qed.

(** One turn of the loop: at most one call of the model; the turn goes on
    with the chunk shrunk and one retry more, or returns a sound result,
    or lets out an exception, which then is one of [reduce_chunk_size]. *)
Lemma attempt_cases (retry_count : Z) (c : ProcessingChunk) (calls : nat) :
  calls <= snd (attempt py_str self model company_name year is_first_chunk
                        previous_sections max_retries retry_count c calls)
        <= S calls
  /\ match fst (attempt py_str self model company_name year is_first_chunk
                        previous_sections max_retries retry_count c calls) with
     | Ok (Continue retry_count' c') =>
         retry_count' = (retry_count + 1)%Z /\ reduce_chunk_size c = Ok c'
     | Ok (Return r) => sound r
     | Raise e => reduce_chunk_size c = Raise e
     end.
Proof.
  assert (Hfail : forall e,
    match handle_exception max_retries e retry_count c with
    | Ok (Continue retry_count' c') =>
        retry_count' = (retry_count + 1)%Z /\ reduce_chunk_size c = Ok c'
    | Ok (Return r) => sound r
    | Raise e' => reduce_chunk_size c = Raise e'
    end).
  { intros e. pose proof (handle_exception_cases e retry_count c) as H.
    destruct (handle_exception max_retries e retry_count c) as [[r | rc' c']|];
      try tauto.
    destruct H as [-> _]. subst sound. failure_is_sound. }
  unfold attempt, try_body.
  destruct (create_chunk_prompt py_str c company_name year is_first_chunk
                                previous_sections) as [prompt|e] eqn:P.
  2:{ cbn [fst snd]. split; [lia | apply Hfail]. }
  destruct (estimate_token_count prompt >? max_tokens_per_chunk self)%Z eqn:T.
  - destruct (reduce_chunk_size c) as [reduced|e] eqn:R; cbn [bind fst snd].
    + split; [lia | auto].
    + split; [lia | apply Hfail].
  - destruct (model calls) as [e | text parsed].
    + cbn [fst snd]. split; [lia | apply Hfail].
    + destruct (negb (String.eqb text "")).
      2:{ cbn [fst snd]. split; [lia | apply Hfail]. }
      destruct parsed as [result_|].
      * destruct (handle_parsed result_ retry_count c) as [[r | rc' c']|e] eqn:H;
          cbn [fst snd]; (split; [lia|]).
        -- apply handle_parsed_return in H
             as (Hs & Hr & He & _ & Hpartial & Hiter).
           subst sound. unfold sound_result, requeue_evidence.
           split; [intros Hf; congruence|].
           split; [intros _; split; congruence|].
           split; [exact Hpartial|].
           intros Hrem. split; [exact Hs|].
           split; [now apply Hpartial|].
           split; [|auto].
           exists c, prompt. split; auto.
           rewrite Z.gtb_ltb in T. now apply Z.ltb_ge in T.
        -- now apply handle_parsed_continue in H.
        -- apply Hfail.
      * destruct (retry_count <? max_retries - 1)%Z.
        -- destruct (reduce_chunk_size c) as [reduced|e] eqn:R; cbn [bind fst snd].
           ++ split; [lia | auto].
           ++ split; [lia | apply Hfail].
        -- cbn [fst snd]. split; [lia|]. subst sound. failure_is_sound.
Qed.

Lemma failed_after_sound (retry_count : Z) :
  sound (failed_after max_retries retry_count).
Proof. subst sound. unfold failed_after. failure_is_sound. Qed.

(** The loop ends within [max_retries] turns, whatever the chunk and the
    model: with the dict it returns, or with an exception of
    [reduce_chunk_size] that the handler let out. *)
Lemma backtrack_loop_ends (fuel : nat) :
  forall retry_count c calls attempts,
    Z.to_nat (max_retries - retry_count) <= fuel ->
    exists res calls' attempts',
      backtrack_loop py_str self model company_name year is_first_chunk
        previous_sections max_retries fuel retry_count c calls attempts
      = Some (res, calls', attempts')
      /\ attempts <= attempts'
      /\ attempts' - attempts <= Z.to_nat (max_retries - retry_count)
      /\ calls <= calls' /\ calls' - calls <= attempts' - attempts
      /\ match res with
         | Ok r => sound r
         | Raise e => exists c', reduce_chunk_size c' = Raise e
         end.
Proof.
  induction fuel as [| fuel IH]; intros retry_count c calls attempts Hfuel;
    cbn [backtrack_loop].
  - destruct (Z.ltb_spec retry_count max_retries); [lia|].
    do 3 eexists. split; [reflexivity|].
    do 4 (split; [lia|]). apply failed_after_sound.
  - destruct (Z.ltb_spec retry_count max_retries).
    2:{ do 3 eexists. split; [reflexivity|].
        do 4 (split; [lia|]). apply failed_after_sound. }
    pose proof (attempt_cases retry_count c calls) as [Hcalls Hcase].
    destruct (attempt py_str self model company_name year is_first_chunk
                      previous_sections max_retries retry_count c calls)
      as [res calls1].
    cbn [fst snd] in *.
    destruct res as [[r | rc' c']|e].
    + do 3 eexists. split; [reflexivity|]. do 4 (split; [lia|]). exact Hcase.
    + destruct Hcase as [-> _].
      destruct (IH (retry_count + 1)%Z c' calls1 (S attempts))
        as (res & calls' & attempts' & -> & H1 & H2 & H3 & H4 & H5); [lia|].
      do 3 eexists. split; [reflexivity|]. do 4 (split; [lia|]). exact H5.
    + do 3 eexists. split; [reflexivity|]. do 4 (split; [lia|]). eauto.
Qed.

(** On a chunk with the planner's keys no exception gets out. *)
Lemma backtrack_loop_planned (fuel : nat) :
  forall retry_count c calls attempts res calls' attempts',
    planned_chunk c ->
    backtrack_loop py_str self model company_name year is_first_chunk
      previous_sections max_retries fuel retry_count c calls attempts
    = Some (res, calls', attempts') ->
    exists r, res = Ok r.
Proof.
  induction fuel as [| fuel IH];
    intros retry_count c calls attempts res calls' attempts' Hplanned;
    cbn [backtrack_loop].
  - destruct (retry_count <? max_retries)%Z; [discriminate|].
    intros H. injection H as <- _ _. eauto.
  - destruct (retry_count <? max_retries)%Z.
    2:{ intros H. injection H as <- _ _. eauto. }
    pose proof (attempt_cases retry_count c calls) as [_ Hcase].
    destruct (attempt py_str self model company_name year is_first_chunk
                      previous_sections max_retries retry_count c calls)
      as [res1 calls1].
    cbn [fst] in Hcase.
    destruct (reduce_planned c Hplanned) as (c1 & Hc1 & Hplanned1).
    destruct res1 as [[r | rc' c']|e].
    + intros H. injection H as <- _ _. eauto.
    + destruct Hcase as [_ Hred]. assert (c' = c1) by congruence. subst c'.
      now apply IH.
    + congruence.
Qed.

End ProcessorFacts.

(** C2, where the code breaks it.  The chunk [extract_sections_dynamic]
    makes of a document without boundaries has no [estimated_input_tokens]
    and its section no [position]: building the prompt raises, the handler
    calls [reduce_chunk_size], and that raises [KeyError] out of
    [process_chunk_with_backtrack], at the first turn, whatever the model
    does.  No dict is returned. *)
Theorem whole_document_chunk_escapes (py_str : pyval -> string)
    (self : TenKProcessor) (model : Model) (document_content : string)
    (company_name year : option string) (is_first_chunk : bool)
    (previous_sections : list pyval) (calls : nat) :
  process_chunk_with_backtrack py_str self model
    (whole_document_chunk document_content) company_name year is_first_chunk
    previous_sections default_max_retries calls
  = Some (Raise (key_error "position"), calls, 1).
Proof. reflexivity. Qed.

(** What the code keeps of C2: on every chunk the loop ends within
    [max_retries] turns, each with at most one call of the model; and on a
    chunk with the planner's keys it returns a dict, which carries an error
    string whenever its [success] is false. *)
Lemma backtrack_returns_on_planned_chunk (py_str : pyval -> string)
    (self : TenKProcessor) (model : Model) (c : ProcessingChunk)
    (company_name year : option string) (is_first_chunk : bool)
    (previous_sections : list pyval) (max_retries : Z) (calls : nat) :
  (exists res calls' attempts,
      process_chunk_with_backtrack py_str self model c company_name year
        is_first_chunk previous_sections max_retries calls
      = Some (res, calls', attempts)
      /\ attempts <= Z.to_nat max_retries
      /\ calls <= calls' /\ calls' - calls <= attempts
      /\ (planned_chunk c -> exists r, res = Ok r)
      /\ match res with
         | Ok r => sound_result py_str self company_name year is_first_chunk
                                previous_sections r
         | Raise e => exists c', reduce_chunk_size c' = Raise e
         end).
Proof.
  unfold process_chunk_with_backtrack, process_chunk_with_backtrack_fuel.
  destruct (backtrack_loop_ends py_str self model company_name year
              is_first_chunk previous_sections max_retries
              (Z.to_nat max_retries) 0 c calls 0)
    as (res & calls' & attempts & H & H1 & H2 & H3 & H4 & H5); [lia|].
  exists res, calls', attempts. rewrite H.
  split; [reflexivity|]. replace (max_retries - 0)%Z with max_retries in * by lia.
  split; [lia|]. split; [lia|]. split; [lia|]. split; [|exact H5].
  intros Hplanned. eapply backtrack_loop_planned; eauto.
Qed.







Section ShrinkFacts.

Variable py_str : pyval -> string.
Variable self : TenKProcessor.
Variable model : Model.
Variables (company_name year : option string) (is_first_chunk : bool)
          (previous_sections : list pyval) (max_retries : Z).





End ShrinkFacts.




(** ** The chunk queue *)

Lemma len_app (s1 s2 : string) : len (s1 ++ s2) = len s1 + len s2.
Proof. induction s1; simpl; auto. Qed.

Lemma len_join_lines (f : pyval -> string) (l : list pyval) :
  l <> [] ->
  5 * List.length l <= len (join newline (map (fun s => ("  - " ++ f s)%string) l)) + 1.
Proof.
  induction l as [| x r IH]; [congruence|]. intros _.
  destruct r as [| y r'].
  - simpl. lia.
  - assert (Hr : 5 * List.length (y :: r')
                 <= len (join newline
                           (map (fun s => ("  - " ++ f s)%string) (y :: r'))) + 1)
      by (apply IH; discriminate).
    cbn [map join] in *. cbn [List.length] in *.
    rewrite !len_app. simpl (len newline). simpl (len "  - ").
    lia.
Qed.

Lemma prompt_lists_completed (py_str : pyval -> string) (c : ProcessingChunk)
    (company_name year : option string) (previous_sections : list pyval)
    (prompt : string) :
  create_chunk_prompt py_str c company_name year false previous_sections
  = Ok prompt ->
  5 * List.length previous_sections <= len prompt + 1.
Proof.
  unfold create_chunk_prompt.
  destruct (estimated_input_tokens c); [|discriminate].
  unfold bind. intros H.
  apply (f_equal (fun r => match r with Ok s => len s | Raise _ => 0 end)) in H.
  cbv beta iota in H. rewrite <- H.
  destruct previous_sections as [| x xs]; [simpl; lia|].
  pose proof (len_join_lines py_str (x :: xs) ltac:(discriminate)) as Hl.
  unfold negb. rewrite !len_app. lia.
Qed.

Section QueueFacts.

Variable py_str : pyval -> string.
Variable self : TenKProcessor.
Variable model : Model.
Variables company_name year : string.

(** A prompt that lists [n] completed sections and passes the token check
    has [n] within [requeue_bound]. *)
Lemma passing_prompt_bound (c : ProcessingChunk) (co yr : option string)
    (previous_sections : list pyval) (prompt : string) :
  create_chunk_prompt py_str c co yr false previous_sections = Ok prompt ->
  (estimate_token_count prompt <= max_tokens_per_chunk self)%Z ->
  List.length previous_sections <= requeue_bound self.
Proof.
  intros Hprompt Hfits.
  apply prompt_lists_completed in Hprompt.
  unfold estimate_token_count in Hfits. unfold requeue_bound.
  Z.div_mod_to_equations. lia.
Qed.

Lemma process_chunk_ends (c : ProcessingChunk) (st : queue_state) :
  exists res calls' attempts,
    process_chunk_with_backtrack py_str self model c (Some company_name)
      (Some year) (chunk_num st + 1 =? 1)%Z (completed_sections st)
      default_max_retries (calls st)
    = Some (res, calls', attempts)
    /\ match res with
       | Ok r => sound_result py_str self (Some company_name) (Some year)
                   (chunk_num st + 1 =? 1)%Z (completed_sections st) r
       | Raise _ => True
       end.
Proof.
  destruct (backtrack_returns_on_planned_chunk py_str self model c
              (Some company_name) (Some year) (chunk_num st + 1 =? 1)%Z
              (completed_sections st) default_max_retries (calls st))
    as (res & calls' & attempts & H & _ & _ & _ & _ & Hsound).
  exists res, calls', attempts. split; [exact H|].
  destruct res; auto.
Qed.

Lemma queue_step_ends (st : queue_state) (c : ProcessingChunk)
    (rest : list ProcessingChunk) :
  exists res calls',
    queue_step py_str self model company_name year st c rest
    = Some (res, calls').
Proof.
  unfold queue_step.
  destruct (process_chunk_ends c st) as (res & calls' & attempts & -> & _).
  destruct res; eauto.
Qed.

(** Every turn that goes on makes the measure smaller. *)
Lemma queue_step_measure (st st' : queue_state) (c : ProcessingChunk)
    (rest : list ProcessingChunk) (calls' : nat) :
  queue_inv st -> chunk_queue st = c :: rest ->
  queue_step py_str self model company_name year st c rest
  = Some (Ok st', calls') ->
  queue_inv st' /\ queue_measure self st' < queue_measure self st.
Proof.
  intros [Hnum Hfirst] Hqueue. unfold queue_step.
  destruct (process_chunk_ends c st) as (res & calls1 & attempts & -> & Hsound).
  destruct res as [r|e]; [|discriminate].
  assert (Hrest : forall completed' results' calls2,
             queue_inv (mkQueue results' completed' rest (chunk_num st + 1) calls2)
             /\ queue_measure self
                  (mkQueue results' completed' rest (chunk_num st + 1) calls2)
                < queue_measure self st).
  { intros completed' results' calls2. split.
    - split; cbn [chunk_num completed_sections]; lia.
    - unfold queue_measure. rewrite Hqueue.
      cbn [chunk_queue completed_sections List.length]. lia. }
  destruct (r_success r) eqn:Hsuccess.
  2:{ intros H. injection H as <- _. apply Hrest. }
  destruct (require "result" (r_result r)) as [j|]; cbn [bind]; [|discriminate].
  unfold py_extend.
  destruct (py_iter match r_completed_sections r with
                    | Some v => v
                    | None => PList []
                    end) as [xs|] eqn:Hiter; cbn [bind]; [|discriminate].
  destruct (r_remaining_chunk r) as [remaining|] eqn:Hremaining.
  2:{ destruct (r_partial r) as [[|]|]; intros H; injection H as <- _;
        apply Hrest. }
  destruct Hsound as (_ & _ & _ & Hevidence).
  destruct Hevidence as (_ & Hpartial & (c0 & prompt & Hprompt & Hfits)
                         & (v & x & xs' & Hv & Hx)); [congruence|].
  rewrite Hpartial. rewrite Hv in Hiter. rewrite Hx in Hiter.
  injection Hiter as <-.
  intros H. injection H as <- _. split.
  - split; cbn [chunk_num completed_sections]; lia.
  - assert (Hbound : List.length (completed_sections st) <= requeue_bound self).
    { destruct (Z.eqb_spec (chunk_num st + 1) 1) as [E|E].
      - rewrite Hfirst by lia. cbn [List.length]. lia.
      - eapply passing_prompt_bound; eauto. }
    unfold queue_measure. rewrite Hqueue.
    cbn [chunk_queue completed_sections List.length].
    rewrite length_app. cbn [List.length]. lia.
Qed.

(** The queue is empty, or left with an exception, within
    [queue_measure] turns. *)
Lemma queue_loop_ends (fuel : nat) :
  forall st,
    queue_inv st -> queue_measure self st <= fuel ->
    exists res calls',
      queue_loop py_str self model fuel company_name year st
      = Some (res, calls').
Proof.
  induction fuel as [| fuel IH]; intros st Hinv Hfuel; cbn [queue_loop];
    destruct (chunk_queue st) as [| c rest] eqn:Hqueue; eauto.
  - unfold queue_measure in Hfuel. rewrite Hqueue in Hfuel.
    cbn [List.length] in Hfuel. lia.
  - destruct (queue_step_ends st c rest) as (res & calls' & Hstep).
    rewrite Hstep. destruct res as [st'|e]; eauto.
    destruct (queue_step_measure st st' c rest calls' Hinv Hqueue Hstep)
      as [Hinv' Hless].
    apply IH; [exact Hinv'|lia].
Qed.

End QueueFacts.

Lemma process_with_gemini_ends (py_str : pyval -> string)
    (strategy_matches : string -> list Boundary) (str_upper : string -> string)
    (extract_company_info : string -> string * string) (self : TenKProcessor)
    (model : Model) (now : string) (document_content : string) (fuel : nat) :
  turns_bound strategy_matches str_upper self document_content <= fuel ->
  exists out,
    process_with_gemini py_str strategy_matches str_upper extract_company_info
      self model now fuel document_content = Some out
    /\ forall e, out = Raise e ->
                 exists calls',
                   process_full_document model document_content calls' = Raise e.
Proof.
  unfold turns_bound, process_with_gemini, incremental_processing.
  destruct (extract_company_info document_content) as [co yr].
  assert (Hfallback : forall calls',
             exists out,
               Some (do text <- process_full_document model document_content calls';
                     Ok (RawResponse text)) = Some out
               /\ forall e, out = Raise e ->
                            exists calls2,
                              process_full_document model document_content calls2
                              = Raise e).
  { intros calls'. eexists. split; [reflexivity|].
    intros e He. exists calls'.
    destruct (process_full_document model document_content calls');
      cbn [bind] in He; congruence. }
  destruct (extract_sections_dynamic strategy_matches str_upper self
              document_content) as [[| c chunks]|e] eqn:Hchunks; intros Hfuel.
  - destruct (process_full_document model document_content 0) eqn:Hfull;
      cbn [bind].
    + eexists. split; [reflexivity|]. discriminate.
    + apply Hfallback.
  - assert (Hinv : queue_inv (mkQueue [] [] (c :: chunks) 0 0))
      by (split; cbn [chunk_num completed_sections]; [lia|reflexivity]).
    destruct (queue_loop_ends py_str self model co yr fuel _ Hinv Hfuel)
      as (res & calls' & ->).
    destruct res as [st|e].
    + destruct (combine_incremental_results now (all_results st) (Some co)
                  (Some yr)); cbn [bind].
      * eexists. split; [reflexivity|]. discriminate.
      * apply Hfallback.
    + apply Hfallback.
  - apply Hfallback.
Qed.

(** ** The turns of the queue loop *)

Lemma last_cons {A : Type} (a d : A) (l : list A) : last (a :: l) d = last l a.
Proof.
  revert a d. induction l as [| x r IH]; intros a d; [reflexivity|].
  change (last (a :: x :: r) d) with (last (x :: r) d).
  rewrite (IH x d), (IH x a). reflexivity.
Qed.

(** The turns on a queue are the turn on its first chunk, the turns on the
    continuations of that chunk, and then the turns on the rest. *)
Lemma front_first_split (turns : list Turn) :
  forall first current_chunk rest,
    front_first (current_chunk :: rest) (first :: turns) ->
    exists continuations later,
      turns = continuations ++ later
      /\ continuation_run first continuations
      /\ front_first rest later
      /\ (later <> [] ->
          exists r, t_result (last continuations first) = Ok r
                    /\ r_remaining_chunk r = None).
Proof.
  induction turns as [| t turns IH]; intros first current_chunk rest.
  - intros _. exists [], []. cbn. repeat split; auto. congruence.
  - cbn [front_first]. intros [_ H].
    destruct (t_result first) as [r|e] eqn:Hr; [|discriminate].
    destruct (r_remaining_chunk r) as [remaining|] eqn:Hrem.
    + assert (Hchunk : t_chunk t = remaining) by (cbn [front_first] in H; tauto).
      destruct (IH t remaining rest H) as (conts & later & -> & Hrun & Hlater & Hlast).
      exists (t :: conts), later. split; [reflexivity|]. split.
      { cbn [continuation_run]. split; [|exact Hrun].
        exists r. rewrite Hchunk. auto. }
      split; [exact Hlater|].
      rewrite last_cons. exact Hlast.
    + exists [], (t :: turns). split; [reflexivity|]. split; [exact I|].
      split; [exact H|]. intros _. exists r. auto.
Qed.

Lemma flat_map_singletons {A B : Type} (f : A -> list B) (l : list A) :
  Forall (fun x => exists y, f x = [y]) l ->
  List.length (flat_map f l) = List.length l.
Proof.
  induction 1 as [| x l [y Hy] _ IH]; cbn [flat_map List.length]; auto.
  rewrite Hy. cbn [app List.length]. now rewrite IH.
Qed.

Section TurnFacts.

Variable py_str : pyval -> string.
Variable self : TenKProcessor.
Variable model : Model.
Variables company_name year : string.

(** One turn: the processor runs on the first chunk and ends; the turn
    then appends one entry to the results and goes on with the rest of the
    queue, the remaining chunk of the result in front, or it raises what
    the processor raised, or what extending the list of completed sections
    raised. *)
Lemma queue_step_turn (st : queue_state) (c : ProcessingChunk)
    (rest : list ProcessingChunk) :
  exists res calls1 attempts,
    process_chunk_with_backtrack py_str self model c (Some company_name)
      (Some year) (chunk_num st + 1 =? 1)%Z (completed_sections st)
      default_max_retries (calls st)
    = Some (res, calls1, attempts)
    /\ calls st <= calls1
    /\ match res with
       | Raise e =>
           queue_step py_str self model company_name year st c rest
           = Some (Raise e, calls1)
       | Ok r =>
           (r_success r = false -> exists message, r_error r = Some message)
           /\ ((exists entry completed,
                   entries_of_turn (mkTurn c (calls st) (Ok r) calls1) = [entry]
                   /\ queue_step py_str self model company_name year st c rest
                      = Some
                          (Ok (mkQueue (all_results st ++ [entry]) completed
                                 (match r_remaining_chunk r with
                                  | Some remaining => remaining :: rest
                                  | None => rest
                                  end)
                                 (chunk_num st + 1) calls1),
                           calls1))
               \/ (exists e,
                      r_success r = true
                      /\ r_remaining_chunk r = None
                      /\ py_iter (match r_completed_sections r with
                                  | Some v => v
                                  | None => PList []
                                  end) = Raise e
                      /\ queue_step py_str self model company_name year st c rest
                         = Some (Raise e, calls1)))
       end.
Proof.
  destruct (backtrack_returns_on_planned_chunk py_str self model c
              (Some company_name) (Some year) (chunk_num st + 1 =? 1)%Z
              (completed_sections st) default_max_retries (calls st))
    as (res & calls1 & attempts & Hrun & _ & Hcalls & _ & _ & Hsound).
  exists res, calls1, attempts. split; [exact Hrun|]. split; [exact Hcalls|].
  unfold queue_step. rewrite Hrun.
  destruct res as [r|e]; [|reflexivity].
  destruct Hsound as (Hfailure & Hsuccess & Hpartial & Hevidence).
  unfold entries_of_turn. cbn [t_result t_chunk].
  destruct (r_success r) eqn:S.
  - split; [discriminate|].
    destruct (Hsuccess eq_refl) as [Hresult _].
    destruct (r_result r) as [j|]; [|congruence]. cbn [require bind].
    unfold py_extend.
    destruct (py_iter match r_completed_sections r with
                      | Some v => v
                      | None => PList []
                      end) as [xs|e] eqn:Hiter; cbn [bind].
    + left. do 2 eexists. split; [reflexivity|].
      destruct (r_remaining_chunk r) as [remaining|].
      * rewrite (proj2 Hpartial) by discriminate. reflexivity.
      * destruct (r_partial r) as [[|]|]; reflexivity.
    + right. exists e. split; [reflexivity|]. split; [|auto].
      destruct (r_remaining_chunk r) as [remaining|] eqn:Hrem; [|reflexivity].
      destruct Hevidence as (_ & _ & _ & (v & x & xs & Hv & Hx));
        [discriminate|].
      rewrite Hv in Hiter. congruence.
  - destruct (Hfailure eq_refl) as (Herror & Hrem & _).
    split.
    { intros _. destruct (r_error r) as [message|]; [eauto | congruence]. }
    left. do 2 eexists. split; [reflexivity|].
    rewrite Hrem. reflexivity.
Qed.

(** The whole run of the loop: it ends, and its turns are these. *)
Lemma queue_loop_turns (fuel : nat) :
  forall st,
    queue_inv st -> queue_measure self st <= fuel ->
    exists res calls',
      queue_loop py_str self model fuel company_name year st = Some (res, calls')
      /\ front_first (chunk_queue st)
           (queue_turns py_str self model fuel company_name year st)
      /\ one_at_a_time (calls st)
           (queue_turns py_str self model fuel company_name year st)
      /\ match res with
         | Ok st' =>
             chunk_queue st' = []
             /\ incl (chunk_queue st)
                  (map t_chunk
                     (queue_turns py_str self model fuel company_name year st))
             /\ all_results st'
                = all_results st
                  ++ flat_map entries_of_turn
                       (queue_turns py_str self model fuel company_name year st)
             /\ chunk_num st'
                = (chunk_num st
                   + Z.of_nat
                       (List.length
                          (queue_turns py_str self model fuel company_name year
                             st)))%Z
             /\ calls st' = calls'
             /\ Forall (fun t =>
                          exists r,
                            t_result t = Ok r
                            /\ (r_success r = false ->
                                exists message, r_error r = Some message)
                            /\ exists entry, entries_of_turn t = [entry])
                       (queue_turns py_str self model fuel company_name year st)
         | Raise e =>
             exists before t,
               queue_turns py_str self model fuel company_name year st
               = before ++ [t]
               /\ calls' = t_calls_after t
               /\ (t_result t = Raise e
                   \/ exists r,
                        t_result t = Ok r /\ r_success r = true
                        /\ py_iter (match r_completed_sections r with
                                    | Some v => v
                                    | None => PList []
                                    end) = Raise e)
         end.
Proof.
  induction fuel as [| fuel IH]; intros st Hinv Hfuel;
    cbn [queue_loop queue_turns];
    destruct (chunk_queue st) as [| c rest] eqn:Hqueue.
  - exists (Ok st), (calls st). cbn [front_first one_at_a_time flat_map map List.length].
    rewrite app_nil_r, Z.add_0_r.
    repeat split; auto. intros x [].
  - unfold queue_measure in Hfuel. rewrite Hqueue in Hfuel.
    cbn [List.length] in Hfuel. lia.
  - exists (Ok st), (calls st). cbn [front_first one_at_a_time flat_map map List.length].
    rewrite app_nil_r, Z.add_0_r.
    repeat split; auto. intros x [].
  - destruct (queue_step_turn st c rest)
      as (res & calls1 & attempts & Hrun & Hcalls & Hcase).
    rewrite Hrun.
    destruct res as [r|e].
    2:{ rewrite Hcase. exists (Raise e), calls1.
        split; [reflexivity|].
        split; [cbn [front_first t_chunk t_result]; auto|].
        split; [cbn [one_at_a_time t_calls t_calls_after]; auto|].
        exists [], (mkTurn c (calls st) (Raise e) calls1).
        split; [reflexivity|]. split; [reflexivity|]. left. reflexivity. }
    destruct Hcase as [Herror [(entry & completed & Hentry & Hstep)
                              | (e & Hsuccess & _ & Hiter & Hstep)]].
    2:{ rewrite Hstep. exists (Raise e), calls1.
        split; [reflexivity|].
        split.
        { cbn [front_first t_chunk t_result]. split; [reflexivity|].
          destruct (r_remaining_chunk r); exact I. }
        split; [cbn [one_at_a_time t_calls t_calls_after]; auto|].
        exists [], (mkTurn c (calls st) (Ok r) calls1).
        split; [reflexivity|]. split; [reflexivity|]. right. exists r. auto. }
    rewrite Hstep.
    destruct (queue_step_measure py_str self model company_name year st _ c rest
                calls1 Hinv Hqueue Hstep) as [Hinv' Hless].
    destruct (IH _ Hinv' ltac:(lia))
      as (res & calls' & Hloop & Hfront & Hseq & Hres).
    cbn [chunk_queue calls all_results chunk_num] in Hfront, Hseq, Hres.
    exists res, calls'. split; [exact Hloop|].
    split; [cbn [front_first t_chunk t_result]; auto|].
    split; [cbn [one_at_a_time t_calls t_calls_after]; auto|].
    destruct res as [st'|e].
    + destruct Hres as (Hempty & Hincl & Hall & Hnum & Hcalls' & Hok).
      split; [exact Hempty|]. split.
      { intros x [<- | Hx]; cbn [map t_chunk]; [left; reflexivity|].
        right. apply Hincl. destruct (r_remaining_chunk r); [right|]; exact Hx. }
      split.
      { rewrite Hall. cbn [flat_map]. rewrite Hentry, <- app_assoc. reflexivity. }
      split; [rewrite Hnum; cbn [List.length]; lia|].
      split; [exact Hcalls'|].
      constructor; [|exact Hok].
      exists r. cbn [t_result]. split; [reflexivity|]. split; [exact Herror|].
      exists entry. exact Hentry.
    + destruct Hres as (before & t & Hturns & Hcalls' & Ht).
      exists (mkTurn c (calls st) (Ok r) calls1 :: before), t.
      rewrite Hturns. split; [reflexivity|]. split; [exact Hcalls' | exact Ht].
Qed.

(** The first turn of a run on a queue that is not empty. *)
Lemma queue_turns_first (fuel : nat) (st : queue_state) (c : ProcessingChunk)
    (rest : list ProcessingChunk) :
  queue_measure self st <= fuel -> chunk_queue st = c :: rest ->
  exists first later attempts,
    queue_turns py_str self model fuel company_name year st = first :: later
    /\ t_chunk first = c /\ t_calls first = calls st
    /\ process_chunk_with_backtrack py_str self model c (Some company_name)
         (Some year) (chunk_num st + 1 =? 1)%Z (completed_sections st)
         default_max_retries (calls st)
       = Some (t_result first, t_calls_after first, attempts).
Proof.
  intros Hfuel Hqueue.
  destruct fuel as [| fuel].
  { unfold queue_measure in Hfuel. rewrite Hqueue in Hfuel.
    cbn [List.length] in Hfuel. lia. }
  cbn [queue_turns]. rewrite Hqueue.
  destruct (queue_step_turn st c rest)
    as (res & calls1 & attempts & Hrun & _ & _).
  rewrite Hrun. do 3 eexists. split; [reflexivity|].
  cbn [t_chunk t_calls t_result t_calls_after]. auto.
Qed.

(** A result that carries a remaining chunk is never the last of a run:
    the next turn is the turn of that chunk. *)
Lemma queue_turns_continue (fuel : nat) :
  forall st,
    queue_inv st -> queue_measure self st <= fuel ->
    forall before t after r remaining,
      queue_turns py_str self model fuel company_name year st
      = before ++ t :: after ->
      t_result t = Ok r -> r_remaining_chunk r = Some remaining ->
      exists t' after', after = t' :: after' /\ t_chunk t' = remaining.
Proof.
  induction fuel as [| fuel IH]; intros st Hinv Hfuel before t after r remaining;
    cbn [queue_turns]; destruct (chunk_queue st) as [| c rest] eqn:Hqueue;
    try (destruct before; discriminate).
  destruct (queue_step_turn st c rest)
    as (res & calls1 & attempts & Hrun & _ & Hcase).
  rewrite Hrun.
  destruct res as [r0|e].
  2:{ rewrite Hcase. destruct before as [| b before]; cbn [app].
      - intros H. injection H as <- _. cbn [t_result]. discriminate.
      - intros H. injection H as _ H. destruct before; discriminate. }
  destruct Hcase as [_ [(entry & completed & _ & Hstep)
                       | (e & _ & Hnone & _ & Hstep)]].
  2:{ rewrite Hstep. destruct before as [| b before]; cbn [app].
      - intros H. injection H as <- _. cbn [t_result].
        intros Hr Hrem. injection Hr as <-. congruence.
      - intros H. injection H as _ H. destruct before; discriminate. }
  rewrite Hstep.
  destruct (queue_step_measure py_str self model company_name year st _ c rest
              calls1 Hinv Hqueue Hstep) as [Hinv' Hless].
  destruct before as [| b before]; cbn [app].
  - intros H. injection H as <- Hafter. cbn [t_result].
    intros Hr Hrem. injection Hr as <-.
    rewrite Hrem in Hafter, Hless.
    assert (Hfuel' : queue_measure self
                       (mkQueue (all_results st ++ [entry]) completed
                          (remaining :: rest) (chunk_num st + 1) calls1)
                     <= fuel) by lia.
    destruct (queue_turns_first fuel _ remaining rest Hfuel' eq_refl)
      as (first & later & attempts' & Hturns & Hchunk & _).
    rewrite Hturns in Hafter. exists first, later. split; [congruence | exact Hchunk].
  - intros H. injection H as _ H. eapply IH; eauto. lia.
Qed.

End TurnFacts.

(** C8. The loop over the queue ends, and its turns go as follows.  Each
    turn takes the first chunk of the queue and runs the chunk processor
    on it, once, starting at the count of model calls at which the turn
    before it ended.  The queue of the next turn is the rest of the queue,
    with the remaining chunk of the result in front of it whenever the
    result carries one: such a result is never the last of the run, and
    the turn after it is the turn of that remaining chunk.  So the turns of a run are the turn of the first
    chunk of the queue, then the turns of its continuations, each on the
    remaining chunk of the turn before, and only then the turns on the
    rest of the queue.  When the loop ends without exception the queue is
    empty, every chunk of the queue has had its turn, and the results are
    the results there were followed by one entry for each turn, in order. *)
Theorem remaining_chunk_goes_first (py_str : pyval -> string)
    (self : TenKProcessor) (model : Model) (company_name year : string)
    (st : queue_state) (fuel : nat)
    (Hinv : queue_inv st)
    (Hfuel : queue_measure self st <= fuel) :
  let turns := queue_turns py_str self model fuel company_name year st in
  exists res calls',
    queue_loop py_str self model fuel company_name year st = Some (res, calls')
    /\ front_first (chunk_queue st) turns
    /\ one_at_a_time (calls st) turns
    /\ (forall current_chunk rest,
          chunk_queue st = current_chunk :: rest ->
          exists first continuations later attempts,
            turns = first :: continuations ++ later
            /\ t_chunk first = current_chunk
            /\ process_chunk_with_backtrack py_str self model current_chunk
                 (Some company_name) (Some year) (chunk_num st + 1 =? 1)%Z
                 (completed_sections st) default_max_retries (calls st)
               = Some (t_result first, t_calls_after first, attempts)
            /\ continuation_run first continuations
            /\ front_first rest later
            /\ (later <> [] ->
                exists r, t_result (last continuations first) = Ok r
                          /\ r_remaining_chunk r = None))
    /\ (forall before t after r remaining,
          turns = before ++ t :: after ->
          t_result t = Ok r -> r_remaining_chunk r = Some remaining ->
          exists t' after', after = t' :: after' /\ t_chunk t' = remaining)
    /\ match res with
       | Ok st' =>
           chunk_queue st' = []
           /\ incl (chunk_queue st) (map t_chunk turns)
           /\ all_results st' = all_results st ++ flat_map entries_of_turn turns
           /\ List.length (all_results st')
              = List.length (all_results st) + List.length turns
           /\ chunk_num st' = (chunk_num st + Z.of_nat (List.length turns))%Z
           /\ calls st' = calls'
       | Raise e =>
           exists before t,
             turns = before ++ [t]
             /\ (t_result t = Raise e
                 \/ exists r,
                      t_result t = Ok r /\ r_success r = true
                      /\ py_iter (match r_completed_sections r with
                                  | Some v => v
                                  | None => PList []
                                  end) = Raise e)
       end.
Proof.
  intros turns.
  destruct (queue_loop_turns py_str self model company_name year fuel st Hinv Hfuel)
    as (res & calls' & Hloop & Hfront & Hseq & Hres).
  fold turns in Hfront, Hseq, Hres.
  exists res, calls'. split; [exact Hloop|]. split; [exact Hfront|].
  split; [exact Hseq|]. split; [|split].
  - intros current_chunk rest Hqueue.
    destruct (queue_turns_first py_str self model company_name year fuel st
                current_chunk rest Hfuel Hqueue)
      as (first & later0 & attempts & Hturns & Hchunk & _ & Hrun).
    fold turns in Hturns. rewrite Hturns, Hqueue in Hfront.
    destruct (front_first_split _ _ _ _ Hfront)
      as (conts & later & -> & Hrun' & Hlater & Hlast).
    exists first, conts, later, attempts. rewrite Hturns. auto 10.
  - intros before t after r remaining Hturns.
    eapply (queue_turns_continue py_str self model company_name year fuel st);
      eauto.
  - destruct res as [st'|e].
    + destruct Hres as (Hempty & Hincl & Hall & Hnum & Hcalls & Hok).
      split; [exact Hempty|]. split; [exact Hincl|]. split; [exact Hall|].
      split; [|auto].
      rewrite Hall, length_app. f_equal.
      apply flat_map_singletons.
      eapply Forall_impl; [|exact Hok]. intros t (r & _ & _ & H). exact H.
    + destruct Hres as (before & t & Hturns & _ & Ht). eauto.
Qed.

Lemma remaining_chunk_goes_first_witness :
  exists st',
    queue_loop str_of_string_value default_processor
      model_partial_then_completed
      (queue_measure default_processor two_chunk_queue) "ACME" "2024"
      two_chunk_queue
    = Some (Ok st', 3)
    /\ map (fun t => chunk_id (t_chunk t))
         (queue_turns str_of_string_value default_processor
            model_partial_then_completed
            (queue_measure default_processor two_chunk_queue) "ACME" "2024"
            two_chunk_queue)
       = [IdInt 1; IdStr "1_continued"; IdInt 2]
    /\ map (fun t => (t_calls t, t_calls_after t))
         (queue_turns str_of_string_value default_processor
            model_partial_then_completed
            (queue_measure default_processor two_chunk_queue) "ACME" "2024"
            two_chunk_queue)
       = [(0, 1); (1, 2); (2, 3)]
    /\ List.length (all_results st') = 3
    /\ chunk_queue st' = []
    /\ front_first [short_chunk; later_chunk]
         (queue_turns str_of_string_value default_processor
            model_partial_then_completed
            (queue_measure default_processor two_chunk_queue) "ACME" "2024"
            two_chunk_queue).
Proof.
  assert (Hinv : queue_inv two_chunk_queue)
    by (split; [cbn; lia | reflexivity]).
  destruct (remaining_chunk_goes_first str_of_string_value default_processor
              model_partial_then_completed "ACME" "2024" two_chunk_queue
              (queue_measure default_processor two_chunk_queue)
              Hinv (le_n _))
    as (res & calls' & Hloop & Hfront & _ & _ & _ & Hres).
  pose (st1 :=
          match queue_loop str_of_string_value default_processor
                  model_partial_then_completed
                  (queue_measure default_processor two_chunk_queue)
                  "ACME" "2024" two_chunk_queue
          with
          | Some (Ok s, _) => s
          | _ => two_chunk_queue
          end).
  assert (Hrun : queue_loop str_of_string_value default_processor
                   model_partial_then_completed
                   (queue_measure default_processor two_chunk_queue)
                   "ACME" "2024" two_chunk_queue
                 = Some (Ok st1, 3))
    by (vm_compute; reflexivity).
  exists st1. split; [exact Hrun|].
  split; [vm_compute; reflexivity|].
  split; [vm_compute; reflexivity|].
  split; [vm_compute; reflexivity|].
  split; [vm_compute; reflexivity|].
  exact Hfront.
Defined.

(** ** Failed chunks *)

Lemma combine_step_failed (c c' : list (string * dict))
    (f f' : list FailedRecord) (e : ResultEntry) :
  combine_step (c, f) e = Ok (c', f') ->
  exists records,
    f' = f ++ records
    /\ forall info, e = FailedChunk info -> In (failed_record_of info) records.
Proof.
  destruct e as [j | info]; cbn [combine_step].
  - destruct (py_contains "error" j) as [[|]|]; cbn [bind]; [| |discriminate].
    + destruct (py_get j "chunk_id" PNone); cbn [bind]; [|discriminate].
      destruct (py_get j "error" PNone); cbn [bind]; [|discriminate].
      destruct (py_get j "sections" (PList [])) as [secs|]; cbn [bind];
        [|discriminate].
      destruct (py_iter secs) as [elems|]; cbn [bind]; [|discriminate].
      destruct (map_result attempted_of elems); cbn [bind]; [|discriminate].
      intros H. injection H as _ <-. eexists. split; [reflexivity|].
      discriminate.
    + destruct (py_get j "sections" (PDict [])) as [sd|]; cbn [bind];
        [|discriminate].
      destruct (py_items sd) as [items|]; cbn [bind]; [|discriminate].
      destruct (put_sections items c); cbn [bind]; [|discriminate].
      intros H. injection H as _ <-. exists []. rewrite app_nil_r.
      split; [reflexivity|]. discriminate.
  - intros H. injection H as _ <-. eexists. split; [reflexivity|].
    intros info' E. injection E as <-. left. reflexivity.
Qed.

Lemma combine_loop_failed (rs : list ResultEntry) :
  forall c c' f f',
    combine_loop (c, f) rs = Ok (c', f') ->
    exists records,
      f' = f ++ records
      /\ forall info, In (FailedChunk info) rs ->
                      In (failed_record_of info) records.
Proof.
  induction rs as [| e rest IH]; intros c c' f f'; cbn [combine_loop].
  - intros H. injection H as _ <-. exists []. rewrite app_nil_r.
    split; [reflexivity|]. intros info [].
  - destruct (combine_step (c, f) e) as [[c1 f1]|] eqn:E; cbn [bind];
      [|discriminate].
    intros H.
    destruct (combine_step_failed _ _ _ _ _ E) as (r1 & -> & H1).
    destruct (IH _ _ _ _ H) as (r2 & -> & H2).
    exists (r1 ++ r2). rewrite app_assoc. split; [reflexivity|].
    intros info [Hhere | Hin]; apply in_or_app; [left | right]; auto.
Qed.

Lemma updates_without_failed (rs : list ResultEntry) :
  updates_of (without_failed rs) = updates_of rs.
Proof.
  unfold updates_of, without_failed.
  induction rs as [| e rest IH]; [reflexivity|].
  destruct e as [j | info]; cbn [filter is_failed_chunk negb flat_map].
  - now rewrite IH.
  - exact IH.
Qed.

Lemma accepted_without_failed (rs : list ResultEntry) :
  forallb entry_accepted rs = true ->
  forallb entry_accepted (without_failed rs) = true.
Proof.
  unfold without_failed.
  induction rs as [| e rest IH]; [reflexivity|].
  cbn [forallb filter]. intros H. apply andb_true_iff in H as [He Hrest].
  destruct (negb (is_failed_chunk e)); cbn [forallb]; auto.
  rewrite He. cbn [andb]. auto.
Qed.

(** The failed chunks of a filing: every dict of a failed chunk among the
    results has its record, and the categories are those of the results
    without these dicts. *)
Lemma combine_failed_chunks (now : string) (rs : list ResultEntry)
    (company_name year : option string) (f : StructuredFiling) :
  combine_incremental_results now rs company_name year = Ok f ->
  (forall info, In (FailedChunk info) rs ->
                In (failed_record_of info) (failed_chunks (PROCESSING_METADATA f)))
  /\ exists f',
       combine_incremental_results now (without_failed rs) company_name year
       = Ok f'
       /\ CATEGORIES f' = CATEGORIES f.
Proof.
  intros H. split.
  - revert H. unfold combine_incremental_results.
    destruct (combine_loop (initial_categories, []) rs) as [[c fl]|] eqn:E;
      cbn [bind]; [|discriminate].
    intros H. injection H as <-. cbn [PROCESSING_METADATA failed_chunks].
    destruct (combine_loop_failed _ _ _ _ _ E) as (records & -> & Hin).
    exact Hin.
  - destruct (combine_categories _ _ _ _ _ H) as (Hput & _ & Hacc).
    destruct (combine_accepted_ok now (without_failed rs) company_name year
                (accepted_without_failed rs Hacc)) as [f' Hf'].
    exists f'. split; [exact Hf'|].
    destruct (combine_categories _ _ _ _ _ Hf') as (Hput' & _ & _).
    rewrite updates_without_failed in Hput'. congruence.
Qed.

(** A result with [success] false makes the queue loop note the chunk as
    failed and go on with the rest of the queue. *)
Lemma failed_result_recorded (py_str : pyval -> string) (self : TenKProcessor)
    (model : Model) (company_name year : string) (st : queue_state)
    (current_chunk : ProcessingChunk) (rest : list ProcessingChunk)
    (r : ChunkResult) (calls' attempts : nat) :
  process_chunk_with_backtrack py_str self model current_chunk
    (Some company_name) (Some year) (chunk_num st + 1 =? 1)%Z
    (completed_sections st) default_max_retries (calls st)
  = Some (Ok r, calls', attempts) ->
  r_success r = false ->
  exists message,
    r_error r = Some message
    /\ queue_step py_str self model company_name year st current_chunk rest
       = Some
           (Ok (mkQueue
                  (all_results st
                   ++ [FailedChunk
                         (mkFailedInfo
                            ("FAILED_" ++ str_of_id (chunk_id current_chunk))
                            (Some message) (sections current_chunk)
                            (match r_raw_response r with
                             | Some t => t
                             | None => ""
                             end))])
                  (completed_sections st) rest (chunk_num st + 1) calls'),
            calls').
Proof.
  intros Hrun Hsuccess.
  destruct (process_chunk_ends py_str self model company_name year
              current_chunk st) as (res & calls1 & attempts1 & Hrun1 & Hsound).
  rewrite Hrun in Hrun1. injection Hrun1 as <- <- <-.
  destruct Hsound as (Hfailure & _).
  destruct (Hfailure Hsuccess) as (Herror & _).
  destruct (r_error r) as [message|] eqn:E; [|congruence].
  exists message. split; [reflexivity|].
  unfold queue_step. rewrite Hrun, Hsuccess, E. reflexivity.
Qed.

(** The pipeline from end to end: what [process_with_gemini] gives, and
    where it comes from. *)
Ltac by_fallback H :=
  match goal with
  | |- exists out, Some (bind (process_full_document _ _ ?c) _) = Some out /\ _ =>
      let out := fresh "out" in
      let Hout := fresh "Hout" in
      let Hcase := fresh "Hcase" in
      destruct (H c) as (out & Hout & Hcase);
      exists out; split; [exact Hout|];
      destruct out as [[?|?]|?]; [destruct Hcase | exact Hcase | exact Hcase]
  end.

Lemma process_with_gemini_outcome (py_str : pyval -> string)
    (strategy_matches : string -> list Boundary) (str_upper : string -> string)
    (extract_company_info : string -> string * string) (self : TenKProcessor)
    (model : Model) (now : string) (document_content : string) (fuel : nat) :
  turns_bound strategy_matches str_upper self document_content <= fuel ->
  exists out,
    process_with_gemini py_str strategy_matches str_upper extract_company_info
      self model now fuel document_content = Some out
    /\ match out with
       | Raise e =>
           exists calls',
             process_full_document model document_content calls' = Raise e
       | Ok (RawResponse text) =>
           exists calls',
             process_full_document model document_content calls' = Ok text
       | Ok (JsonResponse f) =>
           exists chunks st,
             extract_sections_dynamic strategy_matches str_upper self
               document_content = Ok chunks
             /\ chunks <> []
             /\ queue_loop py_str self model fuel
                  (fst (extract_company_info document_content))
                  (snd (extract_company_info document_content))
                  (mkQueue [] [] chunks 0 0)
                = Some (Ok st, calls st)
             /\ chunk_queue st = []
             /\ front_first chunks
                  (queue_turns py_str self model fuel
                     (fst (extract_company_info document_content))
                     (snd (extract_company_info document_content))
                     (mkQueue [] [] chunks 0 0))
             /\ incl chunks
                  (map t_chunk
                     (queue_turns py_str self model fuel
                        (fst (extract_company_info document_content))
                        (snd (extract_company_info document_content))
                        (mkQueue [] [] chunks 0 0)))
             /\ all_results st
                = flat_map entries_of_turn
                    (queue_turns py_str self model fuel
                       (fst (extract_company_info document_content))
                       (snd (extract_company_info document_content))
                       (mkQueue [] [] chunks 0 0))
             /\ combine_incremental_results now (all_results st)
                  (Some (fst (extract_company_info document_content)))
                  (Some (snd (extract_company_info document_content)))
                = Ok f
             /\ chunks_processed (PROCESSING_METADATA f)
                = List.length
                    (queue_turns py_str self model fuel
                       (fst (extract_company_info document_content))
                       (snd (extract_company_info document_content))
                       (mkQueue [] [] chunks 0 0))
             /\ (forall t,
                   In t (queue_turns py_str self model fuel
                           (fst (extract_company_info document_content))
                           (snd (extract_company_info document_content))
                           (mkQueue [] [] chunks 0 0)) ->
                   exists r,
                     t_result t = Ok r
                     /\ (r_success r = false ->
                         exists message,
                           r_error r = Some message
                           /\ In (mkFailedRecord
                                    (PStr ("FAILED_"
                                           ++ str_of_id (chunk_id (t_chunk t))))
                                    (PStr message)
                                    (map (fun s =>
                                            option_str_to_py (s_item_number s))
                                         (sections (t_chunk t))))
                                 (failed_chunks (PROCESSING_METADATA f))))
             /\ exists f',
                  combine_incremental_results now
                    (without_failed (all_results st))
                    (Some (fst (extract_company_info document_content)))
                    (Some (snd (extract_company_info document_content)))
                  = Ok f'
                  /\ CATEGORIES f' = CATEGORIES f
       end.
Proof.
  unfold turns_bound, process_with_gemini, incremental_processing.
  destruct (extract_company_info document_content) as [co yr]. cbn [fst snd].
  assert (Hfallback : forall calls',
             exists out,
               Some (do text <- process_full_document model document_content calls';
                     Ok (RawResponse text)) = Some out
               /\ match out with
                  | Raise e =>
                      exists calls2,
                        process_full_document model document_content calls2
                        = Raise e
                  | Ok (RawResponse text) =>
                      exists calls2,
                        process_full_document model document_content calls2
                        = Ok text
                  | Ok (JsonResponse f) => False
                  end).
  { intros calls'.
    destruct (process_full_document model document_content calls')
      as [text|e] eqn:Hfull; cbn [bind].
    - exists (Ok (RawResponse text)). split; [reflexivity|]. exists calls'.
      exact Hfull.
    - exists (Raise e). split; [reflexivity|]. exists calls'. exact Hfull. }
  destruct (extract_sections_dynamic strategy_matches str_upper self
              document_content) as [[| c chunks]|e] eqn:Hchunks; intros Hfuel.
  - destruct (process_full_document model document_content 0)
      as [text|e0] eqn:Hfull; cbn [bind].
    + exists (Ok (RawResponse text)). split; [reflexivity|]. exists 0.
      exact Hfull.
    + by_fallback Hfallback.
  - assert (Hinv : queue_inv (mkQueue [] [] (c :: chunks) 0 0))
      by (split; cbn [chunk_num completed_sections]; [lia|reflexivity]).
    destruct (queue_loop_turns py_str self model co yr fuel _ Hinv Hfuel)
      as (res & calls' & Hloop & Hfront & _ & Hres).
    rewrite Hloop.
    destruct res as [st|e]; [|by_fallback Hfallback].
    destruct (combine_incremental_results now (all_results st) (Some co)
                (Some yr)) as [f|e] eqn:Hcombine; cbn [bind];
      [|by_fallback Hfallback].
    destruct Hres as (Hempty & Hincl & Hall & _ & Hcalls & Hok).
    cbn [chunk_queue all_results app] in Hfront, Hincl, Hall.
    eexists. split; [reflexivity|].
    exists (c :: chunks), st.
    split; [reflexivity|]. split; [discriminate|].
    split; [rewrite Hcalls; exact Hloop|].
    split; [exact Hempty|]. split; [exact Hfront|]. split; [exact Hincl|].
    split; [exact Hall|]. split; [exact Hcombine|].
    destruct (combine_failed_chunks _ _ _ _ _ Hcombine) as [Hrecords Hcategories].
    split.
    { assert (Hlen : chunks_processed (PROCESSING_METADATA f)
                     = List.length (all_results st)).
      { revert Hcombine. unfold combine_incremental_results.
        destruct (combine_loop (initial_categories, []) (all_results st))
          as [[cs fl]|]; cbn [bind]; [|discriminate].
        intros H. injection H as <-. reflexivity. }
      rewrite Hlen, Hall. apply flat_map_singletons.
      eapply Forall_impl; [|exact Hok]. intros t (r & _ & _ & H). exact H. }
    split; [|exact Hcategories].
    intros t Ht. rewrite Forall_forall in Hok.
    destruct (Hok t Ht) as (r & Hr & Herror & _).
    exists r. split; [exact Hr|]. intros Hfailed.
    destruct (Herror Hfailed) as [message Hmessage].
    exists message. split; [exact Hmessage|].
    assert (Hin : In (FailedChunk
                        (mkFailedInfo
                           ("FAILED_" ++ str_of_id (chunk_id (t_chunk t)))
                           (Some message) (sections (t_chunk t))
                           (match r_raw_response r with
                            | Some text => text
                            | None => ""
                            end)))
                     (all_results st)).
    { rewrite Hall. apply in_flat_map. exists t. split; [exact Ht|].
      unfold entries_of_turn. rewrite Hr, Hfailed, Hmessage. left. reflexivity. }
    exact (Hrecords _ Hin).
  - by_fallback Hfallback.
Qed.

(** C7, as the code has it.  For every document and every behaviour of the
    model [process_with_gemini] ends: the queue loop empties its queue or
    is left within a number of turns known from the plan.  An exception
    leaves it only as the exception of [process_full_document], the fallback
    it takes after any exception of the incremental processing.  In the
    queue loop a chunk whose result has [success] false raises nothing: its
    dict goes to the results and the loop goes on with the rest of the queue.
    The combiner gives every such dict a record in [failed_chunks] and no
    section: the categories are those of the other results.  And from end
    to end: what [process_with_gemini] gives is an exception of the
    fallback, or the raw text of the fallback, or a filing; the filing is
    the combination of the results of the queue loop run on the planned
    chunks until the queue is empty, one result for each turn of the loop;
    no turn has raised; every turn whose chunk failed has its record in
    [failed_chunks], with the id of the chunk after [FAILED_], the error
    string and the item numbers of the sections of the chunk; and the
    categories are those of the results without the failed chunks. *)
Theorem pipeline_ends_and_records_failures (py_str : pyval -> string)
    (strategy_matches : string -> list Boundary) (str_upper : string -> string)
    (extract_company_info : string -> string * string) (self : TenKProcessor)
    (model : Model) (now : string) :
  (forall document_content fuel,
      turns_bound strategy_matches str_upper self document_content <= fuel ->
      exists out,
        process_with_gemini py_str strategy_matches str_upper
          extract_company_info self model now fuel document_content = Some out
        /\ forall e, out = Raise e ->
                     exists calls',
                       process_full_document model document_content calls'
                       = Raise e)
  /\ (forall company_name year st current_chunk rest r calls' attempts,
        process_chunk_with_backtrack py_str self model current_chunk
          (Some company_name) (Some year) (chunk_num st + 1 =? 1)%Z
          (completed_sections st) default_max_retries (calls st)
        = Some (Ok r, calls', attempts) ->
        r_success r = false ->
        exists message,
          r_error r = Some message
          /\ queue_step py_str self model company_name year st current_chunk rest
             = Some
                 (Ok (mkQueue
                        (all_results st
                         ++ [FailedChunk
                               (mkFailedInfo
                                  ("FAILED_" ++ str_of_id (chunk_id current_chunk))
                                  (Some message) (sections current_chunk)
                                  (match r_raw_response r with
                                   | Some t => t
                                   | None => ""
                                   end))])
                        (completed_sections st) rest (chunk_num st + 1) calls'),
                  calls'))
  /\ (forall rs company_name year f,
        combine_incremental_results now rs company_name year = Ok f ->
        (forall info,
            In (FailedChunk info) rs ->
            In (mkFailedRecord (PStr (f_chunk_id info))
                  (option_str_to_py (f_error info))
                  (map (fun s => option_str_to_py (s_item_number s))
                       (f_sections info)))
               (failed_chunks (PROCESSING_METADATA f)))
        /\ exists f',
             combine_incremental_results now (without_failed rs) company_name year
             = Ok f'
             /\ CATEGORIES f' = CATEGORIES f)
  /\ (forall document_content fuel,
        turns_bound strategy_matches str_upper self document_content <= fuel ->
        exists out,
          process_with_gemini py_str strategy_matches str_upper
            extract_company_info self model now fuel document_content = Some out
          /\ match out with
             | Raise e =>
                 exists calls',
                   process_full_document model document_content calls' = Raise e
             | Ok (RawResponse text) =>
                 exists calls',
                   process_full_document model document_content calls' = Ok text
             | Ok (JsonResponse f) =>
                 exists chunks st,
                   extract_sections_dynamic strategy_matches str_upper self
                     document_content = Ok chunks
                   /\ chunks <> []
                   /\ queue_loop py_str self model fuel
                        (fst (extract_company_info document_content))
                        (snd (extract_company_info document_content))
                        (mkQueue [] [] chunks 0 0)
                      = Some (Ok st, calls st)
                   /\ chunk_queue st = []
                   /\ front_first chunks
                        (queue_turns py_str self model fuel
                           (fst (extract_company_info document_content))
                           (snd (extract_company_info document_content))
                           (mkQueue [] [] chunks 0 0))
                   /\ incl chunks
                        (map t_chunk
                           (queue_turns py_str self model fuel
                              (fst (extract_company_info document_content))
                              (snd (extract_company_info document_content))
                              (mkQueue [] [] chunks 0 0)))
                   /\ all_results st
                      = flat_map entries_of_turn
                          (queue_turns py_str self model fuel
                             (fst (extract_company_info document_content))
                             (snd (extract_company_info document_content))
                             (mkQueue [] [] chunks 0 0))
                   /\ combine_incremental_results now (all_results st)
                        (Some (fst (extract_company_info document_content)))
                        (Some (snd (extract_company_info document_content)))
                      = Ok f
                   /\ chunks_processed (PROCESSING_METADATA f)
                      = List.length
                          (queue_turns py_str self model fuel
                             (fst (extract_company_info document_content))
                             (snd (extract_company_info document_content))
                             (mkQueue [] [] chunks 0 0))
                   /\ (forall t,
                         In t (queue_turns py_str self model fuel
                                 (fst (extract_company_info document_content))
                                 (snd (extract_company_info document_content))
                                 (mkQueue [] [] chunks 0 0)) ->
                         exists r,
                           t_result t = Ok r
                           /\ (r_success r = false ->
                               exists message,
                                 r_error r = Some message
                                 /\ In (mkFailedRecord
                                          (PStr ("FAILED_"
                                                 ++ str_of_id
                                                      (chunk_id (t_chunk t))))
                                          (PStr message)
                                          (map (fun s =>
                                                  option_str_to_py
                                                    (s_item_number s))
                                               (sections (t_chunk t))))
                                       (failed_chunks (PROCESSING_METADATA f))))
                   /\ exists f',
                        combine_incremental_results now
                          (without_failed (all_results st))
                          (Some (fst (extract_company_info document_content)))
                          (Some (snd (extract_company_info document_content)))
                        = Ok f'
                        /\ CATEGORIES f' = CATEGORIES f
             end).
Proof.
  split; [|split; [|split]].
  - intros document_content fuel. apply process_with_gemini_ends.
  - intros company_name year st current_chunk rest r calls' attempts.
    apply failed_result_recorded.
  - intros rs company_name year f. apply combine_failed_chunks.
  - intros document_content fuel. apply process_with_gemini_outcome.
Qed.

(** C7 as stated fails: the model answers the one chunk of the short
    filing with a completed status and [sections_completed] null, so that
    extending the list of completed sections raises; the fallback calls the
    model again, the call raises, and the exception of
    [process_full_document] leaves [process_with_gemini]. *)
Lemma fallback_exception_escapes :
  process_with_gemini str_of_string_value (fun _ => short_filing_matches)
    ascii_upper acme_info default_processor model_null_then_down
    "2026-01-01T10:00:00" 1 short_filing
  = Some (Raise (mkExn PlainException
                   "Error processing with Gemini: 503 Service Unavailable")).
Proof. vm_compute. reflexivity. Qed.

Lemma pipeline_ends_and_records_failures_witness :
  exists f,
    process_with_gemini str_of_string_value (fun _ => short_filing_matches)
      ascii_upper acme_info default_processor model_always_throws
      "2026-01-01T10:00:00"
      (turns_bound (fun _ => short_filing_matches) ascii_upper
         default_processor short_filing)
      short_filing
    = Some (Ok (JsonResponse f))
    /\ combine_incremental_results "2026-01-01T10:00:00"
         [FailedChunk short_chunk_failure] (Some "ACME") (Some "2024")
       = Ok f
    /\ failed_chunks (PROCESSING_METADATA f)
       = [mkFailedRecord (PStr "FAILED_1") (PStr "503 Service Unavailable")
            [PStr "1"]]
    /\ In (mkFailedRecord (PStr (f_chunk_id short_chunk_failure))
             (option_str_to_py (f_error short_chunk_failure))
             (map (fun s => option_str_to_py (s_item_number s))
                  (f_sections short_chunk_failure)))
          (failed_chunks (PROCESSING_METADATA f))
    /\ (exists f',
           combine_incremental_results "2026-01-01T10:00:00"
             (without_failed [FailedChunk short_chunk_failure])
             (Some "ACME") (Some "2024")
           = Ok f'
           /\ CATEGORIES f' = CATEGORIES f)
    /\ exists chunks st,
         extract_sections_dynamic (fun _ => short_filing_matches) ascii_upper
           default_processor short_filing = Ok chunks
         /\ all_results st
            = flat_map entries_of_turn
                (queue_turns str_of_string_value default_processor
                   model_always_throws
                   (turns_bound (fun _ => short_filing_matches) ascii_upper
                      default_processor short_filing)
                   "ACME" "2024" (mkQueue [] [] chunks 0 0))
         /\ combine_incremental_results "2026-01-01T10:00:00" (all_results st)
              (Some "ACME") (Some "2024")
            = Ok f
         /\ chunks_processed (PROCESSING_METADATA f) = 1.
Proof.
  pose (f0 :=
          match combine_incremental_results "2026-01-01T10:00:00"
                  [FailedChunk short_chunk_failure] (Some "ACME") (Some "2024")
          with
          | Ok f => f
          | Raise _ => mkFiling "" "" "" [] (mkMetadata "" 0 "" [] 0 [])
          end).
  assert (Hf : combine_incremental_results "2026-01-01T10:00:00"
                 [FailedChunk short_chunk_failure] (Some "ACME") (Some "2024")
               = Ok f0)
    by (vm_compute; reflexivity).
  assert (Hrun : process_with_gemini str_of_string_value
                   (fun _ => short_filing_matches) ascii_upper acme_info
                   default_processor model_always_throws "2026-01-01T10:00:00"
                   (turns_bound (fun _ => short_filing_matches) ascii_upper
                      default_processor short_filing)
                   short_filing
                 = Some (Ok (JsonResponse f0)))
    by (vm_compute; reflexivity).
  destruct (pipeline_ends_and_records_failures str_of_string_value
              (fun _ => short_filing_matches) ascii_upper acme_info
              default_processor model_always_throws "2026-01-01T10:00:00")
    as (_ & _ & Hcombiner & Hpipeline).
  destruct (Hcombiner _ _ _ _ Hf) as [Hrecord Hcategories].
  destruct (Hpipeline short_filing _ (le_n _)) as (out & Hout & Hcase).
  rewrite Hrun in Hout. injection Hout as <-.
  destruct Hcase as (chunks & st & Hchunks & _ & _ & _ & _ & _ & Hall & Hcombine
                     & Hcount & _ & _).
  exists f0.
  split; [exact Hrun|].
  split; [exact Hf|].
  split; [vm_compute; reflexivity|].
  split; [apply Hrecord; left; reflexivity|].
  split; [exact Hcategories|].
  exists chunks, st.
  split; [exact Hchunks|]. split; [exact Hall|]. split; [exact Hcombine|].
  rewrite Hcount.
  assert (Hc : chunks = [detected_chunk]).
  { assert (H : extract_sections_dynamic (fun _ => short_filing_matches)
                  ascii_upper default_processor short_filing
                = Ok [detected_chunk]) by (vm_compute; reflexivity).
    congruence. }
  rewrite Hc. vm_compute. reflexivity.
Defined.

(** * Further properties of the code *)

(** ** Chunk planner: what becomes of the sections *)

Lemma flush_sections (chunks : list PlanChunk) (current_chunk : PlanChunk)
    (end_ : Z) :
  plan_sections (flush chunks current_chunk end_)
  = plan_sections chunks ++ p_sections current_chunk.
Proof.
  unfold flush, plan_sections.
  destruct (p_sections current_chunk) as [| s secs] eqn:S.
  - now rewrite app_nil_r.
  - rewrite map_app, concat_app. cbn [map List.concat p_sections].
    now rewrite app_nil_r.
Qed.

Lemma flush_nonempty (P : PlanChunk -> Prop) (chunks : list PlanChunk)
    (current_chunk : PlanChunk) (end_ : Z) :
  Forall P chunks ->
  (p_sections current_chunk <> [] ->
   P (mkPlanChunk (p_start_pos current_chunk) end_ (p_sections current_chunk)
                  (p_estimated_input_tokens current_chunk)
                  (p_estimated_output_tokens current_chunk))) ->
  Forall P (flush chunks current_chunk end_).
Proof.
  intros Hall Hcur. unfold flush.
  destruct (p_sections current_chunk) as [| s secs] eqn:S; auto.
  apply Forall_app. split; auto. constructor; auto.
  apply Hcur. discriminate.
Qed.

Lemma sum_tokens_app (a b : list SectionInfo) :
  sum_tokens (a ++ b) = (sum_tokens a + sum_tokens b)%Z.
Proof. induction a as [| s r IH]; simpl; [reflexivity|]. rewrite IH. lia. Qed.

Lemma plan_loop_sections (document_content : string)
    (available_tokens max_output_tokens : Z) (boundaries : list Boundary) :
  forall chunks current_chunk chunks' current_chunk',
    plan_loop document_content available_tokens max_output_tokens boundaries
              chunks current_chunk = (chunks', current_chunk') ->
    Forall chunk_shape chunks ->
    p_estimated_input_tokens current_chunk
    = sum_tokens (p_sections current_chunk) ->
    plan_sections chunks' ++ p_sections current_chunk'
    = (plan_sections chunks ++ p_sections current_chunk)
      ++ planned_sections document_content available_tokens boundaries
    /\ Forall chunk_shape chunks'
    /\ p_estimated_input_tokens current_chunk'
       = sum_tokens (p_sections current_chunk').
Proof.
  induction boundaries as [| b rest IH];
    intros chunks current_chunk chunks' current_chunk' Hrun Hall Hsum.
  - cbn [plan_loop] in Hrun. injection Hrun as <- <-.
    cbn [planned_sections]. rewrite app_nil_r. auto.
  - cbn [plan_loop] in Hrun. cbn [planned_sections]. unfold planned_section.
    fold (next_pos document_content rest) in Hrun.
    set (p' := next_pos document_content rest) in *.
    set (tokens := estimate_token_count
                     (py_slice (b_position b) p' document_content)) in *.
    assert (Hflush : forall e, Forall chunk_shape (flush chunks current_chunk e)).
    { intros e. apply flush_nonempty; auto.
      intros Hne. split; cbn [p_sections p_estimated_input_tokens]; auto. }
    destruct (is_large_section tokens available_tokens) eqn:L.
    + apply IH in Hrun as (Hsec & Hall' & Hsum').
      * split; [|auto]. rewrite Hsec. unfold plan_sections at 1.
        rewrite map_app, concat_app. fold (plan_sections (flush chunks current_chunk (b_position b))).
        rewrite flush_sections. cbn [map List.concat p_sections empty_chunk].
        rewrite !app_nil_r, <- !app_assoc. reflexivity.
      * apply Forall_app. split; auto. constructor; [|constructor].
        split; cbn [p_sections p_estimated_input_tokens]; [discriminate|].
        cbn [sum_tokens section_of_boundary s_estimated_tokens]. lia.
      * reflexivity.
    + destruct ((p_estimated_input_tokens current_chunk + tokens >? available_tokens)%Z
                || float_gt_int
                     (fadd (p_estimated_output_tokens current_chunk)
                           (estimate_output tokens)) max_output_tokens).
      * apply IH in Hrun as (Hsec & Hall' & Hsum'); auto.
        -- split; [|auto]. rewrite Hsec, flush_sections.
           cbn [p_sections empty_chunk]. rewrite <- !app_assoc. reflexivity.
        -- cbn [p_sections p_estimated_input_tokens empty_chunk sum_tokens
                   app section_of_boundary s_estimated_tokens]. lia.
      * apply IH in Hrun as (Hsec & Hall' & Hsum'); auto.
        -- split; [|auto]. rewrite Hsec. cbn [p_sections].
           rewrite <- !app_assoc. reflexivity.
        -- cbn [p_sections p_estimated_input_tokens]. rewrite sum_tokens_app, Hsum.
           cbn [sum_tokens section_of_boundary s_estimated_tokens]. lia.
Qed.

Lemma planner_keeps_sections_lemma (self : TenKProcessor)
    (document_content : string) (boundaries : list Boundary)
    (max_input_tokens max_output_tokens : Z) :
  let chunks :=
    create_processing_chunks self document_content boundaries
                             max_input_tokens max_output_tokens in
  plan_sections chunks
  = planned_sections document_content
      (available_tokens_of self max_input_tokens) boundaries
  /\ Forall chunk_shape chunks
  /\ (boundaries = [] <-> chunks = []).
Proof.
  intros chunks. subst chunks. unfold create_processing_chunks.
  destruct (plan_loop document_content (available_tokens_of self max_input_tokens)
              max_output_tokens boundaries [] (empty_chunk 0))
    as [chunks' current_chunk'] eqn:Hrun.
  apply plan_loop_sections in Hrun as (Hsec & Hall & Hsum);
    [|constructor|reflexivity].
  cbn [plan_sections map List.concat empty_chunk p_sections app] in Hsec.
  assert (Hplan : plan_sections
                    (flush chunks' current_chunk'
                           (Z.of_nat (len document_content)))
                  = planned_sections document_content
                      (available_tokens_of self max_input_tokens) boundaries)
    by (now rewrite flush_sections).
  assert (Hshape : Forall chunk_shape
                     (flush chunks' current_chunk'
                            (Z.of_nat (len document_content)))).
  { apply flush_nonempty; auto.
    intros Hne. split; cbn [p_sections p_estimated_input_tokens]; auto. }
  split; [exact Hplan|]. split; [exact Hshape|].
  split.
  - intros ->. cbn [planned_sections] in Hplan.
    destruct (flush chunks' current_chunk' _) as [| c r]; [reflexivity|].
    inversion Hshape as [| ? ? [Hne _] _]; subst.
    unfold plan_sections in Hplan. cbn [map List.concat] in Hplan.
    destruct (p_sections c); [congruence | discriminate].
  - intros Hnil. rewrite Hnil in Hplan. cbn [plan_sections map List.concat] in Hplan.
    destruct boundaries; [reflexivity | discriminate].
Qed.

Lemma planned_sections_length (document_content : string)
    (available_tokens : Z) (boundaries : list Boundary) :
  List.length (planned_sections document_content available_tokens boundaries)
  = List.length boundaries.
Proof. induction boundaries; simpl; auto. Qed.

(** X1.  The planner loses no section and makes no empty chunk: the sections
    of its chunks, taken chunk after chunk, are the sections of the
    boundaries, one for each and in their order; every chunk holds a section
    at least, and its estimated input is the sum of the estimates of its
    sections. *)
Theorem planner_keeps_every_section (self : TenKProcessor)
    (document_content : string) (boundaries : list Boundary)
    (max_input_tokens max_output_tokens : Z) :
  let chunks :=
    create_processing_chunks self document_content boundaries
                             max_input_tokens max_output_tokens in
  plan_sections chunks
  = planned_sections document_content
      (available_tokens_of self max_input_tokens) boundaries
  /\ List.length (plan_sections chunks) = List.length boundaries
  /\ Forall (fun c => p_sections c <> []
                      /\ p_estimated_input_tokens c = sum_tokens (p_sections c))
            chunks
  /\ (boundaries = [] <-> chunks = []).
Proof.
  intros chunks.
  destruct (planner_keeps_sections_lemma self document_content boundaries
              max_input_tokens max_output_tokens) as (Hsec & Hshape & Hnil).
  fold chunks in Hsec, Hshape, Hnil.
  split; [exact Hsec|].
  split; [rewrite Hsec; apply planned_sections_length|].
  split; [exact Hshape | exact Hnil].
Qed.

Lemma planned_sections_have_span (document_content : string)
    (available_tokens : Z) (boundaries : list Boundary) :
  Forall section_has_span
         (planned_sections document_content available_tokens boundaries).
Proof.
  induction boundaries as [| b rest IH]; cbn [planned_sections]; constructor; auto.
  split; cbn; discriminate.
Qed.

Lemma number_chunks_ids (document_content : string) (chunks : list PlanChunk) :
  forall i,
    map chunk_id (number_chunks document_content i chunks)
    = ids_from i (List.length chunks)
    /\ List.length (number_chunks document_content i chunks) = List.length chunks
    /\ List.concat (map sections (number_chunks document_content i chunks))
       = plan_sections chunks.
Proof.
  induction chunks as [| c rest IH]; intros i; cbn; [auto|].
  destruct (IH (i + 1)%Z) as (-> & -> & Hs).
  unfold plan_sections in *. cbn. rewrite Hs. auto.
Qed.

Lemma number_chunks_planned (document_content : string)
    (chunks : list PlanChunk) :
  forall i,
    Forall (fun c => p_sections c <> []
                     /\ Forall section_has_span (p_sections c)) chunks ->
    Forall (fun c => planned_chunk c
                     /\ estimated_input_tokens c <> None
                     /\ exists a b, start_pos c = Some a /\ end_pos c = Some b
                                    /\ content c = py_slice a b document_content)
           (number_chunks document_content i chunks).
Proof.
  induction chunks as [| c rest IH]; intros i Hall; cbn [number_chunks];
    constructor; inversion Hall as [| ? ? [Hne Hspan] Hrest]; subst.
  - split; [|split].
    + repeat split; cbn; auto; discriminate.
    + cbn. discriminate.
    + cbn. eauto.
  - apply IH. exact Hrest.
Qed.

Lemma detect_returns (strategy_matches : string -> list Boundary)
    (str_upper : string -> string) (document_content : string) :
  exists final,
    detect_section_boundaries strategy_matches str_upper document_content
    = Ok final.
Proof.
  unfold detect_section_boundaries, filter_boundaries.
  destruct (filter_loop_inv str_upper document_content
              (sort_by_position (strategy_matches document_content)) []
              (mkFilterState [] []) (filter_inv_initial str_upper)
              (sort_by_position_sorted _))
    as (st & -> & _).
  cbn [bind]. eauto.
Qed.

Lemma plan_sections_in (chunks : list PlanChunk) (c : PlanChunk)
    (P : SectionInfo -> Prop) :
  Forall P (plan_sections chunks) -> In c chunks -> Forall P (p_sections c).
Proof.
  unfold plan_sections. intros Hall Hin.
  rewrite Forall_forall in *. intros s Hs. apply Hall.
  apply in_concat. exists (p_sections c). split; auto. now apply in_map.
Qed.

(** X3.  [extract_sections_dynamic] returns on every document, and never an
    empty list: without boundaries the whole-document chunk, otherwise the
    planned chunks, numbered from 1 in order, each with the keys the chunk
    processor reads and with the text of the document from its [start_pos]
    to its [end_pos] as content; their sections are the sections of the
    boundaries. *)
Theorem extract_sections_dynamic_never_empty
    (strategy_matches : string -> list Boundary) (str_upper : string -> string)
    (self : TenKProcessor) (document_content : string) :
  exists boundaries chunks,
    detect_section_boundaries strategy_matches str_upper document_content
    = Ok boundaries
    /\ extract_sections_dynamic strategy_matches str_upper self document_content
       = Ok chunks
    /\ chunks <> []
    /\ map chunk_id chunks = ids_from 0 (List.length chunks)
    /\ (boundaries = [] -> chunks = [whole_document_chunk document_content])
    /\ (boundaries <> [] ->
        Forall (fun c =>
                  planned_chunk c
                  /\ estimated_input_tokens c <> None
                  /\ exists a b, start_pos c = Some a /\ end_pos c = Some b
                                 /\ content c = py_slice a b document_content)
               chunks
        /\ List.concat (map sections chunks)
           = planned_sections document_content
               (available_tokens_of self default_max_input_tokens) boundaries).
Proof.
  destruct (detect_returns strategy_matches str_upper document_content)
    as [boundaries Hdetect].
  exists boundaries, (chunks_of_boundaries self document_content boundaries).
  split; [exact Hdetect|].
  split; [unfold extract_sections_dynamic; rewrite Hdetect; reflexivity|].
  destruct boundaries as [| b bs]; cbn [chunks_of_boundaries].
  - split; [discriminate|]. split; [reflexivity|]. split; [reflexivity|].
    intros H. now elim H.
  - pose proof (planner_keeps_sections_lemma self document_content (b :: bs)
                  default_max_input_tokens default_max_output_tokens)
      as (Hsec & Hshape & Hnil).
    set (plan := create_processing_chunks self document_content (b :: bs)
                   default_max_input_tokens default_max_output_tokens) in *.
    destruct (number_chunks_ids document_content plan 0) as (Hids & Hlen & Hcat).
    split.
    { intros H. apply (f_equal (@List.length _)) in H. rewrite Hlen in H.
      destruct plan; [|discriminate]. destruct Hnil as [_ Hn].
      specialize (Hn eq_refl). discriminate. }
    split; [rewrite Hlen; exact Hids|].
    split; [discriminate|]. intros _. split.
    + apply number_chunks_planned.
      rewrite Forall_forall. intros c Hc. split.
      * rewrite Forall_forall in Hshape. now apply Hshape.
      * apply (plan_sections_in plan); auto. rewrite Hsec.
        apply planned_sections_have_span.
    + rewrite Hcat. exact Hsec.
Qed.

(** ** [test_section_detection] *)

(** X4.  [test_section_detection] returns only on a document in which no
    boundary is detected, with empty results.  With a boundary there is a
    chunk in the plan, and the first turn of the loop over the chunks reads
    the key [chunk_id], which the dicts of [create_processing_chunks] do
    not have: [KeyError], whatever [preview_only] is. *)
Theorem test_section_detection_needs_no_boundary
    (strategy_matches : string -> list Boundary) (str_upper : string -> string)
    (self : TenKProcessor) (document_content : string) (preview_only : bool) :
  (detect_section_boundaries strategy_matches str_upper document_content = Ok []
   /\ test_section_detection strategy_matches str_upper self document_content
        preview_only
      = Ok (mkDetection 0 0 [] []))
  \/ (exists b bs,
        detect_section_boundaries strategy_matches str_upper document_content
        = Ok (b :: bs)
        /\ test_section_detection strategy_matches str_upper self
             document_content preview_only
           = Raise (key_error "chunk_id")).
Proof.
  destruct (detect_returns strategy_matches str_upper document_content)
    as [[| b bs] Hdetect]; unfold test_section_detection; rewrite Hdetect;
    cbn [bind].
  - left. split; [reflexivity|].
    change (create_processing_chunks self document_content []
              default_max_input_tokens default_max_output_tokens)
      with (@nil PlanChunk).
    cbn [map_result bind]. destruct preview_only; reflexivity.
  - right. exists b, bs. split; [reflexivity|].
    destruct (planner_keeps_sections_lemma self document_content (b :: bs)
                default_max_input_tokens default_max_output_tokens)
      as (_ & _ & Hnil).
    destruct (create_processing_chunks self document_content (b :: bs)
                default_max_input_tokens default_max_output_tokens)
      as [| c rest].
    + destruct Hnil as [_ Hn]. specialize (Hn eq_refl). discriminate.
    + reflexivity.
Qed.

(** ** Chunk planner: the estimate of a chunk and its text *)

Lemma len_take (n : nat) (s : string) : len (take n s) = Nat.min n (len s).
Proof.
  revert n. induction s as [| c r IH]; intros [| n]; simpl; auto.
Qed.

Lemma len_drop (n : nat) (s : string) : len (drop n s) = len s - n.
Proof.
  revert n. induction s as [| c r IH]; intros [| n]; simpl; auto.
Qed.

Lemma len_py_slice (a b : Z) (s : string) :
  (0 <= a <= b)%Z -> (b <= Z.of_nat (len s))%Z ->
  Z.of_nat (len (py_slice a b s)) = (b - a)%Z.
Proof.
  intros Hab Hb. unfold py_slice, slice_index, slice.
  destruct (Z.ltb_spec a 0); [lia|].
  destruct (Z.ltb_spec b 0); [lia|].
  rewrite len_take, len_drop. lia.
Qed.

(** A slice is never longer than the text it is cut from. *)
Lemma len_py_slice_le (a b : Z) (s : string) : len (py_slice a b s) <= len s.
Proof.
  unfold py_slice, slice. rewrite len_take, len_drop. lia.
Qed.

Lemma plan_loop_estimates (document_content : string)
    (available_tokens max_output_tokens : Z) (boundaries : list Boundary) :
  let n := Z.of_nat (len document_content) in
  let fits (c : PlanChunk) :=
    (0 <= p_start_pos c <= p_end_pos c)%Z /\ (p_end_pos c <= n)%Z
    /\ (4 * p_estimated_input_tokens c <= p_end_pos c - p_start_pos c)%Z in
  forall chunks current_chunk chunks' current_chunk',
    boundaries_in_order document_content boundaries ->
    plan_loop document_content available_tokens max_output_tokens boundaries
              chunks current_chunk = (chunks', current_chunk') ->
    Forall fits chunks ->
    (0 <= p_start_pos current_chunk
     <= next_pos document_content boundaries)%Z ->
    (4 * p_estimated_input_tokens current_chunk
     <= next_pos document_content boundaries - p_start_pos current_chunk)%Z ->
    Forall fits chunks'
    /\ (0 <= p_start_pos current_chunk' <= n)%Z
    /\ (4 * p_estimated_input_tokens current_chunk'
        <= n - p_start_pos current_chunk')%Z.
Proof.
  intros n fits. subst n.
  induction boundaries as [| b rest IH];
    intros chunks current_chunk chunks' current_chunk' [Hsorted Hrange] Hrun
           Hall Hstart Hsum.
  - cbn [plan_loop] in Hrun. injection Hrun as <- <-. cbn [next_pos] in *.
    auto.
  - cbn [plan_loop] in Hrun. cbn [next_pos] in Hstart, Hsum.
    inversion Hsorted as [| ? ? Hsorted' Hfirst]; subst.
    inversion Hrange as [| ? ? Hb Hrange']; subst.
    fold (next_pos document_content rest) in Hrun.
    assert (Hnext : (b_position b <= next_pos document_content rest
                     <= Z.of_nat (len document_content))%Z).
    { destruct rest as [| b' r]; cbn [next_pos]; [lia|].
      inversion Hfirst; subst. inversion Hrange'; subst.
      unfold by_position in *. lia. }
    set (p := b_position b) in *.
    set (p' := next_pos document_content rest) in *.
    assert (Htokens : (4 * estimate_token_count
                             (py_slice p p' document_content) <= p' - p)%Z).
    { unfold estimate_token_count. rewrite len_py_slice by lia.
      Z.div_mod_to_equations. lia. }
    set (tokens := estimate_token_count (py_slice p p' document_content)) in *.
    assert (Hflush : Forall fits (flush chunks current_chunk p)).
    { apply flush_nonempty; auto. intros _. unfold fits. cbn [empty_chunk p_start_pos p_end_pos p_estimated_input_tokens]. lia. }
    assert (Hord : boundaries_in_order document_content rest) by (split; auto).
    destruct (is_large_section tokens available_tokens).
    + eapply IH; [exact Hord | exact Hrun | | cbn [empty_chunk p_start_pos p_end_pos p_estimated_input_tokens]; lia | cbn [empty_chunk p_start_pos p_end_pos p_estimated_input_tokens]; lia].
      apply Forall_app. split; auto. constructor; [|constructor].
      unfold fits. cbn [empty_chunk p_start_pos p_end_pos p_estimated_input_tokens]. lia.
    + destruct ((p_estimated_input_tokens current_chunk + tokens >? available_tokens)%Z
                || float_gt_int
                     (fadd (p_estimated_output_tokens current_chunk)
                           (estimate_output tokens)) max_output_tokens).
      * eapply IH; [exact Hord | exact Hrun | exact Hflush | cbn [empty_chunk p_start_pos p_end_pos p_estimated_input_tokens]; lia | cbn [empty_chunk p_start_pos p_end_pos p_estimated_input_tokens]; lia].
      * eapply IH; [exact Hord | exact Hrun | exact Hall | cbn [empty_chunk p_start_pos p_end_pos p_estimated_input_tokens]; lia | cbn [empty_chunk p_start_pos p_end_pos p_estimated_input_tokens]; lia].
Qed.

(** X2.  For boundaries that lie in the document in order of position, the
    planner never overestimates a chunk: [estimated_input_tokens], the sum
    of the estimates of the sections, is at most the estimate
    [estimate_token_count] gives of the text of the chunk. *)
Theorem planner_never_overestimates (self : TenKProcessor)
    (document_content : string) (boundaries : list Boundary)
    (max_input_tokens max_output_tokens : Z)
    (Hord : boundaries_in_order document_content boundaries) :
  Forall (fun c =>
            p_estimated_input_tokens c = sum_tokens (p_sections c)
            /\ (p_estimated_input_tokens c
                <= estimate_token_count (chunk_text document_content c))%Z)
         (create_processing_chunks self document_content boundaries
                                   max_input_tokens max_output_tokens).
Proof.
  destruct (planner_keeps_sections_lemma self document_content boundaries
              max_input_tokens max_output_tokens) as (_ & Hshape & _).
  revert Hshape. unfold create_processing_chunks.
  destruct (plan_loop document_content (available_tokens_of self max_input_tokens)
              max_output_tokens boundaries [] (empty_chunk 0))
    as [chunks' current_chunk'] eqn:Hrun.
  intros Hshape.
  assert (Hfirst : (0 <= next_pos document_content boundaries)%Z).
  { destruct boundaries as [| b r]; cbn [next_pos]; [lia|].
    destruct Hord as [_ Hr]. inversion Hr; subst. lia. }
  destruct (plan_loop_estimates document_content _ _ boundaries _ _ _ _
              Hord Hrun (Forall_nil _)) as (Hall & Hstart & Hsum);
    [cbn [empty_chunk p_start_pos p_end_pos p_estimated_input_tokens]; lia | cbn [empty_chunk p_start_pos p_end_pos p_estimated_input_tokens]; lia |].
  assert (Hfits : Forall
            (fun c =>
               (0 <= p_start_pos c <= p_end_pos c)%Z
               /\ (p_end_pos c <= Z.of_nat (len document_content))%Z
               /\ (4 * p_estimated_input_tokens c
                   <= p_end_pos c - p_start_pos c)%Z)
            (flush chunks' current_chunk' (Z.of_nat (len document_content)))).
  { apply flush_nonempty; auto. intros _. cbn [empty_chunk p_start_pos p_end_pos p_estimated_input_tokens]. lia. }
  rewrite Forall_forall in *. intros c Hc.
  destruct (Hshape c Hc) as [_ Hsum_c]. split; [exact Hsum_c|].
  destruct (Hfits c Hc) as (H1 & H2 & H3).
  unfold estimate_token_count, chunk_text. rewrite len_py_slice by lia.
  Z.div_mod_to_equations. lia.
Qed.

Lemma planner_never_overestimates_witness :
  boundaries_in_order short_filing
    [short_item_1 "bold_headers" (8 # 10); short_item_1A "bold_headers" (8 # 10)]
  /\ Forall (fun c =>
               p_estimated_input_tokens c = sum_tokens (p_sections c)
               /\ (p_estimated_input_tokens c
                   <= estimate_token_count (chunk_text short_filing c))%Z)
            (create_processing_chunks default_processor short_filing
               [short_item_1 "bold_headers" (8 # 10);
                short_item_1A "bold_headers" (8 # 10)]
               default_max_input_tokens default_max_output_tokens).
Proof.
  assert (H : boundaries_in_order short_filing
                [short_item_1 "bold_headers" (8 # 10);
                 short_item_1A "bold_headers" (8 # 10)]).
  { split; repeat constructor; unfold by_position; simpl; lia. }
  split; [exact H|].
  exact (planner_never_overestimates default_processor short_filing _
           default_max_input_tokens default_max_output_tokens H).
Defined.

(** ** Boundary detector: what the last pass drops *)

Lemma drop_close_first (x : Boundary) (rest : list Boundary) :
  In x (drop_close [] (x :: rest)).
Proof. cbn. apply drop_close_acc. simpl. auto. Qed.

(** X5.  The detector invents no boundary and its last pass, which drops what
    lies less than 200 characters from a boundary already kept, loses no
    item number out of sight: whenever a candidate carries an item number,
    a candidate recorded under that number, of no less confidence, is in
    the result or less than 200 characters from a boundary of the result;
    so the result is not empty then. *)
Theorem detector_keeps_or_shadows
    (strategy_matches : string -> list Boundary) (str_upper : string -> string)
    (document_content : string) :
  exists final,
    detect_section_boundaries strategy_matches str_upper document_content
    = Ok final
    /\ (forall b, In b final -> In b (strategy_matches document_content))
    /\ (forall b' k,
          In b' (strategy_matches document_content) ->
          b_item_number b' = Some k -> k <> "" ->
          exists s a,
            In s (strategy_matches document_content)
            /\ key_of str_upper s = k
            /\ (b_confidence b' <= b_confidence s)%Q
            /\ In a final
            /\ (a = s \/ (Z.abs (b_position s - b_position a) < 200)%Z)).
Proof.
  unfold detect_section_boundaries, filter_boundaries.
  set (raw := strategy_matches document_content).
  destruct (filter_loop_inv str_upper document_content (sort_by_position raw) []
              (mkFilterState [] []) (filter_inv_initial str_upper)
              (sort_by_position_sorted raw))
    as (st & -> & [Hseen Hfil Hone Hbest]).
  cbn [bind app] in *. eexists. split; [reflexivity|].
  set (filtered := filtered_boundaries st) in *.
  assert (Hraw : forall b, In b (sort_by_position raw) -> In b raw).
  { intros b. apply Permutation_in. symmetry. apply sort_by_position_perm. }
  split.
  - intros b Hb. apply drop_close_in in Hb as [[] | Hb].
    apply Hraw, Hfil.
    eapply Permutation_in; [symmetry; apply sort_by_position_perm | exact Hb].
  - intros b' k Hb' Hitem Hk.
    destruct (Hbest k b' Hk) as (s & Hs & Hle & _).
    { eapply Permutation_in; [apply sort_by_position_perm | exact Hb']. }
    { now apply has_item_iff. }
    destruct (Hseen k s Hs) as (Hin & Hkey & Hpre).
    destruct (drop_close_covers (sort_by_position filtered) [] s) as (a & Ha & Hnear).
    { eapply Permutation_in; [apply sort_by_position_perm | exact Hin]. }
    exists s, a. repeat split; auto.
Qed.

(** ** Chunk processor: where a result comes from *)

Lemma handle_parsed_success (result_ : pyval) (retry_count : Z)
    (c : ProcessingChunk) (r : ChunkResult) :
  handle_parsed result_ retry_count c = Ok (Return r) ->
  r_success r = true /\ r_result r = Some result_
  /\ r_error r = None /\ r_raw_response r = None.
Proof.
  unfold handle_parsed.
  destruct (py_get result_ "processing_status" (PStr "unknown")) as [status|];
    [|discriminate].
  cbn [bind]. destruct status as [| b | z | f | st | l | d]; try discriminate.
  destruct (startswith "completed" st).
  - destruct (chunk_metadata_get result_ "sections_completed" (PList []));
      [|discriminate]. cbn [bind].
    destruct (chunk_metadata_get result_ "next_expected_item" PNone);
      [|discriminate]. cbn [bind].
    intros H. injection H as <-. cbn. auto.
  - destruct (startswith "partial" st || startswith "stopped" st).
    + destruct (chunk_metadata_get result_ "sections_completed" (PList []))
        as [completed|]; [|discriminate]. cbn [bind].
      destruct (py_truthy completed).
      * destruct (remaining_of (sections c) completed) as [[| s rest]|];
          cbn [bind]; [| |discriminate];
          intros H; injection H as <-; cbn; auto.
      * destruct (reduce_chunk_size c); discriminate.
    + intros H. injection H as <-. cbn. auto.
Qed.

Section ProcessorResults.

Variable py_str : pyval -> string.
Variable self : TenKProcessor.
Variable model : Model.
Variables (company_name year : option string) (is_first_chunk : bool)
          (previous_sections : list pyval) (max_retries : Z).

Lemma handle_exception_failure (e : exn) (retry_count : Z) (c : ProcessingChunk)
    (r : ChunkResult) :
  handle_exception max_retries e retry_count c = Ok (Return r) ->
  exception_failure r.
Proof.
  unfold handle_exception.
  destruct (retry_count <? max_retries - 1)%Z.
  - destruct (reduce_chunk_size c); discriminate.
  - intros H. injection H as <-. do 2 eexists. reflexivity.
Qed.

(** A dict returned by one turn of the loop. *)
Lemma attempt_return (retry_count : Z) (c : ProcessingChunk) (calls calls' : nat)
    (r : ChunkResult) :
  attempt py_str self model company_name year is_first_chunk previous_sections
          max_retries retry_count c calls = (Ok (Return r), calls') ->
  calls' <= S calls
  /\ ((calls' = S calls /\ answer_of model r calls)
      \/ exception_failure r
      \/ (calls' = S calls /\ decode_failure model r calls)).
Proof.
  unfold attempt, try_body.
  destruct (create_chunk_prompt py_str c company_name year is_first_chunk
                                previous_sections) as [prompt|e].
  2:{ intros H. injection H as H <-. split; [lia|].
      right. left. eapply handle_exception_failure; eauto. }
  destruct (estimate_token_count prompt >? max_tokens_per_chunk self)%Z.
  - destruct (reduce_chunk_size c) as [reduced|e]; cbn [bind].
    + discriminate.
    + intros H. injection H as H <-. split; [lia|].
      right. left. eapply handle_exception_failure; eauto.
  - destruct (model calls) as [e | text parsed] eqn:M.
    + intros H. injection H as H <-. split; [lia|].
      right. left. eapply handle_exception_failure; eauto.
    + destruct (String.eqb_spec text "") as [E|E]; cbn [negb].
      * intros H. injection H as H <-. split; [lia|].
        right. left. eapply handle_exception_failure; eauto.
      * destruct parsed as [result_|].
        -- destruct (handle_parsed result_ retry_count c) as [[r0 | rc' c']|e] eqn:H.
           ++ intros H0. injection H0 as <- <-. split; [lia|]. left.
              split; [reflexivity|].
              apply handle_parsed_success in H as (Hs & Hr & He & Hraw).
              exists text, result_. auto 10.
           ++ discriminate.
           ++ intros H0. injection H0 as H0 <-. split; [lia|].
              right. left. eapply handle_exception_failure; eauto.
        -- destruct (retry_count <? max_retries - 1)%Z.
           ++ destruct (reduce_chunk_size c) as [reduced|e]; cbn [bind].
              ** discriminate.
              ** intros H. injection H as H <-. split; [lia|].
                 right. left. eapply handle_exception_failure; eauto.
           ++ intros H. injection H as <- <-. split; [lia|]. right. right.
              split; [reflexivity|]. exists text, retry_count. auto.
Qed.

Lemma attempt_calls (retry_count : Z) (c : ProcessingChunk) (calls : nat) :
  calls <= snd (attempt py_str self model company_name year is_first_chunk
                        previous_sections max_retries retry_count c calls)
        <= S calls.
Proof.
  apply (attempt_cases py_str self model company_name year is_first_chunk
           previous_sections max_retries retry_count c calls).
Qed.

Lemma backtrack_loop_result (fuel : nat) :
  forall retry_count c calls attempts r calls' attempts',
    backtrack_loop py_str self model company_name year is_first_chunk
      previous_sections max_retries fuel retry_count c calls attempts
    = Some (Ok r, calls', attempts') ->
    calls <= calls'
    /\ ((exists n, calls <= n < calls' /\ answer_of model r n)
        \/ exception_failure r
        \/ (exists n, calls <= n < calls' /\ decode_failure model r n)).
Proof.
  induction fuel as [| fuel IH];
    intros retry_count c calls attempts r calls' attempts';
    cbn [backtrack_loop].
  - destruct (retry_count <? max_retries)%Z; [discriminate|].
    intros H. injection H as <- <- _. split; [lia|]. right. left.
    unfold failed_after. do 2 eexists. reflexivity.
  - destruct (retry_count <? max_retries)%Z.
    2:{ intros H. injection H as <- <- _. split; [lia|]. right. left.
        unfold failed_after. do 2 eexists. reflexivity. }
    pose proof (attempt_calls retry_count c calls) as Hcalls.
    destruct (attempt py_str self model company_name year is_first_chunk
                      previous_sections max_retries retry_count c calls)
      as [res calls1] eqn:A.
    cbn [snd] in Hcalls.
    destruct res as [[r0 | rc' c']|e].
    + intros H. injection H as <- <- _.
      apply attempt_return in A as (_ & [[-> Ha] | [Hf | [-> Hd]]]).
      * split; [lia|]. left. exists calls. split; [lia | exact Ha].
      * split; [lia|]. auto.
      * split; [lia|]. right. right. exists calls. split; [lia | exact Hd].
    + intros H. apply IH in H as (Hle & [(n & Hn & Ha) | [Hf | (n & Hn & Hd)]]).
      * split; [lia|]. left. exists n. split; [lia | exact Ha].
      * split; [lia|]. auto.
      * split; [lia|]. right. right. exists n. split; [lia | exact Hd].
    + discriminate.
Qed.

End ProcessorResults.

Lemma len_truncate_raw (text : string) : len (truncate_raw text) <= 1003.
Proof.
  unfold truncate_raw. destruct (1000 <? len text) eqn:E.
  - rewrite len_app. unfold slice. rewrite len_take.
    change (len "...") with 3. lia.
  - apply Nat.ltb_ge in E. lia.
Qed.

(** X6.  A dict the chunk processor returns is one of three: a success that
    carries the parsed answer to one of the calls made in this run, the text
    of which was not empty; a failure with an error string and a retry
    count and nothing else; or the failure after a text that is no JSON,
    whose [raw_response] holds at most 1003 characters.  So success is never
    reported without a call of the model, and never on a failure dict. *)
Theorem chunk_result_provenance (py_str : pyval -> string)
    (self : TenKProcessor) (model : Model) (c : ProcessingChunk)
    (company_name year : option string) (is_first_chunk : bool)
    (previous_sections : list pyval) (max_retries : Z) (calls calls' attempts : nat)
    (r : ChunkResult)
    (Hrun : process_chunk_with_backtrack py_str self model c company_name year
              is_first_chunk previous_sections max_retries calls
            = Some (Ok r, calls', attempts)) :
  ((exists n, calls <= n < calls' /\ answer_of model r n)
   \/ exception_failure r
   \/ (exists n, calls <= n < calls' /\ decode_failure model r n))
  /\ (r_success r = true -> calls < calls' /\ r_error r = None)
  /\ (r_success r = false ->
      r_result r = None /\ r_remaining_chunk r = None /\ r_error r <> None)
  /\ (forall raw, r_raw_response r = Some raw -> len raw <= 1003).
Proof.
  unfold process_chunk_with_backtrack, process_chunk_with_backtrack_fuel in Hrun.
  pose proof (backtrack_loop_ends py_str self model company_name year
                is_first_chunk previous_sections max_retries
                (Z.to_nat max_retries) 0 c calls 0 ltac:(lia))
    as (res & calls1 & attempts1 & Hends & _ & _ & _ & _ & Hsound).
  rewrite Hrun in Hends. injection Hends as <- <- <-.
  destruct Hsound as (Hfalse & Htrue & _).
  apply backtrack_loop_result in Hrun as (Hle & Hkind).
  split; [exact Hkind|].
  destruct Hkind as [(n & Hn & text & result_ & Hm & Ht & Hs & Hr & He & Hraw)
                    | [(rc & msg & ->) | (n & Hn & text & rc & Hm & Ht & ->)]].
  - split; [intros _; split; [lia | exact He]|].
    split; [congruence|]. intros raw H. congruence.
  - cbn. split; [discriminate|]. split; [intros _; repeat split; discriminate|].
    discriminate.
  - cbn. split; [discriminate|]. split; [intros _; repeat split; discriminate|].
    intros raw H. injection H as <-. apply len_truncate_raw.
Qed.

Lemma chunk_result_provenance_witness :
  exists r,
    process_chunk_with_backtrack str_of_string_value default_processor
      model_always_throws short_chunk (Some "ACME") (Some "2024") true []
      default_max_retries 0
    = Some (Ok r, 3, 3)
    /\ ((exists n, 0 <= n < 3 /\ answer_of model_always_throws r n)
        \/ exception_failure r
        \/ (exists n, 0 <= n < 3 /\ decode_failure model_always_throws r n))
    /\ (r_success r = true -> 0 < 3 /\ r_error r = None)
    /\ (r_success r = false ->
        r_result r = None /\ r_remaining_chunk r = None /\ r_error r <> None)
    /\ (forall raw, r_raw_response r = Some raw -> len raw <= 1003).
Proof.
  pose (r0 := mkResult false None None None (Some 2%Z) None None
                       (Some "503 Service Unavailable") None).
  assert (Hrun : process_chunk_with_backtrack str_of_string_value
                   default_processor model_always_throws short_chunk
                   (Some "ACME") (Some "2024") true [] default_max_retries 0
                 = Some (Ok r0, 3, 3))
    by (vm_compute; reflexivity).
  exists r0. split; [exact Hrun|].
  exact (chunk_result_provenance str_of_string_value default_processor
           model_always_throws short_chunk (Some "ACME") (Some "2024") true []
           default_max_retries 0 3 3 r0 Hrun).
Defined.

(** ** Chunk processor: the calls it makes *)

(** X7.  For every chunk, every model and every [max_retries] the run of the
    chunk processor ends after at most [max_retries] turns of its loop and
    at most one call of the model in each; an exception that leaves it is
    one [reduce_chunk_size] raised.  With [max_retries] zero or less no
    turn is made: the dict ['Failed after <max_retries> attempts'] is
    returned at once, without a call. *)
Theorem chunk_processor_call_budget (py_str : pyval -> string)
    (self : TenKProcessor) (model : Model) (c : ProcessingChunk)
    (company_name year : option string) (is_first_chunk : bool)
    (previous_sections : list pyval) (max_retries : Z) (calls : nat) :
  exists res calls' attempts,
    process_chunk_with_backtrack py_str self model c company_name year
      is_first_chunk previous_sections max_retries calls
    = Some (res, calls', attempts)
    /\ attempts <= Z.to_nat max_retries
    /\ calls <= calls' /\ calls' <= calls + attempts
    /\ (forall e, res = Raise e -> exists c', reduce_chunk_size c' = Raise e)
    /\ ((max_retries <= 0)%Z ->
        res = Ok (mkResult false None None None (Some 0%Z) None None
                    (Some ("Failed after " ++ str_of_Z max_retries
                           ++ " attempts")%string) None)
        /\ calls' = calls /\ attempts = 0).
Proof.
  unfold process_chunk_with_backtrack, process_chunk_with_backtrack_fuel.
  destruct (backtrack_loop_ends py_str self model company_name year
              is_first_chunk previous_sections max_retries
              (Z.to_nat max_retries) 0 c calls 0)
    as (res & calls' & attempts & H & H1 & H2 & H3 & H4 & H5); [lia|].
  exists res, calls', attempts.
  split; [exact H|]. replace (max_retries - 0)%Z with max_retries in * by lia.
  split; [lia|]. split; [lia|]. split; [lia|]. split.
  - intros e ->. exact H5.
  - intros Hzero. replace (Z.to_nat max_retries) with 0 in H by lia.
    cbn [backtrack_loop] in H.
    destruct (Z.ltb_spec 0 max_retries); [lia|].
    injection H as <- <- <-. auto.
Qed.

(** ** Chunk processor: a status it does not know *)

(** X8.  An answer whose [processing_status] is a string that starts with none
    of [completed], [partial] and [stopped] (['unknown'] when the key is
    missing) counts as a success: the processor returns at once with the
    parsed answer, an empty list of completed sections, and no remaining
    chunk, so nothing of the chunk is tried again. *)
Theorem unknown_status_counts_as_success (py_str : pyval -> string)
    (self : TenKProcessor) (model : Model) (chunk : ProcessingChunk)
    (company_name year : option string) (is_first_chunk : bool)
    (previous_sections : list pyval) (max_retries : Z) (calls : nat)
    (prompt text st : string) (result_ : pyval)
    (Hretries : (0 < max_retries)%Z)
    (Hprompt : create_chunk_prompt py_str chunk company_name year is_first_chunk
                                   previous_sections = Ok prompt)
    (Hfits : (estimate_token_count prompt <= max_tokens_per_chunk self)%Z)
    (Hanswer : model calls = ModelText text (Some result_))
    (Htext : text <> "")
    (Hstatus : py_get result_ "processing_status" (PStr "unknown") = Ok (PStr st))
    (Hother : startswith "completed" st = false
              /\ startswith "partial" st = false
              /\ startswith "stopped" st = false) :
  process_chunk_with_backtrack py_str self model chunk company_name year
    is_first_chunk previous_sections max_retries calls
  = Some (Ok (mkResult true (Some result_) (Some (PList [])) None (Some 0%Z)
                       None None None None),
          S calls, 1).
Proof.
  destruct Hother as (Hc & Hp & Hs).
  unfold process_chunk_with_backtrack, process_chunk_with_backtrack_fuel.
  destruct (Z.to_nat max_retries) as [| fuel] eqn:F; [lia|].
  cbn [backtrack_loop].
  destruct (Z.ltb_spec 0 max_retries); [|lia].
  unfold attempt, try_body. rewrite Hprompt.
  destruct (Z.gtb_spec (estimate_token_count prompt) (max_tokens_per_chunk self));
    [lia|].
  rewrite Hanswer.
  destruct (String.eqb_spec text ""); [contradiction|]. cbn [negb].
  unfold handle_parsed. rewrite Hstatus. cbn [bind].
  rewrite Hc, Hp, Hs. reflexivity.
Qed.

Lemma unknown_status_counts_as_success_witness :
  process_chunk_with_backtrack str_of_string_value default_processor
    model_failed_status short_chunk (Some "ACME") (Some "2024") true []
    default_max_retries 0
  = Some (Ok (mkResult true (Some failed_status_answer) (Some (PList [])) None
                       (Some 0%Z) None None None None),
          1, 1).
Proof.
  pose (prompt :=
          match create_chunk_prompt str_of_string_value short_chunk (Some "ACME")
                  (Some "2024") true [] with
          | Ok p => p
          | Raise _ => ""
          end).
  assert (Hprompt : create_chunk_prompt str_of_string_value short_chunk
                      (Some "ACME") (Some "2024") true [] = Ok prompt)
    by (vm_compute; reflexivity).
  assert (Hfits : (estimate_token_count prompt
                   <= max_tokens_per_chunk default_processor)%Z)
    by (vm_compute; discriminate).
  assert (Htext : ("{" ++ dq ++ "processing_status" ++ dq ++ ": "
                   ++ dq ++ "failed" ++ dq ++ ", ...}")%string <> "")
    by discriminate.
  exact (unknown_status_counts_as_success str_of_string_value default_processor
           model_failed_status short_chunk (Some "ACME") (Some "2024") true []
           default_max_retries 0 prompt _ "failed" failed_status_answer
           eq_refl Hprompt Hfits eq_refl Htext eq_refl
           (conj eq_refl (conj eq_refl eq_refl))).
Defined.

(** ** Shrinking a chunk *)

(** The break point is the first index of the range where an empty line
    starts, or the middle when the range has none. *)
Lemma find_break_spec (section_content : string) (mid_point : Z) (count : nat) :
  forall i,
    let found := find_break section_content i count mid_point in
    (found = mid_point
     \/ ((i <= found < i + Z.of_nat count)%Z
         /\ (found < Z.of_nat (len section_content))%Z
         /\ py_slice found (found + 2) section_content
            = (newline ++ newline)%string))
    /\ (forall j, (i <= j < i + Z.of_nat count)%Z -> (j < found)%Z ->
          (j <? Z.of_nat (len section_content))%Z
          && String.eqb (py_slice j (j + 2) section_content) (newline ++ newline)
          = false).
Proof.
  induction count as [| count IH]; intros i; cbn [find_break]; cbv zeta.
  - split; [left; reflexivity | intros j Hj; lia].
  - destruct ((i <? Z.of_nat (len section_content))%Z
              && String.eqb (py_slice i (i + 2) section_content)
                   (newline ++ newline)) eqn:E.
    + split; [|intros j Hj Hlt; lia].
      apply andb_prop in E as [E1 E2].
      apply Z.ltb_lt in E1. apply String.eqb_eq in E2.
      right. split; [lia|]. split; [exact E1 | exact E2].
    + specialize (IH (i + 1)%Z). cbv zeta in IH. destruct IH as [IH1 IH2].
      split.
      * destruct IH1 as [-> | (Hr & Hl & Hs)]; [left; reflexivity|].
        right. split; [lia|]. split; [exact Hl | exact Hs].
      * intros j Hj Hlt. destruct (Z.eq_dec j i) as [-> | Hne]; [exact E|].
        apply IH2; lia.
Qed.

(** X9.  What [reduce_chunk_size] returns, when it returns: the id of the chunk
    followed by [_reduced]; a content that is the slice of the old content
    from the position of the first kept section to the end position of the
    last one, both counted from [start_pos] of the chunk, hence never longer,
    and whose estimate is the new [estimated_input_tokens]; the old
    [start_pos], [end_pos] and [estimated_output_tokens], unchanged.  Of two
    sections or more the first half is kept (rounded down), each section as
    it was; a single section is kept with [' (Part 1)'] added to its title
    and a new end: its position plus the break point, which is the first
    empty line found from 100 characters before the middle of the section
    text to 99 characters after it, or the middle itself when there is none.
    A chunk without section never comes back. *)
Theorem reduce_chunk_size_shape (c c' : ProcessingChunk)
    (Hreduce : reduce_chunk_size c = Ok c') :
  chunk_id c' = IdStr (str_of_id (chunk_id c) ++ "_reduced")
  /\ len (content c') <= len (content c)
  /\ estimated_input_tokens c' = Some (estimate_token_count (content c'))
  /\ start_pos c' = start_pos c /\ end_pos c' = end_pos c
  /\ estimated_output_tokens c' = estimated_output_tokens c
  /\ sections c <> []
  /\ (1 < List.length (sections c) ->
      sections c' = firstn (List.length (sections c) / 2) (sections c)
      /\ 1 <= List.length (sections c') < List.length (sections c))
  /\ (List.length (sections c) = 1 ->
      exists s s',
        sections c = [s] /\ sections c' = [s']
        /\ s_title s' = (s_title s ++ " (Part 1)")%string
        /\ s_item_number s' = s_item_number s
        /\ s_position s' = s_position s)
  /\ (exists first rest start end_ chunk_start,
        sections c' = first :: rest
        /\ s_position first = Some start
        /\ s_end_position (last rest first) = Some end_
        /\ start_pos c = Some chunk_start
        /\ content c'
           = py_slice (start - chunk_start) (end_ - chunk_start) (content c))
  /\ (forall s, sections c = [s] ->
      exists position end_position,
        s_position s = Some position
        /\ s_end_position s = Some end_position
        /\ let section_content :=
             py_slice position end_position (content c) in
           let middle := (Z.of_nat (len section_content) / 2)%Z in
           let mid_point :=
             find_break section_content (middle - 100)%Z 200 middle in
           sections c'
           = [mkSection (s_item_number s) (s_title s ++ " (Part 1)")
                        (Some position) (Some (position + mid_point)%Z)
                        (s_estimated_tokens s) (s_confidence s)]
           /\ (middle - 100 <= mid_point < middle + 100)%Z
           /\ (mid_point <> middle ->
               (mid_point < Z.of_nat (len section_content))%Z
               /\ py_slice mid_point (mid_point + 2) section_content
                  = (newline ++ newline)%string)
           /\ (forall j, (middle - 100 <= j < middle + 100)%Z ->
                 (j < mid_point)%Z ->
                 (j <? Z.of_nat (len section_content))%Z
                 && String.eqb (py_slice j (j + 2) section_content)
                      (newline ++ newline)
                 = false)).
Proof.
  revert Hreduce. unfold reduce_chunk_size.
  set (reduced :=
         if 1 <? List.length (sections c)
         then Ok (firstn (List.length (sections c) / 2) (sections c))
         else _).
  destruct reduced as [reduced_sections|e] eqn:R; cbn [bind]; [|discriminate].
  set (text := match reduced_sections with
               | first :: _ => _
               | [] => _
               end).
  destruct text as [reduced_content|e] eqn:T; cbn [bind]; [|discriminate].
  intros H. injection H as <-.
  cbn [chunk_id content estimated_input_tokens start_pos end_pos
       estimated_output_tokens sections].
  assert (Hlen : len reduced_content <= len (content c)).
  { subst text. destruct reduced_sections as [| first rest].
    - injection T as <-. apply len_py_slice_le.
    - destruct (s_position first); cbn [require bind] in T; [|discriminate].
      destruct (s_end_position (last (first :: rest) first));
        cbn [require bind] in T; [|discriminate].
      destruct (start_pos c); cbn [require bind] in T; [|discriminate].
      injection T as <-. apply len_py_slice_le. }
  assert (Hslice : reduced_sections <> [] ->
            exists first rest start end_ chunk_start,
              reduced_sections = first :: rest
              /\ s_position first = Some start
              /\ s_end_position (last rest first) = Some end_
              /\ start_pos c = Some chunk_start
              /\ reduced_content
                 = py_slice (start - chunk_start) (end_ - chunk_start) (content c)).
  { intros Hne. subst text. destruct reduced_sections as [| first rest];
      [contradiction|].
    assert (Hlast : last (first :: rest) first = last rest first)
      by (destruct rest; reflexivity).
    rewrite Hlast in T.
    destruct (s_position first) as [start|] eqn:E1; cbn [require bind] in T;
      [|discriminate].
    destruct (s_end_position (last rest first)) as [end_|] eqn:E2;
      cbn [require bind] in T; [|discriminate].
    destruct (start_pos c) as [chunk_start|] eqn:E3; cbn [require bind] in T;
      [|discriminate].
    exists first, rest, start, end_, chunk_start.
    split; [reflexivity|]. split; [exact E1|]. split; [exact E2|].
    split; [reflexivity|]. congruence. }
  subst reduced.
  destruct (Nat.ltb_spec 1 (List.length (sections c))) as [Hmany | Hfew].
  - assert (Hsections : reduced_sections
                        = firstn (List.length (sections c) / 2) (sections c))
      by congruence.
    assert (Hhalf : 1 <= List.length (sections c) / 2)
      by (apply Nat.div_le_lower_bound; lia).
    assert (Hne : reduced_sections <> []).
    { intros E. apply (f_equal (@List.length _)) in Hsections.
      rewrite E, length_firstn in Hsections. cbn [List.length] in Hsections. lia. }
    specialize (Hslice Hne).
    clear R T text. subst reduced_sections.
    split; [reflexivity|]. split; [exact Hlen|]. split; [reflexivity|].
    split; [reflexivity|]. split; [reflexivity|]. split; [reflexivity|].
    split; [destruct (sections c); [cbn [List.length] in Hmany; lia | discriminate]|].
    split.
    { intros _. split; [reflexivity|].
      rewrite length_firstn.
      assert (List.length (sections c) / 2 < List.length (sections c))
        by (apply Nat.div_lt; lia).
      lia. }
    split; [intros H1; lia|].
    split; [exact Hslice|].
    intros s Hs. rewrite Hs in Hmany. cbn [List.length] in Hmany. lia.
  - destruct (sections c) as [| s rest] eqn:S; [discriminate|].
    destruct rest as [| s2 rest]; [|cbn [List.length] in Hfew; lia].
    destruct (s_position s) as [position|] eqn:Epos; cbn [require bind] in R;
      [|discriminate].
    destruct (s_end_position s) as [end_position|] eqn:Eend;
      cbn [require bind] in R; [|discriminate].
    pose proof (find_break_spec (py_slice position end_position (content c))
                  (Z.of_nat (len (py_slice position end_position (content c))) / 2)%Z
                  200
                  (Z.of_nat (len (py_slice position end_position (content c))) / 2
                   - 100)%Z)
      as Hbreak.
    remember (find_break (py_slice position end_position (content c))
                (Z.of_nat (len (py_slice position end_position (content c))) / 2
                 - 100)%Z 200
                (Z.of_nat (len (py_slice position end_position (content c))) / 2)%Z)
      as mid eqn:Emid.
    assert (Hsections :
              reduced_sections
              = [mkSection (s_item_number s) (s_title s ++ " (Part 1)")
                           (Some position) (Some (position + mid)%Z)
                           (s_estimated_tokens s) (s_confidence s)])
      by congruence.
    assert (Hne : reduced_sections <> []) by (rewrite Hsections; discriminate).
    specialize (Hslice Hne).
    clear R T text. subst reduced_sections.
    split; [reflexivity|]. split; [exact Hlen|]. split; [reflexivity|].
    split; [reflexivity|]. split; [reflexivity|]. split; [reflexivity|].
    split; [discriminate|].
    split; [cbn [List.length]; lia|].
    split.
    { intros _. exists s. eexists. split; [reflexivity|]. split; [reflexivity|].
      cbn [s_title s_item_number s_position]. rewrite Epos. auto. }
    split; [exact Hslice|].
    intros s0 Hs0. assert (s0 = s) by congruence. subst s0.
    exists position, end_position.
    split; [exact Epos|]. split; [exact Eend|].
    cbv zeta. rewrite <- Emid.
    split; [reflexivity|].
    cbv zeta in Hbreak.
    destruct Hbreak as [H1 H2].
    split; [destruct H1 as [-> | (Hr & _)]; lia|].
    split.
    { intros Hmid. destruct H1 as [-> | (_ & Hl & Hs)]; [contradiction | auto]. }
    intros j Hj Hlt. apply H2; [lia | exact Hlt].
Qed.

Lemma reduce_chunk_size_shape_witness :
  exists c',
    reduce_chunk_size short_chunk = Ok c'
    /\ chunk_id c' = IdStr "1_reduced"
    /\ map s_title (sections c') = ["Business"]
    /\ content c' = py_slice 0 32 (content short_chunk)
    /\ exists first rest start end_ chunk_start,
         sections c' = first :: rest
         /\ s_position first = Some start
         /\ s_end_position (last rest first) = Some end_
         /\ start_pos short_chunk = Some chunk_start
         /\ content c'
            = py_slice (start - chunk_start) (end_ - chunk_start)
                (content short_chunk).
Proof.
  pose (c0 := match reduce_chunk_size short_chunk with
              | Ok c' => c'
              | Raise _ => short_chunk
              end).
  assert (H : reduce_chunk_size short_chunk = Ok c0)
    by (vm_compute; reflexivity).
  exists c0. split; [exact H|].
  split; [vm_compute; reflexivity|].
  split; [vm_compute; reflexivity|].
  split; [vm_compute; reflexivity|].
  exact (proj1 (proj2 (proj2 (proj2 (proj2 (proj2 (proj2 (proj2 (proj2 (proj2
           (reduce_chunk_size_shape short_chunk c0 H))))))))))).
Defined.

(** ** The pipeline during an outage, and without boundaries *)

Lemma chunks_of_boundaries_planned (self : TenKProcessor)
    (document_content : string) (b : Boundary) (bs : list Boundary) :
  chunks_of_boundaries self document_content (b :: bs) <> []
  /\ Forall planned_chunk (chunks_of_boundaries self document_content (b :: bs)).
Proof.
  cbn [chunks_of_boundaries].
  pose proof (planner_keeps_sections_lemma self document_content (b :: bs)
                default_max_input_tokens default_max_output_tokens)
    as (Hsec & Hshape & Hnil).
  set (plan := create_processing_chunks self document_content (b :: bs)
                 default_max_input_tokens default_max_output_tokens) in *.
  destruct (number_chunks_ids document_content plan 0) as (_ & Hlen & _).
  split.
  - intros H. apply (f_equal (@List.length _)) in H. rewrite Hlen in H.
    destruct plan; [|discriminate]. destruct Hnil as [_ Hn].
    specialize (Hn eq_refl). discriminate.
  - assert (Hall : Forall (fun c => p_sections c <> []
                                    /\ Forall section_has_span (p_sections c))
                          plan).
    { rewrite Forall_forall. intros c Hc. split.
      - rewrite Forall_forall in Hshape. now apply Hshape.
      - apply (plan_sections_in plan); auto. rewrite Hsec.
        apply planned_sections_have_span. }
    apply (number_chunks_planned document_content plan 0) in Hall.
    rewrite Forall_forall in *. intros c Hc. now apply Hall.
Qed.

Section Outage.

Variable py_str : pyval -> string.
Variable self : TenKProcessor.
Variable model : Model.
Hypothesis Hdown : model_is_down model.
Variables company_name year : string.

Lemma down_run (c : ProcessingChunk) (st : queue_state) :
  planned_chunk c ->
  exists r calls' attempts,
    process_chunk_with_backtrack py_str self model c (Some company_name)
      (Some year) (chunk_num st + 1 =? 1)%Z (completed_sections st)
      default_max_retries (calls st)
    = Some (Ok r, calls', attempts)
    /\ exception_failure r.
Proof.
  intros Hplanned.
  destruct (backtrack_returns_on_planned_chunk py_str self model c
              (Some company_name) (Some year) (chunk_num st + 1 =? 1)%Z
              (completed_sections st) default_max_retries (calls st))
    as (res & calls' & attempts & Hrun & _ & _ & _ & Hok & _).
  destruct (Hok Hplanned) as [r ->].
  exists r, calls', attempts. split; [exact Hrun|].
  unfold process_chunk_with_backtrack, process_chunk_with_backtrack_fuel in Hrun.
  apply backtrack_loop_result in Hrun
    as (_ & [(n & _ & text & result_ & Hm & _) | [Hf | (n & _ & text & rc & Hm & _)]]).
  - destruct (Hdown n) as [e He]. congruence.
  - exact Hf.
  - destruct (Hdown n) as [e He]. congruence.
Qed.

Lemma down_queue_step (c : ProcessingChunk) (rest : list ProcessingChunk)
    (st : queue_state) :
  planned_chunk c ->
  exists info calls',
    queue_step py_str self model company_name year st c rest
    = Some (Ok (mkQueue (all_results st ++ [FailedChunk info])
                        (completed_sections st) rest (chunk_num st + 1) calls'),
            calls')
    /\ failure_of c info.
Proof.
  intros Hplanned.
  destruct (down_run c st Hplanned) as (r & calls' & attempts & Hrun & rc & msg & ->).
  unfold queue_step. rewrite Hrun. cbn [r_success r_error r_raw_response].
  do 2 eexists. split; [reflexivity|].
  unfold failure_of. cbn. eauto.
Qed.

Lemma down_queue_loop (queue : list ProcessingChunk) :
  forall fuel st,
    chunk_queue st = queue -> Forall planned_chunk queue ->
    List.length queue <= fuel ->
    exists st' calls' infos,
      queue_loop py_str self model fuel company_name year st
      = Some (Ok st', calls')
      /\ all_results st' = all_results st ++ map FailedChunk infos
      /\ Forall2 failure_of queue infos.
Proof.
  induction queue as [| c rest IH]; intros fuel st Hqueue Hall Hfuel.
  - exists st, (calls st), []. 
    destruct fuel; cbn [queue_loop]; rewrite Hqueue; cbn [map];
      rewrite app_nil_r; auto.
  - destruct fuel as [| fuel]; [cbn [List.length] in Hfuel; lia|].
    inversion Hall as [| ? ? Hc Hrest]; subst.
    cbn [queue_loop]. rewrite Hqueue.
    destruct (down_queue_step c rest st Hc) as (info & calls1 & -> & Hinfo).
    destruct (IH fuel (mkQueue (all_results st ++ [FailedChunk info])
                               (completed_sections st) rest
                               (chunk_num st + 1) calls1))
      as (st' & calls' & infos & -> & Hresults & Hinfos);
      [reflexivity | exact Hrest | cbn [List.length] in Hfuel; lia |].
    exists st', calls', (info :: infos). split; [reflexivity|].
    cbn [all_results] in Hresults. rewrite Hresults, <- app_assoc.
    split; [reflexivity|]. constructor; auto.
Qed.

End Outage.

Lemma combine_loop_all_failed (infos : list FailedChunkInfo) :
  forall c f,
    combine_loop (c, f) (map FailedChunk infos)
    = Ok (c, f ++ map failed_record_of infos).
Proof.
  induction infos as [| info rest IH]; intros c f; cbn [map combine_loop].
  - now rewrite app_nil_r.
  - cbn [combine_step bind]. rewrite IH. unfold failed_record_of at 2.
    now rewrite <- app_assoc.
Qed.

(** X10.  During an outage, when no call of the model answers, a document in
    which a boundary is detected still gets its filing: [process_with_gemini]
    raises nothing and returns the combined structure, whose categories are
    empty and whose [failed_chunks] holds one record for each planned chunk,
    in order: the id [FAILED_<chunk_id>], an error string and the item
    numbers of the sections of the chunk. *)
Theorem outage_is_recorded (py_str : pyval -> string)
    (strategy_matches : string -> list Boundary) (str_upper : string -> string)
    (extract_company_info : string -> string * string) (self : TenKProcessor)
    (model : Model) (now : string) (document_content : string)
    (b : Boundary) (bs : list Boundary) (fuel : nat)
    (Hdown : model_is_down model)
    (Hdetect : detect_section_boundaries strategy_matches str_upper
                 document_content = Ok (b :: bs))
    (Hfuel : List.length (chunks_of_boundaries self document_content (b :: bs))
             <= fuel) :
  exists f,
    process_with_gemini py_str strategy_matches str_upper extract_company_info
      self model now fuel document_content
    = Some (Ok (JsonResponse f))
    /\ CATEGORIES f = initial_categories
    /\ total_sections_extracted (PROCESSING_METADATA f) = 0
    /\ chunks_processed (PROCESSING_METADATA f)
       = List.length (chunks_of_boundaries self document_content (b :: bs))
    /\ Forall2 failed_record_for
               (chunks_of_boundaries self document_content (b :: bs))
               (failed_chunks (PROCESSING_METADATA f)).
Proof.
  destruct (chunks_of_boundaries_planned self document_content b bs)
    as [Hne Hplanned].
  unfold process_with_gemini, incremental_processing.
  destruct (extract_company_info document_content) as [co yr].
  unfold extract_sections_dynamic. rewrite Hdetect. cbn [bind].
  set (chunks := chunks_of_boundaries self document_content (b :: bs)) in *.
  destruct chunks as [| c0 rest] eqn:Hchunks; [congruence|].
  rewrite <- Hchunks in *.
  destruct (down_queue_loop py_str self model Hdown co yr chunks fuel
              (mkQueue [] [] chunks 0 0) eq_refl Hplanned Hfuel)
    as (st' & calls' & infos & -> & Hresults & Hinfos).
  cbn [all_results app] in Hresults. rewrite Hresults.
  unfold combine_incremental_results.
  rewrite combine_loop_all_failed. cbn [bind app].
  eexists. split; [reflexivity|].
  cbn [CATEGORIES PROCESSING_METADATA total_sections_extracted chunks_processed
       failed_chunks].
  split; [reflexivity|]. split; [reflexivity|].
  split.
  - rewrite length_map. symmetry. eapply Forall2_length; eauto.
  - clear Hresults Hchunks Hne Hplanned Hfuel.
    induction Hinfos
      as [| c info cs infos' (Hid & (msg & Herr) & Hsecs & _) _ IH];
      cbn [map]; constructor; auto.
    unfold failed_record_for, failed_record_of. cbn.
    rewrite Hid, Herr, Hsecs. cbn. eauto.
Qed.

Lemma outage_is_recorded_witness :
  exists f,
    process_with_gemini str_of_string_value (fun _ => short_filing_matches)
      ascii_upper acme_info default_processor model_always_throws
      "2026-01-01T10:00:00" 1 short_filing
    = Some (Ok (JsonResponse f))
    /\ CATEGORIES f = initial_categories
    /\ total_sections_extracted (PROCESSING_METADATA f) = 0
    /\ chunks_processed (PROCESSING_METADATA f)
       = List.length
           (chunks_of_boundaries default_processor short_filing
              [short_item_1 "bold_headers" (8 # 10)])
    /\ Forall2 failed_record_for
               (chunks_of_boundaries default_processor short_filing
                  [short_item_1 "bold_headers" (8 # 10)])
               (failed_chunks (PROCESSING_METADATA f)).
Proof.
  assert (Hdown : model_is_down model_always_throws)
    by (intros n; eexists; reflexivity).
  assert (Hdetect : detect_section_boundaries (fun _ => short_filing_matches)
                      ascii_upper short_filing
                    = Ok [short_item_1 "bold_headers" (8 # 10)])
    by (vm_compute; reflexivity).
  assert (Hfuel : List.length
                    (chunks_of_boundaries default_processor short_filing
                       [short_item_1 "bold_headers" (8 # 10)]) <= 1)
    by (vm_compute; repeat constructor).
  exact (outage_is_recorded str_of_string_value (fun _ => short_filing_matches)
           ascii_upper acme_info default_processor model_always_throws
           "2026-01-01T10:00:00" short_filing _ _ 1 Hdown Hdetect Hfuel).
Defined.

(** X11.  A document in which no boundary is detected is handled by the
    full-document fallback alone: the chunk processor raises on the
    whole-document chunk before any call of the model, and what
    [process_with_gemini] gives is what [process_full_document] gives with
    the first call, the raw text of the answer or its exception. *)
Theorem no_boundary_means_full_document (py_str : pyval -> string)
    (strategy_matches : string -> list Boundary) (str_upper : string -> string)
    (extract_company_info : string -> string * string) (self : TenKProcessor)
    (model : Model) (now : string) (document_content : string) (fuel : nat)
    (Hdetect : detect_section_boundaries strategy_matches str_upper
                 document_content = Ok []) :
  process_with_gemini py_str strategy_matches str_upper extract_company_info
    self model now (S fuel) document_content
  = Some (do text <- process_full_document model document_content 0;
          Ok (RawResponse text)).
Proof.
  unfold process_with_gemini, incremental_processing.
  destruct (extract_company_info document_content) as [co yr].
  unfold extract_sections_dynamic. rewrite Hdetect.
  cbn [bind chunks_of_boundaries queue_loop chunk_queue].
  unfold queue_step. cbn [chunk_num completed_sections calls].
  replace (process_chunk_with_backtrack py_str self model
             (whole_document_chunk document_content) (Some co) (Some yr)
             (0 + 1 =? 1)%Z [] default_max_retries 0)
    with (Some (@Raise ChunkResult (key_error "position"), 0, 1))
    by reflexivity.
  reflexivity.
Qed.

Lemma no_boundary_means_full_document_witness :
  detect_section_boundaries (fun _ => []) ascii_upper plain_note = Ok []
  /\ process_with_gemini str_of_string_value (fun _ => []) ascii_upper acme_info
       default_processor model_always_throws "2026-01-01T10:00:00" 1 plain_note
     = Some (do text <- process_full_document model_always_throws plain_note 0;
             Ok (RawResponse text)).
Proof.
  split; [reflexivity|].
  exact (no_boundary_means_full_document str_of_string_value (fun _ => [])
           ascii_upper acme_info default_processor model_always_throws
           "2026-01-01T10:00:00" plain_note 0 eq_refl).
Defined.

(** ** Incremental result combiner: the counts of the metadata *)

Lemma stored_names_NoDup (g : string -> string)
    (categories : list (string * dict)) :
  NoDup (map fst categories) -> sections_unique categories ->
  (forall c d name, In (c, d) categories -> In name (dict_keys d) -> c = g name) ->
  NoDup (stored_names categories).
Proof.
  unfold stored_names, sections_unique.
  induction categories as [| [c d] r IH]; cbn [map List.concat fst snd];
    intros Hnd Hu Hg; [constructor|].
  inversion Hnd as [| ? ? Hnotin Hnd']; subst.
  inversion Hu as [| ? ? Hd Hr]; subst.
  apply NoDup_app.
  - exact Hd.
  - apply IH; auto. intros c' d' name Hin. apply Hg. now right.
  - intros name Hname Hin. apply in_concat in Hin as (keys & Hkeys & Hin).
    apply in_map_iff in Hkeys as ([c' d'] & <- & Hcd).
    assert (c = g name) by (apply (Hg c d); [now left | exact Hname]).
    assert (c' = g name) by (apply (Hg c' d'); [now right | exact Hin]).
    apply Hnotin. apply in_map_iff. exists (c', d'). split; [cbn; congruence | exact Hcd].
Qed.

Lemma stored_names_length (categories : list (string * dict)) :
  fold_right Nat.add 0
    (map (fun cd => List.length (dict_keys (snd cd))) categories)
  = List.length (stored_names categories).
Proof.
  unfold stored_names.
  induction categories as [| cd r IH]; cbn [map fold_right List.concat];
    [reflexivity|].
  now rewrite length_app, IH.
Qed.

Lemma dict_get_keys (k : string) (d : dict) :
  In k (dict_keys d) <-> dict_get k d <> None.
Proof.
  unfold dict_keys. split.
  - intros H. destruct (dict_get_present k d H) as [v ->]. discriminate.
  - intros H. destruct (in_dec string_dec k (map fst d)) as [Hin | Hout]; auto.
    now apply dict_get_absent in Hout.
Qed.

Lemma last_binding_names (name : string) (items : list (string * pyval)) :
  last_binding name items <> None <-> In name (map fst items).
Proof.
  split.
  - destruct (last_binding name items) as [v|] eqn:E; [|congruence].
    intros _. apply last_binding_in in E.
    apply in_map_iff. exists (name, v). auto.
  - intros H. apply in_map_iff in H as ([k v] & Hk & Hin). cbn in Hk. subst k.
    eapply in_last_binding; eauto.
Qed.

(** X12.  The counts the combiner writes.  [chunks_processed] counts every
    result, failed ones included; [sections_by_category] gives for each of
    the four categories the number of its sections; and
    [total_sections_extracted], their sum, is the number of different
    section names among the sections of the results without [error] key: a
    section sent twice is counted once. *)
Theorem combine_counts (now : string) (rs : list ResultEntry)
    (company_name year : option string) (f : StructuredFiling)
    (Hf : combine_incremental_results now rs company_name year = Ok f) :
  chunks_processed (PROCESSING_METADATA f) = List.length rs
  /\ sections_by_category (PROCESSING_METADATA f)
     = map (fun cd => (fst cd, List.length (dict_keys (snd cd)))) (CATEGORIES f)
  /\ total_sections_extracted (PROCESSING_METADATA f)
     = fold_right Nat.add 0
         (map snd (sections_by_category (PROCESSING_METADATA f)))
  /\ total_sections_extracted (PROCESSING_METADATA f) = distinct_names rs
  /\ (forall name, In name (stored_names (CATEGORIES f))
                   <-> In name (map fst (updates_of rs))).
Proof.
  pose proof (combine_categories _ _ _ _ _ Hf) as (Hput & Hfour & _).
  pose proof (combine_lookup _ _ _ _ _ Hf) as Hlookup.
  assert (Hnd : NoDup (map fst (CATEGORIES f)))
    by (rewrite Hfour; apply four_categories_distinct).
  assert (Hstored : forall c d name,
             In (c, d) (CATEGORIES f) -> In name (dict_keys d) ->
             c = determine_section_category name
             /\ In name (map fst (updates_of rs))).
  { intros c d name Hin Hname.
    specialize (Hlookup c name). unfold lookup_section in Hlookup.
    rewrite (category_get_in c d _ Hnd Hin) in Hlookup.
    apply dict_get_keys in Hname. rewrite Hlookup in Hname.
    destruct (String.eqb_spec c (determine_section_category name));
      [|congruence].
    split; [assumption|]. now apply last_binding_names. }
  assert (Hnames : forall name, In name (stored_names (CATEGORIES f))
                                <-> In name (map fst (updates_of rs))).
  { intros name. split.
    - intros Hin. unfold stored_names in Hin.
      apply in_concat in Hin as (keys & Hkeys & Hin).
      apply in_map_iff in Hkeys as ([c d] & <- & Hcd).
      now apply (Hstored c d name).
    - intros Hin. apply last_binding_names in Hin.
      specialize (Hlookup (determine_section_category name) name).
      rewrite String.eqb_refl in Hlookup. unfold lookup_section in Hlookup.
      destruct (category_get (determine_section_category name) (CATEGORIES f))
        as [d|] eqn:Hd; [|congruence].
      assert (Hcd : In (determine_section_category name, d) (CATEGORIES f)).
      { clear - Hd. induction (CATEGORIES f) as [| [c0 d0] r IH];
          cbn [category_get] in Hd; [discriminate|].
        destruct (String.eqb_spec (determine_section_category name) c0).
        - injection Hd as ->. left. congruence.
        - right. auto. }
      unfold stored_names. apply in_concat. exists (dict_keys d). split.
      + apply in_map_iff. exists (determine_section_category name, d). auto.
      + apply dict_get_keys. congruence. }
  assert (Hunique : NoDup (stored_names (CATEGORIES f))).
  { apply (stored_names_NoDup determine_section_category); auto.
    - eapply put_sections_unique; [exact Hput|].
      unfold sections_unique, initial_categories. repeat constructor.
    - intros c d name Hin Hname. now apply (Hstored c d name). }
  revert Hf. unfold combine_incremental_results.
  destruct (combine_loop (initial_categories, []) rs) as [[c fl]|];
    cbn [bind]; [|discriminate].
  intros Hf. injection Hf as <-.
  cbn [PROCESSING_METADATA CATEGORIES chunks_processed sections_by_category
       total_sections_extracted] in *.
  split; [reflexivity|]. split; [reflexivity|].
  split; [now rewrite map_map|].
  split; [|exact Hnames].
  rewrite stored_names_length. unfold distinct_names.
  apply Permutation_length, NoDup_Permutation; auto.
  - apply NoDup_nodup.
  - intros name. rewrite nodup_In. apply Hnames.
Qed.

Lemma combine_counts_witness :
  exists f,
    combine_incremental_results "2026-01-01T10:00:00"
      [risk_answer; business_answer; sample_failure; risk_answer]
      (Some "ACME") (Some "2024")
    = Ok f
    /\ total_sections_extracted (PROCESSING_METADATA f) = 2
    /\ chunks_processed (PROCESSING_METADATA f) = 4
    /\ total_sections_extracted (PROCESSING_METADATA f)
       = distinct_names [risk_answer; business_answer; sample_failure; risk_answer].
Proof.
  destruct (combine_accepted_ok "2026-01-01T10:00:00"
              [risk_answer; business_answer; sample_failure; risk_answer]
              (Some "ACME") (Some "2024") eq_refl) as [f Hf].
  destruct (combine_counts _ _ _ _ _ Hf) as (Hn & _ & _ & Htotal & _).
  exists f. split; [exact Hf|].
  split; [rewrite Htotal; reflexivity|].
  split; [exact Hn | exact Htotal].
Defined.

(** ** The category of a section name *)

Lemma digit_not_space (c : ascii) : is_digit c = true -> is_space c = false.
Proof.
  unfold is_digit, is_space. cbv zeta. intros H.
  apply andb_true_iff in H as [H1 H2].
  apply Nat.leb_le in H1. apply Nat.leb_le in H2.
  repeat match goal with
         | |- context [?a <=? ?b] => destruct (Nat.leb_spec a b)
         | |- context [?a =? ?b] => destruct (Nat.eqb_spec a b)
         end; try reflexivity; lia.
Qed.

Lemma take_digits_app (ds rest : string) :
  all_digits ds = true ->
  match rest with
  | EmptyString => True
  | String c _ => is_digit c = false
  end ->
  take_digits (ds ++ rest) = ds.
Proof.
  intros Hds Hrest. induction ds as [| d r IH]; cbn [append take_digits].
  - destruct rest as [| c r]; cbn [take_digits]; [reflexivity|].
    now rewrite Hrest.
  - cbn [all_digits] in Hds. apply andb_true_iff in Hds as [Hd Hr].
    rewrite Hd, IH; auto.
Qed.

Lemma drop_len_app (ds rest : string) : drop (len ds) (ds ++ rest) = rest.
Proof. induction ds as [| d r IH]; cbn; auto. Qed.

Lemma match_item_number (ds tail : string) :
  ds <> "" -> all_digits ds = true ->
  match tail with
  | EmptyString => True
  | String c _ => is_digit c = false
  end ->
  match_item_here ("Item " ++ ds ++ tail)
  = Some (match tail with
          | String l _ => if is_A_to_C l then (ds ++ String l EmptyString)%string
                          else ds
          | EmptyString => ds
          end).
Proof.
  intros Hne Hds Htail.
  change ("Item " ++ ds ++ tail)%string
    with (String "I" (String "t" (String "e" (String "m"
            (String " " (ds ++ tail)))))).
  cbn [match_item_here].
  change (is_letter 105 "I" && is_letter 116 "t" && is_letter 101 "e"
          && is_letter 109 "m" && is_space " ") with true.
  cbv iota.
  assert (Hstrip : lstrip (ds ++ tail) = (ds ++ tail)%string).
  { destruct ds as [| d r]; [congruence|]. cbn [append lstrip].
    cbn [all_digits] in Hds. apply andb_true_iff in Hds as [Hd _].
    now rewrite (digit_not_space d Hd). }
  rewrite Hstrip, (take_digits_app ds tail Hds Htail), drop_len_app.
  destruct (String.eqb_spec ds ""); [contradiction|].
  destruct tail as [| l t]; [reflexivity|].
  destruct (is_A_to_C l); reflexivity.
Qed.

Lemma determine_digits (ds rest : string) :
  ds <> "" -> all_digits ds = true -> ends_item rest = true ->
  determine_section_category (("Item " ++ ds) ++ rest)
  = match table_get ("Item " ++ ds) section_to_category with
    | Some category => category
    | None => part_I
    end.
Proof.
  intros Hne Hds Hrest. unfold determine_section_category.
  assert (Hsearch : search_item (("Item " ++ ds) ++ rest) = Some ds).
  { change (("Item " ++ ds) ++ rest)%string with ("Item " ++ ds ++ rest)%string.
    assert (Hm := match_item_number ds rest Hne Hds).
    destruct rest as [| c r].
    - specialize (Hm I).
      change ("Item " ++ ds ++ "")%string
        with (String "I" (String "t" (String "e" (String "m"
                (String " " (ds ++ "")))))) in *.
      cbn [search_item]. now rewrite Hm.
    - cbn [ends_item] in Hrest. apply andb_true_iff in Hrest as [Hd Ha].
      apply negb_true_iff in Hd. apply negb_true_iff in Ha.
      specialize (Hm Hd). rewrite Ha in Hm.
      change ("Item " ++ ds ++ String c r)%string
        with (String "I" (String "t" (String "e" (String "m"
                (String " " (ds ++ String c r)))))) in *.
      cbn [search_item]. now rewrite Hm. }
  rewrite Hsearch. reflexivity.
Qed.

Lemma determine_letter (ds : string) (l : ascii) (rest : string) :
  ds <> "" -> all_digits ds = true ->
  is_digit l = false -> is_A_to_C l = true ->
  determine_section_category (("Item " ++ ds ++ String l EmptyString) ++ rest)
  = match table_get ("Item " ++ ds ++ String l EmptyString)
                    section_to_category with
    | Some category => category
    | None => part_I
    end.
Proof.
  intros Hne Hds Hd Ha. unfold determine_section_category.
  assert (Happ : forall a b c : string, ((a ++ b) ++ c = a ++ b ++ c)%string).
  { intros a b c. induction a as [| x a IH]; cbn; [reflexivity | now rewrite IH]. }
  assert (Hsearch : search_item (("Item " ++ ds ++ String l EmptyString) ++ rest)
                    = Some (ds ++ String l EmptyString)%string).
  { replace (("Item " ++ ds ++ String l EmptyString) ++ rest)%string
      with ("Item " ++ ds ++ String l rest)%string
      by (rewrite !Happ; reflexivity).
    assert (Hm := match_item_number ds (String l rest) Hne Hds Hd).
    cbv beta iota in Hm. rewrite Ha in Hm.
    change ("Item " ++ ds ++ String l rest)%string
      with (String "I" (String "t" (String "e" (String "m"
              (String " " (ds ++ String l rest)))))) in *.
    cbn [search_item]. now rewrite Hm. }
  rewrite Hsearch. reflexivity.
Qed.

(** X13.  A section name that begins with a key of the table, ['Item 1'] to
    ['Item 16'] with the letters of 1A, 1B, 7A, 9A, 9B and 9C, goes to the
    category the table gives the key, whatever follows, as long as what
    follows does not go on with the item number. *)
Theorem category_of_table_names (key category rest : string)
    (Hkey : In (key, category) section_to_category)
    (Hrest : ends_item rest = true) :
  determine_section_category (key ++ rest) = category.
Proof.
  cbn [section_to_category In] in Hkey.
  repeat (destruct Hkey as [Hkey | Hkey];
          [injection Hkey as <- <-
          |]); [.. | contradiction];
    first
      [ exact (determine_letter "1" "A" rest ltac:(discriminate) eq_refl
                 eq_refl eq_refl)
      | exact (determine_letter "1" "B" rest ltac:(discriminate) eq_refl
                 eq_refl eq_refl)
      | exact (determine_letter "7" "A" rest ltac:(discriminate) eq_refl
                 eq_refl eq_refl)
      | exact (determine_letter "9" "A" rest ltac:(discriminate) eq_refl
                 eq_refl eq_refl)
      | exact (determine_letter "9" "B" rest ltac:(discriminate) eq_refl
                 eq_refl eq_refl)
      | exact (determine_letter "9" "C" rest ltac:(discriminate) eq_refl
                 eq_refl eq_refl)
      | exact (determine_digits "1" rest ltac:(discriminate) eq_refl Hrest)
      | exact (determine_digits "2" rest ltac:(discriminate) eq_refl Hrest)
      | exact (determine_digits "3" rest ltac:(discriminate) eq_refl Hrest)
      | exact (determine_digits "4" rest ltac:(discriminate) eq_refl Hrest)
      | exact (determine_digits "5" rest ltac:(discriminate) eq_refl Hrest)
      | exact (determine_digits "6" rest ltac:(discriminate) eq_refl Hrest)
      | exact (determine_digits "7" rest ltac:(discriminate) eq_refl Hrest)
      | exact (determine_digits "8" rest ltac:(discriminate) eq_refl Hrest)
      | exact (determine_digits "9" rest ltac:(discriminate) eq_refl Hrest)
      | exact (determine_digits "10" rest ltac:(discriminate) eq_refl Hrest)
      | exact (determine_digits "11" rest ltac:(discriminate) eq_refl Hrest)
      | exact (determine_digits "12" rest ltac:(discriminate) eq_refl Hrest)
      | exact (determine_digits "13" rest ltac:(discriminate) eq_refl Hrest)
      | exact (determine_digits "14" rest ltac:(discriminate) eq_refl Hrest)
      | exact (determine_digits "15" rest ltac:(discriminate) eq_refl Hrest)
      | exact (determine_digits "16" rest ltac:(discriminate) eq_refl Hrest) ].
Qed.

Lemma category_of_table_names_witness :
  determine_section_category ("Item 7A" ++ ". Quantitative Disclosures")
  = part_II.
Proof.
  exact (category_of_table_names "Item 7A" part_II ". Quantitative Disclosures"
           ltac:(cbn; tauto) eq_refl).
Defined.

(** ** Structure transformer: what it keeps, and its fixed points *)

Module TransformerMore.
Import Transformer.

Lemma dict_has_set_same (k : string) (v : pyval) (d : dict) :
  dict_has k (dict_set k v d) = true.
Proof. unfold dict_has. now rewrite dict_get_set_same. Qed.

Lemma dict_get_without_other (k excluded : string) (d : dict) :
  k <> excluded -> dict_get k (dict_without excluded d) = dict_get k d.
Proof.
  intros Hne. unfold dict_without.
  induction d as [| [k' v'] r IH]; cbn [filter dict_get fst]; [reflexivity|].
  destruct (String.eqb_spec k' excluded) as [-> | Hk]; cbn [negb].
  - destruct (String.eqb_spec k excluded); [contradiction | exact IH].
  - cbn [dict_get]. now rewrite IH.
Qed.

Lemma dict_get_without_same (k : string) (d : dict) :
  dict_get k (dict_without k d) = None.
Proof.
  unfold dict_without.
  induction d as [| [k' v'] r IH]; cbn [filter dict_get fst]; [reflexivity|].
  destruct (String.eqb_spec k' k) as [-> | Hk]; cbn [negb]; [exact IH|].
  cbn [dict_get]. destruct (String.eqb_spec k k'); [congruence | exact IH].
Qed.

Lemma dict_without_fixed (k : string) (d : dict) :
  dict_has k d = false -> dict_without k d = d.
Proof.
  unfold dict_has, dict_without.
  induction d as [| [k' v'] r IH]; cbn [filter dict_get fst]; [reflexivity|].
  rewrite (String.eqb_sym k k').
  destruct (String.eqb k' k); [discriminate|]. cbn [negb].
  intros H. now rewrite IH.
Qed.

Lemma dict_without_set (k : string) (v : pyval) (d : dict) :
  dict_has k d = false -> dict_without k (dict_set k v d) = d.
Proof.
  intros H. rewrite (dict_set_absent k v d H). unfold dict_without.
  rewrite filter_app. cbn [filter fst]. rewrite String.eqb_refl. cbn [negb].
  rewrite app_nil_r. now apply dict_without_fixed.
Qed.

Lemma transform_sections_list_ids (l : list pyval) :
  forall idx, Forall has_section_id (transform_sections_list idx l).
Proof.
  induction l as [| sec rest IH]; intros idx; cbn [transform_sections_list];
    [constructor|].
  destruct sec as [| b | z | f | s | l | d]; auto.
  constructor; auto.
  destruct (dict_has "section_id" d) eqn:E; cbn [negb].
  - exists d. auto.
  - eexists. split; [reflexivity|]. apply dict_has_set_same.
Qed.

Lemma transform_sections_list_fixed (l : list pyval) :
  Forall has_section_id l ->
  forall idx, transform_sections_list idx l = l.
Proof.
  induction 1 as [| sec rest (d & -> & Hd) _ IH]; intros idx;
    cbn [transform_sections_list]; [reflexivity|].
  rewrite Hd. cbn [negb]. now rewrite IH.
Qed.

Lemma transform_sections_ids (v : pyval) (out : list pyval) :
  transform_sections v = Ok out -> Forall has_section_id out.
Proof.
  destruct v as [| b | z | f | s | l | d]; cbn; intros H; injection H as <-;
    try constructor.
  - apply transform_sections_list_ids.
  - induction d as [| [key value] r IH]; cbn [map]; constructor; auto.
    unfold transform_sections_item.
    destruct value; eexists; split; try reflexivity;
      try apply dict_has_set_same.
Qed.

Lemma transform_sections_again (out : list pyval) :
  Forall has_section_id out -> transform_sections (PList out) = Ok out.
Proof.
  intros H. cbn. now rewrite transform_sections_list_fixed.
Qed.

(** X14.  Sections that went through [transform_sections] pass through it
    unchanged: every object it returns is a dict with a [section_id], and
    on a list of such dicts it is the identity. *)
Theorem transform_sections_idempotent (v : pyval) :
  exists out,
    transform_sections v = Ok out
    /\ Forall has_section_id out
    /\ transform_sections (PList out) = Ok out.
Proof.
  destruct (TransformerFacts.transform_sections_ok v) as [out Hout].
  exists out. split; [exact Hout|].
  pose proof (transform_sections_ids v out Hout) as Hids.
  split; [exact Hids | now apply transform_sections_again].
Qed.

Lemma list_item_part (d : dict) :
  exists out,
    transform_parts_list_item (PDict d) = Ok (Some out)
    /\ list_part (PDict d) out.
Proof.
  unfold transform_parts_list_item, list_part, part_of.
  cbn [isinstance_dict negb py_get py_items bind].
  fold (get_or_none "part_name" d). fold (get_or_none "sections" d).
  destruct (TransformerFacts.transform_sections_ok (get_or_none "sections" d))
    as [secs Hsecs].
  rewrite Hsecs. cbn [bind].
  set (base := dict_set "sections" (PList secs) (dict_without "sections" d)).
  assert (Hname : dict_get "part_name" base = dict_get "part_name" d).
  { subst base. rewrite dict_get_set_other by discriminate.
    apply dict_get_without_other. discriminate. }
  rewrite Hname. fold (get_or_none "part_name" d).
  assert (Hother : forall k, k <> "sections" ->
                             dict_get k base = dict_get k d).
  { intros k Hk. subst base. rewrite dict_get_set_other by congruence.
    now apply dict_get_without_other. }
  destruct (py_truthy (get_or_none "part_name" d)) eqn:T; cbn [negb].
  - eexists. split; [reflexivity|]. exists base, secs.
    split; [reflexivity|]. split; [first [exact Hsecs | reflexivity]|].
    split; [subst base; apply dict_get_set_same|].
    split; [|intros k Hk _; now apply Hother].
    rewrite Hname. unfold get_or_none in *.
    destruct (dict_get "part_name" d); [reflexivity | discriminate].
  - unfold py_or. rewrite T.
    eexists. split; [reflexivity|].
    exists (dict_set "part_name" (PStr "Part") base), secs.
    split; [reflexivity|]. split; [first [exact Hsecs | reflexivity]|].
    split; [rewrite dict_get_set_other by discriminate;
            subst base; apply dict_get_set_same|].
    split; [apply dict_get_set_same|].
    intros k Hk Hk'. rewrite dict_get_set_other by congruence. now apply Hother.
Qed.

Lemma transform_parts_list_spec (l : list pyval) :
  exists out,
    transform_parts_list l = Ok out
    /\ Forall2 list_part (filter isinstance_dict l) out.
Proof.
  induction l as [| part rest (out & Hout & Hrel)]; cbn [transform_parts_list filter].
  - exists []. split; [reflexivity | constructor].
  - destruct part as [| b | z | f | s | l | d];
      try (cbn [transform_parts_list_item isinstance_dict negb bind];
           unfold transform_parts_list_item; cbn [isinstance_dict negb bind];
           rewrite Hout; cbn [bind]; exists out; split; [reflexivity | exact Hrel]).
    destruct (list_item_part d) as (o & Ho & Hpart).
    rewrite Ho, Hout. cbn [bind isinstance_dict].
    exists (o :: out). split; [reflexivity|]. constructor; auto.
Qed.

Lemma dict_item_part (key : string) (value : pyval) :
  exists out,
    transform_parts_dict_item (key, value) = Ok out
    /\ dict_part (key, value) out.
Proof.
  unfold transform_parts_dict_item, dict_part. cbn [fst snd].
  destruct value as [| b | z | f | s | l | d];
    try (eexists; split; reflexivity).
  unfold part_of. cbn [isinstance_dict py_get py_items bind].
  fold (get_or_none "part_name" d). fold (get_or_none "sections" d).
  destruct (TransformerFacts.transform_sections_ok (get_or_none "sections" d))
    as [secs Hsecs].
  rewrite Hsecs. cbn [bind].
  eexists. split; [reflexivity|]. eexists. exists secs.
  split; [reflexivity|]. split; [first [exact Hsecs | reflexivity]|].
  split; [apply dict_get_set_same|].
  split.
  - rewrite dict_get_set_other by discriminate. rewrite dict_get_set_same.
    unfold py_or. reflexivity.
  - intros k Hk Hk'. rewrite !dict_get_set_other by congruence.
    now apply dict_get_without_other.
Qed.

Lemma transform_parts_dict_spec (d : dict) :
  exists out,
    transform_parts_dict d = Ok out /\ Forall2 dict_part d out.
Proof.
  induction d as [| [key value] rest (out & Hout & Hrel)];
    cbn [transform_parts_dict].
  - exists []. split; [reflexivity | constructor].
  - destruct (dict_item_part key value) as (o & -> & Hpart).
    rewrite Hout. cbn [bind]. exists (o :: out).
    split; [reflexivity|]. constructor; auto.
Qed.

(** X15.  What [transform_parts] keeps.  Of a list it returns one part for each
    dict element, in order, of a dict one part for each item.  A part made
    of a dict has its [sections] replaced by the list [transform_sections]
    makes of them, its [part_name] kept when it is truthy and else set to
    ['Part'] (list) or to the key (dict), and every other key with its
    value.  An item of a dict of parts whose value is no dict becomes
    [{part_name: key, value: value, sections: []}]. *)
Theorem transform_parts_keeps_other_keys :
  (forall l, exists out,
      transform_parts (PList l) = Ok out
      /\ Forall2 list_part (filter isinstance_dict l) out)
  /\ (forall d, exists out,
        transform_parts (PDict d) = Ok out /\ Forall2 dict_part d out).
Proof.
  split.
  - intros l. apply transform_parts_list_spec.
  - intros d. apply transform_parts_dict_spec.
Qed.

Lemma dict_item_fixed (key : string) (value out : pyval) :
  key <> "" ->
  transform_parts_dict_item (key, value) = Ok out ->
  transform_parts_list_item out = Ok (Some out).
Proof.
  intros Hkey. unfold transform_parts_dict_item.
  assert (Htruthy_key : py_truthy (PStr key) = true).
  { cbn. destruct (String.eqb_spec key ""); [contradiction | reflexivity]. }
  destruct value as [| b | z | f | s | l | d];
    cbn [isinstance_dict py_get py_items bind];
    try (intros H; injection H as <-;
         unfold transform_parts_list_item, py_or; cbn;
         cbn in Htruthy_key; rewrite Htruthy_key; reflexivity).
  destruct (transform_sections
              match dict_get "sections" d with Some x => x | None => PNone end)
    as [secs|] eqn:Hsecs; cbn [bind]; [|discriminate].
  intros H. injection H as <-.
  set (name := py_or match dict_get "part_name" d with
                     | Some x => x
                     | None => PNone
                     end (PStr key)).
  assert (Hname : py_truthy name = true).
  { subst name. unfold py_or.
    destruct (py_truthy match dict_get "part_name" d with
                        | Some x => x
                        | None => PNone
                        end) eqn:T; auto. }
  set (B := dict_set "part_name" name (dict_without "sections" d)).
  assert (HB : dict_has "sections" B = false).
  { unfold dict_has. subst B. rewrite dict_get_set_other by discriminate.
    now rewrite dict_get_without_same. }
  unfold transform_parts_list_item.
  cbn [isinstance_dict negb py_get py_items bind].
  rewrite dict_get_set_same.
  rewrite (dict_get_set_other "sections" "part_name") by discriminate.
  subst B. rewrite dict_get_set_same. fold name.
  rewrite (transform_sections_again secs (transform_sections_ids _ _ Hsecs)).
  cbn [bind].
  rewrite (dict_without_set "sections" (PList secs) _ HB).
  rewrite (dict_get_set_other "sections" "part_name") by discriminate.
  rewrite dict_get_set_same, Hname. reflexivity.
Qed.

Lemma transform_parts_dict_fixed (d : dict) (out : list pyval) :
  (forall key value, In (key, value) d -> key <> "") ->
  transform_parts_dict d = Ok out ->
  transform_parts_list out = Ok out.
Proof.
  revert out. induction d as [| [key value] rest IH]; intros out Hkeys;
    cbn [transform_parts_dict].
  - intros H. injection H as <-. reflexivity.
  - destruct (transform_parts_dict_item (key, value)) as [o|] eqn:Ho;
      cbn [bind]; [|discriminate].
    destruct (transform_parts_dict rest) as [out'|] eqn:Hrest;
      cbn [bind]; [|discriminate].
    intros H. injection H as <-. cbn [transform_parts_list].
    rewrite (dict_item_fixed key value o); auto.
    + rewrite (IH out'); auto. intros k v Hin. apply (Hkeys k v). now right.
    + apply (Hkeys key value). now left.
Qed.

Lemma transform_parts_ok (v : pyval) : exists out, transform_parts v = Ok out.
Proof.
  destruct v as [| b | z | f | s | l | d]; cbn [transform_parts]; eauto.
  - destruct (TransformerFacts.transform_parts_list_ok l) as (out & H & _). eauto.
  - apply TransformerFacts.transform_parts_dict_ok.
Qed.

End TransformerMore.

(** ** [transform_document] *)

(** X16.  [transform_document] raises [AttributeError] on what is no dict.  Of a
    dict it keeps every key but [parts] with its value and in its place,
    and puts last the key [parts] with the list [transform_parts] makes of
    the old [parts]: the empty list when the key is missing. *)
Theorem transform_document_keeps_top_level :
  (forall v, isinstance_dict v = false ->
             transform_document v = Raise (attribute_error v "items"))
  /\ (forall d, exists parts,
        Transformer.transform_parts (get_or_none "parts" d) = Ok parts
        /\ transform_document (PDict d)
           = Ok (PDict (dict_without "parts" d ++ [("parts", PList parts)]))
        /\ (dict_has "parts" d = false -> parts = [])
        /\ forall k, k <> "parts" ->
             dict_get k (dict_without "parts" d ++ [("parts", PList parts)])
             = dict_get k d).
Proof.
  split.
  - intros v Hv. destruct v; try reflexivity. discriminate.
  - intros d.
    destruct (TransformerMore.transform_parts_ok (get_or_none "parts" d))
      as [parts Hparts].
    exists parts. split; [exact Hparts|].
    assert (Hnone : dict_has "parts" (dict_without "parts" d) = false).
    { unfold dict_has. now rewrite TransformerMore.dict_get_without_same. }
    split; [|split].
    + unfold transform_document. cbn [py_items py_get bind].
      fold (get_or_none "parts" d). rewrite Hparts. cbn [bind].
      now rewrite dict_set_absent.
    + intros Hmissing. unfold get_or_none, dict_has in *.
      destruct (dict_get "parts" d); [discriminate|].
      cbn in Hparts. now injection Hparts as <-.
    + intros k Hk. rewrite <- (dict_set_absent "parts" (PList parts) _ Hnone).
      rewrite dict_get_set_other by congruence.
      now apply TransformerMore.dict_get_without_other.
Qed.

(** X17.  A document whose [parts] is a dict with no empty key, as
    [create_json_from_folders] builds it, is transformed once and for all:
    [transform_document] leaves its own result unchanged, key order
    included. *)
Theorem transform_document_idempotent (d pd : dict) (out : pyval)
    (Hparts : dict_get "parts" d = Some (PDict pd))
    (Hkeys : forall key value, In (key, value) pd -> key <> "")
    (Hout : transform_document (PDict d) = Ok out) :
  transform_document out = Ok out.
Proof.
  revert Hout. unfold transform_document at 1.
  cbn [py_items py_get bind]. rewrite Hparts.
  cbn [Transformer.transform_parts].
  destruct (Transformer.transform_parts_dict pd) as [parts|] eqn:Hpd;
    cbn [bind]; [|discriminate].
  intros H. injection H as <-.
  assert (Hnone : dict_has "parts" (dict_without "parts" d) = false).
  { unfold dict_has. now rewrite TransformerMore.dict_get_without_same. }
  unfold transform_document. cbn [py_items py_get bind].
  rewrite dict_get_set_same.
  cbn [Transformer.transform_parts].
  rewrite (TransformerMore.transform_parts_dict_fixed pd parts Hkeys Hpd).
  cbn [bind].
  now rewrite (TransformerMore.dict_without_set "parts" _ _ Hnone).
Qed.

Lemma transform_document_idempotent_witness :
  exists out,
    transform_document sample_document = Ok out
    /\ transform_document out = Ok out.
Proof.
  pose (out := match transform_document sample_document with
               | Ok o => o
               | Raise _ => PNone
               end).
  assert (Hout : transform_document sample_document = Ok out)
    by (vm_compute; reflexivity).
  exists out. split; [exact Hout|].
  refine (transform_document_idempotent sample_fields sample_parts out
            eq_refl _ Hout).
  intros key value [H | []]. injection H as <- _. discriminate.
Defined.

(** ** [sanitize_filename] *)

Lemma string_filter_all (p : ascii -> bool) (s : string) :
  all_chars p (string_filter p s) = true.
Proof.
  unfold all_chars. induction s as [| c r IH]; cbn [string_filter]; [reflexivity|].
  destruct (p c) eqn:E; [|exact IH].
  cbn [list_ascii_of_string forallb]. now rewrite E.
Qed.

Lemma lstrip_chars_incl (q : ascii -> bool) (s : string) :
  incl (list_ascii_of_string (lstrip_chars q s)) (list_ascii_of_string s).
Proof.
  induction s as [| c r IH]; cbn [lstrip_chars]; [apply incl_refl|].
  destruct (q c); [|apply incl_refl].
  cbn [list_ascii_of_string]. now apply incl_tl.
Qed.

Lemma string_rev_incl (s : string) :
  incl (list_ascii_of_string (string_rev s)) (list_ascii_of_string s).
Proof.
  unfold string_rev. rewrite list_ascii_of_string_of_list_ascii.
  intros c Hc. now apply in_rev.
Qed.

Lemma take_incl (n : nat) (s : string) :
  incl (list_ascii_of_string (take n s)) (list_ascii_of_string s).
Proof.
  revert n. induction s as [| c r IH]; intros [| n]; cbn [take list_ascii_of_string];
    try apply incl_refl; try apply incl_nil_l.
  intros x [-> | Hx]; [now left | right; now apply (IH n)].
Qed.

Lemma all_chars_incl (p : ascii -> bool) (s t : string) :
  incl (list_ascii_of_string t) (list_ascii_of_string s) ->
  all_chars p s = true -> all_chars p t = true.
Proof.
  unfold all_chars. rewrite !forallb_forall. intros Hincl H c Hc.
  apply H, Hincl, Hc.
Qed.

Lemma lstrip_chars_head (q : ascii -> bool) (s : string) :
  match lstrip_chars q s with
  | String c _ => q c = false
  | EmptyString => True
  end.
Proof.
  induction s as [| c r IH]; cbn [lstrip_chars]; [exact I|].
  destruct (q c) eqn:E; [exact IH | exact E].
Qed.

(** The last character of a text, if any, read off its reversal. *)
Lemma string_rev_snoc (s : string) (c : ascii) :
  string_rev (s ++ String c EmptyString) = String c (string_rev s).
Proof.
  unfold string_rev.
  assert (H : list_ascii_of_string (s ++ String c EmptyString)
              = list_ascii_of_string s ++ [c]).
  { induction s as [| x r IH]; cbn; [reflexivity | now rewrite IH]. }
  rewrite H, rev_app_distr. reflexivity.
Qed.

Lemma string_rev_cons (s : string) (c : ascii) :
  string_rev (String c s) = (string_rev s ++ String c EmptyString)%string.
Proof.
  unfold string_rev. cbn [list_ascii_of_string rev].
  generalize (rev (list_ascii_of_string s)). intros l.
  induction l as [| x r IH]; cbn; [reflexivity | now rewrite IH].
Qed.

Lemma string_rev_involutive (s : string) : string_rev (string_rev s) = s.
Proof.
  induction s as [| c r IH]; [reflexivity|].
  now rewrite string_rev_cons, string_rev_snoc, IH.
Qed.

(** Stripping from the left what ends with a character to keep. *)
Lemma lstrip_chars_snoc (q : ascii -> bool) (s : string) (c : ascii) :
  q c = false ->
  exists t, lstrip_chars q (s ++ String c EmptyString)
            = (t ++ String c EmptyString)%string.
Proof.
  intros Hc. induction s as [| x r (t & IH)]; cbn [append lstrip_chars].
  - rewrite Hc. exists EmptyString. reflexivity.
  - destruct (q x).
    + exists t. exact IH.
    + exists (String x r). reflexivity.
Qed.

Lemma strip_chars_head (q : ascii -> bool) (s : string) :
  match strip_chars q s with
  | String c _ => q c = false
  | EmptyString => True
  end.
Proof.
  unfold strip_chars.
  pose proof (lstrip_chars_head q s) as Hhead.
  destruct (lstrip_chars q s) as [| c r]; [exact I|].
  rewrite string_rev_cons.
  destruct (lstrip_chars_snoc q (string_rev r) c Hhead) as (t & ->).
  now rewrite string_rev_snoc.
Qed.

(** X18.  The name [sanitize_filename] returns is never empty, has at most 100
    characters, and holds nothing but word characters, hyphens, underscores
    and full stops: no path separator, no white space, none of the
    characters the first substitution removes; and it does not start with a
    full stop or an underscore. *)
Theorem sanitize_filename_is_safe (filename : string) :
  sanitize_filename filename <> ""
  /\ len (sanitize_filename filename) <= 100
  /\ all_chars is_safe (sanitize_filename filename) = true
  /\ all_chars (fun c => negb (is_forbidden c) && negb (is_space c))
               (sanitize_filename filename) = true
  /\ match sanitize_filename filename with
     | String c _ => is_dot_or_underscore c = false
     | EmptyString => True
     end.
Proof.
  assert (Hsafe_ok : forall c, is_safe c = true ->
                               negb (is_forbidden c) && negb (is_space c) = true).
  { intros [[] [] [] [] [] [] [] []]; vm_compute; intros H;
      first [reflexivity | discriminate H]. }
  assert (Hnarrow : forall s, all_chars is_safe s = true ->
              all_chars (fun c => negb (is_forbidden c) && negb (is_space c)) s
              = true).
  { unfold all_chars. intros s. rewrite !forallb_forall.
    intros H c Hc. apply Hsafe_ok, H, Hc. }
  unfold sanitize_filename.
  set (cleaned := string_filter is_safe _).
  assert (Hcleaned : all_chars is_safe cleaned = true)
    by apply string_filter_all.
  set (stripped := strip_chars is_dot_or_underscore cleaned).
  assert (Hstripped : all_chars is_safe stripped = true).
  { apply (all_chars_incl _ cleaned); [|exact Hcleaned].
    subst stripped. unfold strip_chars.
    eapply incl_tran; [apply string_rev_incl|].
    eapply incl_tran; [apply lstrip_chars_incl|].
    eapply incl_tran; [apply string_rev_incl|].
    apply lstrip_chars_incl. }
  pose proof (strip_chars_head is_dot_or_underscore cleaned) as Hhead.
  fold stripped in Hhead. clearbody stripped. clear Hcleaned. clearbody cleaned.
  set (cut := if 100 <? len stripped then py_slice 0 100 stripped else stripped).
  assert (Hcut : len cut <= 100 /\ all_chars is_safe cut = true
                 /\ match cut with
                    | String c _ => is_dot_or_underscore c = false
                    | EmptyString => True
                    end).
  { subst cut. destruct (Nat.ltb_spec 100 (len stripped)) as [Hlong | Hshort].
    - assert (Hslice : py_slice 0 100 stripped = take 100 stripped).
      { unfold py_slice, slice_index, slice. cbn [Z.ltb Z.compare].
        change (Z.to_nat 0) with 0. change (Z.to_nat 100) with 100.
        rewrite Nat.min_0_l, Nat.sub_0_r.
        replace (Nat.min 100 (len stripped)) with 100 by lia. reflexivity. }
      rewrite Hslice. split; [rewrite len_take; lia|]. split.
      + apply (all_chars_incl _ stripped); [apply take_incl | exact Hstripped].
      + destruct stripped as [| c r]; [exact I | exact Hhead].
    - auto. }
  clearbody cut. destruct Hcut as (Hlen & Hall & Hfirst).
  destruct (String.eqb_spec cut "") as [-> | Hne]; cbn [negb].
  - split; [discriminate|]. split; [cbn; lia|]. repeat split.
  - split; [exact Hne|]. split; [exact Hlen|]. split; [exact Hall|].
    split; [now apply Hnarrow | exact Hfirst].
Qed.

(** ** The chunk prompt *)

Lemma prefix_append (x y : string) : String.prefix x (x ++ y) = true.
Proof.
  induction x as [| c r IH]; cbn.
  - now destruct y.
  - destruct (ascii_dec c c); [exact IH | congruence].
Qed.

Lemma is_substring_here (x y : string) : is_substring x (x ++ y) = true.
Proof.
  destruct (x ++ y)%string eqn:E; cbn [is_substring];
    rewrite <- E, prefix_append; reflexivity.
Qed.

Lemma is_substring_app_r (x a b : string) :
  is_substring x b = true -> is_substring x (a ++ b) = true.
Proof.
  intros H. induction a as [| c r IH]; cbn [append]; [exact H|].
  cbn [is_substring]. rewrite IH. apply orb_true_r.
Qed.

Lemma prefix_app_l (x a b : string) :
  String.prefix x a = true -> String.prefix x (a ++ b) = true.
Proof.
  revert a. induction x as [| c r IH]; intros a H.
  - destruct (a ++ b)%string; reflexivity.
  - destruct a as [| d a']; cbn in H; [discriminate|].
    cbn. destruct (ascii_dec c d); [now apply IH | discriminate].
Qed.

Lemma is_substring_app_l (x a b : string) :
  is_substring x a = true -> is_substring x (a ++ b) = true.
Proof.
  induction a as [| c r IH]; cbn [is_substring append].
  - rewrite orb_false_r. intros H. destruct x; [|discriminate].
    destruct b; reflexivity.
  - intros H. apply orb_true_iff in H as [H | H].
    + change (String c r ++ b)%string with (String c (r ++ b)).
      cbn [is_substring].
      change (String c (r ++ b)) with (String c r ++ b)%string.
      now rewrite (prefix_app_l _ _ b H).
    + change (String c r ++ b)%string with (String c (r ++ b)).
      cbn [is_substring]. rewrite (IH H). apply orb_true_r.
Qed.

Lemma is_substring_join (sep x : string) (l : list string) :
  In x l -> is_substring x (join sep l) = true.
Proof.
  induction l as [| y r IH]; [intros []|].
  intros [-> | Hin].
  - destruct r as [| z r'].
    + cbn [join]. rewrite <- (append_nil_r x) at 2. apply is_substring_here.
    + cbn [join]. apply is_substring_here.
  - destruct r as [| z r']; [destruct Hin|].
    cbn [join]. apply is_substring_app_r, is_substring_app_r. now apply IH.
Qed.

(** X19.  What the prompt of a chunk carries.  The prompt is built exactly when
    the chunk has its [estimated_input_tokens]; without the key the format
    of the default ['Unknown'] with [','] raises [ValueError].  A prompt
    holds the content of the chunk word for word and a line for each of its
    sections; for a chunk that is not the first it also holds a line for
    each section completed before, while the prompt of the first chunk does
    not depend on them. *)
Theorem prompt_carries_chunk (py_str : pyval -> string) (c : ProcessingChunk)
    (company_name year : option string) (is_first_chunk : bool)
    (previous_sections : list pyval) :
  (estimated_input_tokens c = None ->
   create_chunk_prompt py_str c company_name year is_first_chunk
                       previous_sections
   = Raise (mkExn ValueError "Cannot specify ',' with 's'."))
  /\ (forall n, estimated_input_tokens c = Some n ->
      exists prompt,
        create_chunk_prompt py_str c company_name year is_first_chunk
                            previous_sections = Ok prompt
        /\ is_substring (content c) prompt = true
        /\ (forall s, In s (sections c) ->
              is_substring ("  - " ++ section_label s) prompt = true)
        /\ (is_first_chunk = false ->
            forall v, In v previous_sections ->
              is_substring ("  - " ++ py_str v) prompt = true)
        /\ (is_first_chunk = true ->
            create_chunk_prompt py_str c company_name year true [] = Ok prompt)).
Proof.
  split.
  - intros H. unfold create_chunk_prompt. rewrite H. reflexivity.
  - intros n Hn. unfold create_chunk_prompt. rewrite Hn. unfold bind.
    eexists. split; [reflexivity|]. split; [|split; [|split]].
    + do 21 apply is_substring_app_r. apply is_substring_here.
    + intros s Hs. do 11 apply is_substring_app_r. apply is_substring_app_l.
      apply is_substring_join. rewrite map_map. apply in_map_iff.
      exists s. auto.
    + intros -> v Hv. do 13 apply is_substring_app_r. apply is_substring_app_l.
      destruct previous_sections as [| x xs]; [destruct Hv|].
      cbn [negb]. apply is_substring_app_r, is_substring_app_l.
      apply is_substring_join. apply in_map_iff. exists v. auto.
    + intros ->. destruct previous_sections; reflexivity.
Qed.

(** ** Boundary detector: the headers without item number *)

Lemma list_remove_incl (x : Boundary) (l kept : list Boundary) :
  list_remove x l = Ok kept -> incl kept l.
Proof.
  revert kept. induction l as [| y r IH]; intros kept; cbn [list_remove];
    [discriminate|].
  destruct (boundary_eqb y x).
  - intros H. injection H as <-. apply incl_tl, incl_refl.
  - destruct (list_remove x r) as [r'|]; cbn [bind]; [|discriminate].
    intros H. injection H as <-.
    intros b [<- | Hb]; [now left | right; now apply (IH r')].
Qed.

Lemma filter_loop_keeps (str_upper : string -> string) (document_content : string)
    (P : Boundary -> Prop) (boundaries : list Boundary) :
  (forall b, item_number_truthy (b_item_number b) = true -> P b) ->
  (forall b,
      100 < len (strip_decorative
                   (py_slice (b_position b) (b_position b + 1000)
                             document_content)) -> P b) ->
  forall st st',
    Forall P (filtered_boundaries st) ->
    filter_loop str_upper document_content st boundaries = Ok st' ->
    Forall P (filtered_boundaries st').
Proof.
  intros Hitem Hcontent.
  induction boundaries as [| b rest IH]; intros st st' Hall; cbn [filter_loop].
  - intros H. now injection H as <-.
  - destruct (filter_step str_upper document_content st b) as [st1|] eqn:Hstep;
      cbn [bind]; [|discriminate].
    apply IH. revert Hstep. unfold filter_step.
    destruct (item_number_truthy (b_item_number b)) eqn:T.
    + destruct (seen_get _ (seen_items st)) as [old|].
      * destruct (confidence_gt (b_confidence b) (b_confidence old)).
        -- destruct (list_remove old (filtered_boundaries st)) as [kept|] eqn:R;
             cbn [bind]; [|discriminate].
           intros H. injection H as <-. cbn [filtered_boundaries].
           apply Forall_app. split; [|constructor; auto].
           apply list_remove_incl in R. rewrite Forall_forall in *.
           intros x Hx. apply Hall, R, Hx.
        -- intros H. now injection H as <-.
      * intros H. injection H as <-. cbn [filtered_boundaries].
        apply Forall_app. split; auto.
    + destruct (seen_get _ (seen_items st)).
      * intros H. now injection H as <-.
      * destruct (100 <? len _) eqn:C.
        -- intros H. injection H as <-. cbn [filtered_boundaries].
           apply Forall_app. split; auto. constructor; [|constructor].
           apply Hcontent. now apply Nat.ltb_lt.
        -- intros H. now injection H as <-.
Qed.

(** X20.  A header without item number, a PART header, is in the result of the
    detector only if text follows it: among the 1000 characters from its
    position on, more than 100 are left once white space, hyphens, equals
    signs and underscores are taken out. *)
Theorem detector_part_headers_have_content
    (strategy_matches : string -> list Boundary) (str_upper : string -> string)
    (document_content : string) :
  exists final,
    detect_section_boundaries strategy_matches str_upper document_content
    = Ok final
    /\ forall b,
         In b final -> item_number_truthy (b_item_number b) = false ->
         100 < len (strip_decorative
                      (py_slice (b_position b) (b_position b + 1000)
                                document_content)).
Proof.
  destruct (detect_returns strategy_matches str_upper document_content)
    as [final Hfinal].
  exists final. split; [exact Hfinal|].
  revert Hfinal. unfold detect_section_boundaries, filter_boundaries.
  destruct (filter_loop str_upper document_content (mkFilterState [] [])
              (sort_by_position (strategy_matches document_content)))
    as [st|] eqn:Hloop; cbn [bind]; [|discriminate].
  intros H. injection H as <-.
  intros b Hb Hpart.
  pose proof (filter_loop_keeps str_upper document_content
                (fun b => item_number_truthy (b_item_number b) = true
                          \/ 100 < len (strip_decorative
                                          (py_slice (b_position b)
                                             (b_position b + 1000)
                                             document_content)))
                _ (fun b H => or_introl H) (fun b H => or_intror H)
                (mkFilterState [] []) st (Forall_nil _) Hloop) as Hall.
  apply drop_close_in in Hb as [[] | Hb].
  apply (Permutation_in _ (Permutation_sym (sort_by_position_perm _))) in Hb.
  rewrite Forall_forall in Hall. destruct (Hall b Hb) as [Hitem | Hcontent].
  - congruence.
  - exact Hcontent.
Qed.
